(** * api-test-portal: the request engine of [src/App.jsx]

    A shallow embedding of the data-transforming core of the portal
    (CSV codec, schema flattener, endpoint catalog builder, request
    binder and executor, batch runner) together with the properties
    the specification states about it.

    Conventions of the embedding.
    - A JavaScript string is a [string]: a sequence of 8-bit code
      units, that is the Latin-1 part of the UTF-16 code units the
      program manipulates.
    - A JavaScript object is the list of its own properties in
      [[OwnPropertyKeys]] order (array-index keys first, ascending,
      then the other keys in creation order).  The read of a row
      under the name of a parameter, and of the colours of a badge
      under a method, also find the members inherited from
      [Object.prototype]; every other read sees own properties
      only.
    - A JavaScript number is an IEEE-754 binary64 value ([spec_float]
      with precision 53 and maximal exponent 1024).
    - Functions of the host (JSON.parse, JSON.stringify, fetch, ...)
      are the fields of the class [Platform]. *)

From Stdlib Require Import String Ascii List ZArith NArith Lia Bool Arith.
From Stdlib Require Import SpecFloat DecimalString DecimalN Sorted.
Import ListNotations.
Local Open Scope string_scope.
Local Open Scope list_scope.

(** ** Strings *)

Module Str.

Definition dquote : ascii := "034"%char.
Definition comma : ascii := ","%char.
Definition newline : ascii := "010"%char.

(** The one-character string, as in [current += char]. *)
Definition of_char (c : ascii) : string := String c EmptyString.

(** The white space [String.prototype.trim] removes, among the code
    units below 256: TAB, LF, VT, FF, CR, SP and NBSP. *)
Definition is_ws (c : ascii) : bool :=
  let n := nat_of_ascii c in
  (((9 <=? n) && (n <=? 13)) || (n =? 32) || (n =? 160))%nat.

Fixpoint trim_start (s : string) : string :=
  match s with
  | EmptyString => EmptyString
  | String c r => if is_ws c then trim_start r else s
  end.

Fixpoint trim_end (s : string) : string :=
  match s with
  | EmptyString => EmptyString
  | String c r =>
      match trim_end r with
      | EmptyString => if is_ws c then EmptyString else of_char c
      | r' => String c r'
      end
  end.

(** [s.trim()] *)
Definition trim (s : string) : string := trim_end (trim_start s).

(** A string is truthy when it is not empty. *)
Definition nonempty (s : string) : bool :=
  match s with EmptyString => false | _ => true end.

(** [s.split(c)] for a one-character separator. *)
Fixpoint split (c : ascii) (s : string) : list string :=
  match s with
  | EmptyString => [EmptyString]
  | String a r =>
      let parts := split c r in
      if Ascii.eqb a c then EmptyString :: parts
      else match parts with
           | p :: ps => String a p :: ps
           | [] => [of_char a]
           end
  end.

(** [l.join(sep)] *)
Fixpoint join (sep : string) (l : list string) : string :=
  match l with
  | [] => EmptyString
  | [x] => x
  | x :: r => x ++ sep ++ join sep r
  end.

(** [s.includes(c)] for a one-character needle. *)
Fixpoint includes (c : ascii) (s : string) : bool :=
  match s with
  | EmptyString => false
  | String a r => Ascii.eqb a c || includes c r
  end.

(** Removal of one trailing [c]: a regular expression made of [c]
    and the end-of-input anchor, replaced by nothing. *)
Fixpoint drop_last (c : ascii) (s : string) : string :=
  match s with
  | EmptyString => EmptyString
  | String a EmptyString => if Ascii.eqb a c then EmptyString else s
  | String a r => String a (drop_last c r)
  end.

(** The first [replace] of line 43 (global; a quote at the start or
    a quote at the end, replaced by nothing): one leading and one
    trailing double quote are removed; the two matches never
    overlap. *)
Definition strip_outer_quotes (s : string) : string :=
  match s with
  | String c r => if Ascii.eqb c dquote then drop_last dquote r
                  else drop_last dquote s
  | EmptyString => EmptyString
  end.

(** The second [replace] of line 43 (global): every pair of
    adjacent double quotes, matched from the left, becomes one. *)
Fixpoint unescape_quotes (s : string) : string :=
  match s with
  | String a ((String b r) as t) =>
      if Ascii.eqb a dquote && Ascii.eqb b dquote
      then String dquote (unescape_quotes r)
      else String a (unescape_quotes t)
  | _ => s
  end.

(** The [replace] of line 430 (global): every double quote is
    doubled. *)
Fixpoint double_quotes (s : string) : string :=
  match s with
  | EmptyString => EmptyString
  | String c r =>
      if Ascii.eqb c dquote then String dquote (String dquote (double_quotes r))
      else String c (double_quotes r)
  end.

(** [s.toLowerCase()] and [s.toUpperCase()] on Latin-1 code units.
    The code units whose upper case lies outside Latin-1 (sharp s,
    micro sign, y with diaeresis) are left as they are; no method
    name holds one. *)
Definition lower_char (c : ascii) : ascii :=
  let n := nat_of_ascii c in
  if (((65 <=? n) && (n <=? 90))
      || ((192 <=? n) && (n <=? 222) && negb (n =? 215)))%nat
  then ascii_of_nat (n + 32) else c.

Definition upper_char (c : ascii) : ascii :=
  let n := nat_of_ascii c in
  if (((97 <=? n) && (n <=? 122))
      || ((224 <=? n) && (n <=? 254) && negb (n =? 247)))%nat
  then ascii_of_nat (n - 32) else c.

Fixpoint map_chars (f : ascii -> ascii) (s : string) : string :=
  match s with
  | EmptyString => EmptyString
  | String c r => String (f c) (map_chars f r)
  end.

Definition toLowerCase : string -> string := map_chars lower_char.
Definition toUpperCase : string -> string := map_chars upper_char.

(** [l.includes(s)] on an array of strings. *)
Definition mem (s : string) (l : list string) : bool :=
  existsb (String.eqb s) l.

(** [hay.includes(needle)] *)
Fixpoint contains (needle hay : string) : bool :=
  String.prefix needle hay
  || match hay with
     | EmptyString => false
     | String _ r => contains needle r
     end.

(** [l.pop()] on the result of a [split], which is never empty. *)
Definition last_part (l : list string) : string := last l EmptyString.

End Str.

(** ** JavaScript objects *)

Module JsObject.

(** The own properties of an object, in [[OwnPropertyKeys]] order. *)
Definition t (V : Type) : Type := list (string * V).

Definition digit_of (c : ascii) : option N :=
  let n := N_of_ascii c in
  if ((48 <=? n) && (n <=? 57))%N then Some (n - 48)%N else None.

Fixpoint digits_value (acc : N) (s : string) : option N :=
  match s with
  | EmptyString => Some acc
  | String c r =>
      match digit_of c with
      | Some d => digits_value (10 * acc + d)%N r
      | None => None
      end
  end.

(** A property key is an array index when it is the canonical
    decimal form of an integer between 0 and 2^32 - 2. *)
Definition array_index (k : string) : option N :=
  match k with
  | EmptyString => None
  | String c r =>
      if Ascii.eqb c "0"%char && Str.nonempty r then None
      else match digits_value 0 k with
           | Some n => if (n <=? 4294967294)%N then Some n else None
           | None => None
           end
  end.

(** [precedes k k']: a new key [k] is listed before the existing key
    [k']. *)
Definition precedes (k k' : string) : bool :=
  match array_index k, array_index k' with
  | Some i, Some j => (i <? j)%N
  | Some _, None => true
  | None, _ => false
  end.

Section Ops.
Context {V : Type}.

(** [o[k]] on an own property; [None] is [undefined]. *)
Fixpoint get (o : t V) (k : string) : option V :=
  match o with
  | [] => None
  | (k', v) :: r => if String.eqb k k' then Some v else get r k
  end.

Definition has (o : t V) (k : string) : bool :=
  match get o k with Some _ => true | None => false end.

Definition keys (o : t V) : list string := map fst o.

Fixpoint update (k : string) (v : V) (o : t V) : t V :=
  match o with
  | [] => []
  | (k', v') :: r =>
      if String.eqb k k' then (k, v) :: r else (k', v') :: update k v r
  end.

Fixpoint insert (k : string) (v : V) (o : t V) : t V :=
  match o with
  | [] => [(k, v)]
  | (k', v') :: r =>
      if precedes k k' then (k, v) :: o else (k', v') :: insert k v r
  end.

(** CreateDataProperty, as performed by an object literal and by
    spread: an existing key keeps its place and takes the new
    value, a new key is added. *)
Definition define (k : string) (v : V) (o : t V) : t V :=
  if has o k then update k v o else insert k v o.

(** [o[k] = v] on an ordinary object: the inherited setter of
    [__proto__] creates no own property, every other key is
    defined. *)
Definition assign (k : string) (v : V) (o : t V) : t V :=
  if String.eqb k "__proto__" then o else define k v o.

(** [{ ...o, ...src }] (CopyDataProperties): for every own key of
    [src], in key order, its value is read and defined on [o]. *)
Definition spread (src : t V) (o : t V) : t V :=
  fold_left (fun acc k => match get src k with
                          | Some v => define k v acc
                          | None => acc
                          end)
            (keys src) o.

End Ops.

End JsObject.

(** ** JSON values, the values of the program *)

Definition number : Type := spec_float.

(** The number of an integer, as [i + 1] or a status code. *)
Definition num_of_Z (z : Z) : number := binary_normalize 53 1024 z 0 false.

#[warnings="-register-all"]
Inductive json : Type :=
| JNull
| JBool (b : bool)
| JNum (x : number)
| JStr (s : string)
| JArr (l : list json)
| JObj (o : list (string * json)).

(** A row of a CSV file, a form's values, a result row. *)
Definition Row : Type := JsObject.t json.

(** ** CSV codec (lines 27-68 and 420-438) *)

Module Csv.

(** The clean-up of a finished cell (lines 43 and 50):
    [current.trim()], then the two [replace] calls. *)
Definition clean (current : string) : string :=
  Str.unescape_quotes (Str.strip_outer_quotes (Str.trim current)).

(** The loop of [parseLine] over the characters still to read, with
    its three variables [values], [current] and [inQuote]. *)
Fixpoint parse_chars (line : string) (values : list string)
         (current : string) (inQuote : bool) : list string :=
  match line with
  | EmptyString => values ++ [clean current]
  | String char rest =>
      if Ascii.eqb char Str.dquote then
        parse_chars rest values current (negb inQuote)
      else if Ascii.eqb char Str.comma && negb inQuote then
        parse_chars rest (values ++ [clean current]) EmptyString inQuote
      else
        parse_chars rest values (current ++ Str.of_char char) inQuote
  end.

Definition parseLine (line : string) : list string :=
  parse_chars line [] EmptyString false.

(** [h.replace(...).trim()] of line 63. *)
Definition cleanKey (h : string) : string :=
  Str.trim (Str.strip_outer_quotes h).

(** [values[i] || ''] *)
Definition cell_or_empty (values : list string) (i : nat) : string :=
  match nth_error values i with
  | Some v => if Str.nonempty v then v else EmptyString
  | None => EmptyString
  end.

(** The [forEach] of lines 61-65, from header number [i] on. *)
Fixpoint fill_row (headers : list string) (i : nat) (values : list string)
         (obj : Row) : Row :=
  match headers with
  | [] => obj
  | h :: hs =>
      fill_row hs (S i) values
        (JsObject.assign (cleanKey h) (JStr (cell_or_empty values i)) obj)
  end.

Definition blank (l : string) : bool := negb (Str.nonempty (Str.trim l)).

Definition parseCSV (text : string) : list Row :=
  let lines := filter (fun l => negb (blank l)) (Str.split Str.newline text) in
  match lines with
  | [] => []
  | header :: rest =>
      let headers := parseLine header in
      map (fun line => fill_row headers 0 (parseLine line) []) rest
  end.

End Csv.

(** ** Completions and the host platform *)

(** The outcome of evaluating a JavaScript expression: a value, or a
    thrown error, of which only the [message] is ever read. *)
Inductive completion (A : Type) : Type :=
| Normal (a : A)
| Throw (message : string).
Arguments Normal {A} a.
Arguments Throw {A} message.

Definition bind {A B : Type} (c : completion A) (k : A -> completion B)
  : completion B :=
  match c with
  | Normal a => k a
  | Throw m => Throw m
  end.

Notation "'let*' x ':=' c 'in' k" := (bind c (fun x => k))
  (at level 10, x pattern, c at level 100, k at level 200).

(** Iteration of a throwing callback over an array, accumulating. *)
Fixpoint foldM {A B : Type} (f : B -> A -> completion B) (l : list A) (b : B)
  : completion B :=
  match l with
  | [] => Normal b
  | x :: r => let* b' := f b x in foldM f r b'
  end.

(** [l.map(f)] for a throwing callback. *)
Fixpoint mapM {A B : Type} (f : A -> completion B) (l : list A)
  : completion (list B) :=
  match l with
  | [] => Normal []
  | x :: r => let* y := f x in let* ys := mapM f r in Normal (y :: ys)
  end.

(** The TypeErrors the engine raises in the modelled code; their
    message text is the host's. *)
Inductive TypeErrorKind : Type :=
| ReadOfNull (property : string)
| KeysOfNull
| NotAFunction (name : string)
| BodyUnusable
| CalledOnUndefined (member : string).

Class Platform : Type := {
  (** [JSON.parse]: the value, or the SyntaxError's message. *)
  JSON_parse : string -> completion json;
  JSON_stringify : json -> string;
  (** [String(x)] on a number. *)
  Number_toString : number -> string;
  (** [s.replace(pattern, replacement)] with a string pattern. *)
  String_replace : string -> string -> string -> string;
  (** [new URLSearchParams()], a sequence of [append], [toString()]. *)
  URLSearchParams_toString : list (string * string) -> string;
  (** [String(f)] on the built-in function of [Object.prototype] under
      a name. *)
  Function_toString : string -> string;
  TypeError_message : TypeErrorKind -> string
}.

Module Js.
Section Dynamic.
Context `{Platform}.

(** ToBoolean *)
Definition truthy (v : json) : bool :=
  match v with
  | JNull => false
  | JBool b => b
  | JNum x => match x with
              | S754_zero _ | S754_nan => false
              | _ => true
              end
  | JStr s => Str.nonempty s
  | JArr _ | JObj _ => true
  end.

(** ToBoolean on a value that may be [undefined]. *)
Definition truthy_opt (v : option json) : bool :=
  match v with Some x => truthy x | None => false end.

(** [a || b] where [a] may be [undefined]. *)
Definition or_else (a : option json) (b : json) : json :=
  match a with
  | Some x => if truthy x then x else b
  | None => b
  end.

Definition N_to_string (n : N) : string :=
  NilEmpty.string_of_uint (N.to_uint n).

(** The index keys of an array or string of length [n]. *)
Definition index_keys (n : nat) : list string :=
  map (fun i => N_to_string (N.of_nat i)) (seq 0 n).

Fixpoint nth_char (s : string) (i : nat) : option ascii :=
  match s, i with
  | EmptyString, _ => None
  | String c _, O => Some c
  | String _ r, S j => nth_char r j
  end.

(** [v[k]] and [v.k]: [None] is [undefined]; reading a property
    of [null] throws. *)
Definition get_prop (v : json) (k : string) : completion (option json) :=
  match v with
  | JNull => Throw (TypeError_message (ReadOfNull k))
  | JObj o => Normal (JsObject.get o k)
  | JArr l =>
      match JsObject.array_index k with
      | Some i => Normal (nth_error l (N.to_nat i))
      | None =>
          if String.eqb k "length"
          then Normal (Some (JNum (num_of_Z (Z.of_nat (List.length l)))))
          else Normal None
      end
  | JStr s =>
      match JsObject.array_index k with
      | Some i => Normal (option_map (fun c => JStr (Str.of_char c))
                                     (nth_char s (N.to_nat i)))
      | None =>
          if String.eqb k "length"
          then Normal (Some (JNum (num_of_Z (Z.of_nat (String.length s)))))
          else Normal None
      end
  | JBool _ | JNum _ => Normal None
  end.

(** [v?.k] on a value that may be [undefined]. *)
Definition get_opt (v : option json) (k : string) : option json :=
  match v with
  | None | Some JNull => None
  | Some x => match get_prop x k with Normal r => r | Throw _ => None end
  end.

(** [Object.keys(v)] *)
Definition Object_keys (v : json) : completion (list string) :=
  match v with
  | JNull => Throw (TypeError_message KeysOfNull)
  | JObj o => Normal (JsObject.keys o)
  | JArr l => Normal (index_keys (List.length l))
  | JStr s => Normal (index_keys (String.length s))
  | JBool _ | JNum _ => Normal []
  end.

(** [String(v)], also the conversion of a template literal and of
    a property key. *)
Fixpoint to_String (v : json) : string :=
  match v with
  | JNull => "null"
  | JBool true => "true"
  | JBool false => "false"
  | JNum x => Number_toString x
  | JStr s => s
  | JArr l =>
      Str.join ","
        (map (fun e => match e with JNull => EmptyString | _ => to_String e end) l)
  | JObj _ => "[object Object]"
  end.

Definition to_String_opt (v : option json) : string :=
  match v with Some x => to_String x | None => "undefined" end.

(** [typeof v === 'object'] *)
Definition typeof_object (v : json) : bool :=
  match v with
  | JNull | JArr _ | JObj _ => true
  | _ => false
  end.

(** [x === s] for a string literal [s]. *)
Definition is_string (x : option json) (s : string) : bool :=
  match x with Some (JStr t) => String.eqb t s | _ => false end.

(** [l.includes(key)] on an array of values, for a string [key]. *)
Definition includes_key (l : list (option json)) (key : string) : bool :=
  existsb (fun x => is_string x key) l.

End Dynamic.
End Js.

(** ** CSV export (lines 420-438) *)

Module CsvExport.
Section Serialize.
Context `{Platform}.

(** [escapeCsv(val)], where [None] is [undefined]. *)
Definition escapeCsv (val : option json) : string :=
  match val with
  | None | Some JNull => EmptyString
  | Some v =>
      let stringVal := Js.to_String v in
      if Str.includes Str.dquote stringVal
         || Str.includes Str.comma stringVal
         || Str.includes Str.newline stringVal
      then Str.of_char Str.dquote ++ Str.double_quotes stringVal
           ++ Str.of_char Str.dquote
      else stringVal
  end.

Definition csvLine (headers : list string) (row : Row) : string :=
  Str.join "," (map (fun h => escapeCsv (JsObject.get row h)) headers).

(** [csvContent]; [None] when [downloadBatchResults] returns at
    line 421 without building any text. *)
Definition csvContent (batchResults : list Row) : option string :=
  match batchResults with
  | [] => None
  | first :: _ =>
      let headers := JsObject.keys first in
      Some (Str.join (Str.of_char Str.newline)
              (Str.join "," headers :: map (csvLine headers) batchResults))
  end.

End Serialize.
End CsvExport.

(** ** Schema flattener (lines 71-94) *)

Record Field : Type := {
  f_name : string;
  f_type : json;
  f_required : bool;
  f_description : json
}.

Section Flattener.
Context `{Platform}.

(** [requiredFields.includes(key)]: [Array.prototype.includes] on an
    array, [String.prototype.includes] on a string, and a TypeError
    on any other (truthy) value. *)
Definition required_includes (requiredFields : json) (key : string)
  : completion bool :=
  match requiredFields with
  | JArr l => Normal (Js.includes_key (map Some l) key)
  | JStr s => Normal (Str.contains key s)
  | _ => Throw (TypeError_message (NotAFunction "includes"))
  end.

(** The callback of the [map] of lines 88-93. *)
Definition field_of (properties requiredFields : json) (key : string)
  : completion Field :=
  let* p := Js.get_prop properties key in
  match p with
  | None => Throw (TypeError_message (ReadOfNull "type"))
  | Some prop =>
      let* ty := Js.get_prop prop "type" in
      let* req := required_includes requiredFields key in
      let* descr := Js.get_prop prop "description" in
      Normal {| f_name := key;
                f_type := Js.or_else ty (JStr "string");
                f_required := req;
                f_description := Js.or_else descr (JStr EmptyString) |}
  end.

(** [schema.$ref.split('/').pop()] *)
Definition ref_name (ref : json) : completion string :=
  match ref with
  | JStr s => Normal (Str.last_part (Str.split "/"%char s))
  | _ => Throw (TypeError_message (NotAFunction "split"))
  end.

(** [x.properties || {}] and [x.required || []] *)
Definition properties_of (x : json) : completion (json * json) :=
  let* props := Js.get_prop x "properties" in
  let* req := Js.get_prop x "required" in
  Normal (Js.or_else props (JObj []), Js.or_else req (JArr [])).

(** The branch of lines 78-82, for a truthy [schema.$ref]. *)
Definition resolve_ref (ref : json) (definitions : option json)
  : completion (json * json) :=
  let* refName := ref_name ref in
  match definitions with
  | Some defs =>
      if Js.truthy defs then
        let* d := Js.get_prop defs refName in
        match d with
        | Some def =>
            if Js.truthy def then properties_of def
            else Normal (JObj [], JArr [])
        | None => Normal (JObj [], JArr [])
        end
      else Normal (JObj [], JArr [])
  | None => Normal (JObj [], JArr [])
  end.

Definition extractFieldsFromSchema (schema definitions : option json)
  : completion (list Field) :=
  match schema with
  | None => Normal []
  | Some sch =>
      if negb (Js.truthy sch) then Normal []
      else
        let* ref := Js.get_prop sch "$ref" in
        let* pr := if Js.truthy_opt ref
                   then resolve_ref (Js.or_else ref JNull) definitions
                   else properties_of sch in
        let* ks := Js.Object_keys (fst pr) in
        mapM (field_of (fst pr) (snd pr)) ks
  end.

End Flattener.

(** ** Endpoint descriptors and the state of the component *)

Module Endpoint.
(** The object pushed at lines 250-258.  [None] is [undefined]. *)
Record t : Type := {
  id : string;
  path : string;
  method : string;
  summary : json;
  parameters : json;
  requestBody : option json;
  definitions : option json
}.
End Endpoint.

Record ParsedSpec : Type := {
  info : option json;
  endpoints : list Endpoint.t
}.

Record Header : Type := { key : string; value : string }.

Record Config : Type := {
  baseUrl : string;
  token : string;
  headers : list Header
}.

(** The object returned by [executeRequest] (lines 346-351 and
    353-359); [isNetworkError] is absent from the first one, which
    reads as [false]. *)
Record Outcome : Type := {
  success : bool;
  status : Z;
  time : Z;
  data : json;
  isNetworkError : bool
}.

Inductive Tab : Type := setup | manual | batch.

(** The [useState] cells of [App] (lines 209-233). *)
Record AppState : Type := {
  activeTab : Tab;
  specInput : string;
  parsedSpec : option ParsedSpec;
  error : string;
  config : Config;
  manualSearch : string;
  selectedEndpoint : option Endpoint.t;
  formData : Row;
  manualResponse : option Outcome;
  loading : bool;
  batchFile : option string;
  batchData : list Row;
  batchResults : list Row;
  batchProgress : number;
  batchRunning : bool
}.

Definition setActiveTab (x : Tab) (s : AppState) : AppState :=
  {| activeTab := x; specInput := specInput s; parsedSpec := parsedSpec s;
     error := error s; config := config s; manualSearch := manualSearch s;
     selectedEndpoint := selectedEndpoint s; formData := formData s;
     manualResponse := manualResponse s; loading := loading s;
     batchFile := batchFile s; batchData := batchData s;
     batchResults := batchResults s; batchProgress := batchProgress s;
     batchRunning := batchRunning s |}.

Definition setParsedSpec (x : option ParsedSpec) (s : AppState) : AppState :=
  {| activeTab := activeTab s; specInput := specInput s; parsedSpec := x;
     error := error s; config := config s; manualSearch := manualSearch s;
     selectedEndpoint := selectedEndpoint s; formData := formData s;
     manualResponse := manualResponse s; loading := loading s;
     batchFile := batchFile s; batchData := batchData s;
     batchResults := batchResults s; batchProgress := batchProgress s;
     batchRunning := batchRunning s |}.

Definition setError (x : string) (s : AppState) : AppState :=
  {| activeTab := activeTab s; specInput := specInput s;
     parsedSpec := parsedSpec s;
     error := x; config := config s; manualSearch := manualSearch s;
     selectedEndpoint := selectedEndpoint s; formData := formData s;
     manualResponse := manualResponse s; loading := loading s;
     batchFile := batchFile s; batchData := batchData s;
     batchResults := batchResults s; batchProgress := batchProgress s;
     batchRunning := batchRunning s |}.

Definition setBatchResults (x : list Row) (s : AppState) : AppState :=
  {| activeTab := activeTab s; specInput := specInput s;
     parsedSpec := parsedSpec s;
     error := error s; config := config s; manualSearch := manualSearch s;
     selectedEndpoint := selectedEndpoint s; formData := formData s;
     manualResponse := manualResponse s; loading := loading s;
     batchFile := batchFile s; batchData := batchData s;
     batchResults := x; batchProgress := batchProgress s;
     batchRunning := batchRunning s |}.

Definition setBatchProgress (x : number) (s : AppState) : AppState :=
  {| activeTab := activeTab s; specInput := specInput s;
     parsedSpec := parsedSpec s;
     error := error s; config := config s; manualSearch := manualSearch s;
     selectedEndpoint := selectedEndpoint s; formData := formData s;
     manualResponse := manualResponse s; loading := loading s;
     batchFile := batchFile s; batchData := batchData s;
     batchResults := batchResults s; batchProgress := x;
     batchRunning := batchRunning s |}.

Definition setBatchRunning (x : bool) (s : AppState) : AppState :=
  {| activeTab := activeTab s; specInput := specInput s;
     parsedSpec := parsedSpec s;
     error := error s; config := config s; manualSearch := manualSearch s;
     selectedEndpoint := selectedEndpoint s; formData := formData s;
     manualResponse := manualResponse s; loading := loading s;
     batchFile := batchFile s; batchData := batchData s;
     batchResults := batchResults s; batchProgress := batchProgress s;
     batchRunning := x |}.

(** ** Endpoint catalog builder (lines 237-269) *)

Section Catalog.
Context `{Platform}.

Definition verbs : list string := ["get"; "post"; "put"; "delete"; "patch"].

(** The test of line 248. *)
Definition recognized (method : string) : bool :=
  Str.mem (Str.toLowerCase method) verbs.

(** [json.definitions || json.components?.schemas] *)
Definition schema_definitions (doc : json) : completion (option json) :=
  let* defs := Js.get_prop doc "definitions" in
  if Js.truthy_opt defs then Normal defs
  else let* comps := Js.get_prop doc "components" in
       Normal (Js.get_opt comps "schemas").

(** The object literal of lines 250-258, for [details] read at line
    249. *)
Definition describe (doc : json) (path method : string) (details : option json)
  : completion Endpoint.t :=
  match details with
  | None => Throw (TypeError_message (ReadOfNull "summary"))
  | Some d =>
      let* summ := Js.get_prop d "summary" in
      let* opId := Js.get_prop d "operationId" in
      let* params := Js.get_prop d "parameters" in
      let* body := Js.get_prop d "requestBody" in
      let* defs := schema_definitions doc in
      Normal {| Endpoint.id := method ++ "-" ++ path;
                Endpoint.path := path;
                Endpoint.method := method;
                Endpoint.summary :=
                  Js.or_else summ (Js.or_else opId (JStr path));
                Endpoint.parameters := Js.or_else params (JArr []);
                Endpoint.requestBody := body;
                Endpoint.definitions := defs |}
  end.

(** [json.paths[path]], read again at every use. *)
Definition path_item (doc : json) (path : string) : completion json :=
  let* paths := Js.get_prop doc "paths" in
  match paths with
  | None => Throw (TypeError_message (ReadOfNull path))
  | Some ps =>
      let* item := Js.get_prop ps path in
      match item with
      | None => Throw (TypeError_message KeysOfNull)
      | Some it => Normal it
      end
  end.

(** The inner [forEach] (lines 247-260). *)
Definition visit_method (doc : json) (path : string)
           (acc : list Endpoint.t) (method : string)
  : completion (list Endpoint.t) :=
  if recognized method then
    let* item := path_item doc path in
    let* details := Js.get_prop item method in
    let* ep := describe doc path method details in
    Normal (acc ++ [ep])
  else Normal acc.

(** The outer [forEach] (lines 246-261). *)
Definition visit_path (doc : json) (acc : list Endpoint.t) (path : string)
  : completion (list Endpoint.t) :=
  let* item := path_item doc path in
  let* methods := Js.Object_keys item in
  foldM (visit_method doc path) methods acc.

(** The body of the [try] up to line 261. *)
Definition buildCatalog (doc : json) : completion ParsedSpec :=
  let* paths := Js.get_prop doc "paths" in
  if negb (Js.truthy_opt paths)
  then Throw "Invalid OpenAPI/Swagger Spec: Missing 'paths'"
  else
    let* pathKeys := Js.Object_keys (Js.or_else paths JNull) in
    let* eps := foldM (visit_path doc) pathKeys [] in
    let* inf := Js.get_prop doc "info" in
    Normal {| info := inf; endpoints := eps |}.

Definition handleSpecParse (s : AppState) : AppState :=
  match (let* doc := JSON_parse (specInput s) in buildCatalog doc) with
  | Normal spec =>
      setActiveTab manual (setError EmptyString (setParsedSpec (Some spec) s))
  | Throw message => setError message s
  end.

End Catalog.

(** ** Request binder and executor (lines 277-361) *)

(** The [options] argument of [fetch]. *)
Record RequestOptions : Type := {
  opt_method : string;
  opt_headers : JsObject.t string;
  opt_body : option string
}.

(** A response as [fetch] resolves it: its status and its body, [None]
    for a null body (as a 204 has). *)
Record Response : Type := {
  res_status : Z;
  res_body : option string
}.

(** What [await fetch(url, options)] does: it throws, or it yields a
    response after [elapsed] milliseconds. *)
Inductive FetchResult : Type :=
| Rejected (message : string)
| Resolved (res : Response) (elapsed : Z).

Definition Network : Type := string -> RequestOptions -> FetchResult.

(** The names of the members every object inherits from
    [Object.prototype]: a read of such a name on an object without an
    own property of that name finds the inherited member. *)
Definition Object_prototype_names : list string :=
  ["constructor"; "__defineGetter__"; "__defineSetter__"; "hasOwnProperty";
   "__lookupGetter__"; "__lookupSetter__"; "isPrototypeOf";
   "propertyIsEnumerable"; "toString"; "valueOf"; "__proto__";
   "toLocaleString"].

Section Executor.
Context `{Platform}.

(** [res.ok] *)
Definition res_ok (res : Response) : bool :=
  ((200 <=? res_status res) && (res_status res <=? 299))%Z.

(** The body of a response can be consumed once: [json()] and
    [text()] reject with a TypeError when the body is not null and
    has been read already, and otherwise read it.  [used] is the
    flag [bodyUsed] before the call; the result carries it after. *)
Definition unusable (res : Response) (used : bool) : bool :=
  match res_body res with
  | Some _ => used
  | None => false
  end.

Definition Response_json (res : Response) (used : bool)
  : completion json * bool :=
  if unusable res used then (Throw (TypeError_message BodyUnusable), used)
  else match res_body res with
       | Some b => (JSON_parse b, true)
       | None => (JSON_parse EmptyString, used)
       end.

Definition Response_text (res : Response) (used : bool)
  : completion string * bool :=
  if unusable res used then (Throw (TypeError_message BodyUnusable), used)
  else match res_body res with
       | Some b => (Normal b, true)
       | None => (Normal EmptyString, used)
       end.

(** Lines 339-344: [res.json()], and [res.text()] in its [catch]. *)
Definition read_body (res : Response) : completion json :=
  match Response_json res false with
  | (Normal v, _) => Normal v
  | (Throw _, used) =>
      let* t := fst (Response_text res used) in Normal (JStr t)
  end.

(** The [try] of lines 334-360, given what [fetch] did. *)
Definition settle (r : FetchResult) : Outcome :=
  let failed (message : string) :=
    {| success := false; status := 0; time := 0;
       data := JStr message; isNetworkError := true |} in
  match r with
  | Rejected message => failed message
  | Resolved res elapsed =>
      match read_body res with
      | Normal resBody =>
          {| success := res_ok res; status := res_status res;
             time := elapsed; data := resBody; isNetworkError := false |}
      | Throw message => failed message
      end
  end.

(** Lines 281-289. *)
Definition request_headers (cfg : Config) : JsObject.t string :=
  let extra :=
    fold_left (fun acc h => JsObject.define (key h) (value h)
                              (JsObject.spread acc []))
              (headers cfg) [] in
  let hs := JsObject.spread extra
              (JsObject.define "Content-Type" "application/json" []) in
  if Str.nonempty (token cfg)
  then JsObject.assign "Authorization" ("Bearer " ++ token cfg)%string hs
  else hs.

(** [endpoint.parameters.forEach(callback)] *)
Definition forEach_parameter {A : Type} (parameters : json)
           (callback : A -> json -> completion A) (a : A) : completion A :=
  if Js.truthy parameters then
    match parameters with
    | JArr params => foldM callback params a
    | _ => Throw (TypeError_message (NotAFunction "forEach"))
    end
  else Normal a.

(** The own property of the row under the name of a parameter, if
    the row has one. *)
Definition value_of (data : Row) (name : option json) : option json :=
  JsObject.get data (Js.to_String_opt name).

(** What [data[param.name]] finds when the row has no own property
    of that name and the name is that of a member of
    [Object.prototype]: the inherited member. *)
Definition inherited_member (data : Row) (name : option json) : option string :=
  match value_of data name with
  | Some _ => None
  | None =>
      if Str.mem (Js.to_String_opt name) Object_prototype_names
      then Some (Js.to_String_opt name)
      else None
  end.

(** [String(member)] for an inherited member: [Object.prototype]
    itself under [__proto__], a built-in function under every other
    name. *)
Definition member_text (member : string) : string :=
  if String.eqb member "__proto__" then "[object Object]"
  else Function_toString member.

(** [url.replace(pattern, member)] for an inherited member.
    [Object.prototype], not callable, is converted to a string.  A
    function is the replacer: it is called, with [undefined] as
    [this] and the match as first argument, only when the pattern
    occurs in [url], and its result replaces the match.
    [constructor] returns the match as an object, [toString] and
    [isPrototypeOf] return without reading [this], every other member
    converts [this] to an object first, which throws. *)
Definition replace_by_member (url pattern member : string) : completion string :=
  if String.eqb member "__proto__"
  then Normal (String_replace url pattern "[object Object]")
  else if Str.contains pattern url then
    if String.eqb member "constructor" then Normal url
    else if String.eqb member "toString"
    then Normal (String_replace url pattern "[object Undefined]")
    else if String.eqb member "isPrototypeOf"
    then Normal (String_replace url pattern "false")
    else Throw (TypeError_message (CalledOnUndefined member))
  else Normal url.

(** Lines 291-298: [url.replace(`{${param.name}}`, data[param.name] || '')]. *)
Definition bind_path (parameters : json) (data : Row) (url : string)
  : completion string :=
  forEach_parameter parameters
    (fun url param =>
       let* loc := Js.get_prop param "in" in
       if Js.is_string loc "path" then
         let* name := Js.get_prop param "name" in
         match inherited_member data name with
         | Some member =>
             replace_by_member url ("{" ++ Js.to_String_opt name ++ "}")%string
               member
         | None =>
             Normal (String_replace url
                       ("{" ++ Js.to_String_opt name ++ "}")%string
                       (Js.to_String (Js.or_else (value_of data name)
                                                 (JStr EmptyString))))
         end
       else Normal url)
    url.

(** Lines 301-308: an inherited member is truthy. *)
Definition query_pairs (parameters : json) (data : Row)
  : completion (list (string * string)) :=
  forEach_parameter parameters
    (fun queryParams param =>
       let* loc := Js.get_prop param "in" in
       if Js.is_string loc "query" then
         let* name := Js.get_prop param "name" in
         match inherited_member data name with
         | Some member =>
             Normal (queryParams ++
                       [(Js.to_String_opt name, member_text member)])
         | None =>
             if Js.truthy_opt (value_of data name) then
               Normal (queryParams ++
                         [(Js.to_String_opt name,
                           Js.to_String_opt (value_of data name))])
             else Normal queryParams
         end
       else Normal queryParams)
    [].

(** Lines 278 and 291-311. *)
Definition request_url (cfg : Config) (endpoint : Endpoint.t) (data : Row)
  : completion string :=
  let url := (Str.drop_last "/"%char (baseUrl cfg) ++ Endpoint.path endpoint)%string in
  let* url := bind_path (Endpoint.parameters endpoint) data url in
  let* qs := query_pairs (Endpoint.parameters endpoint) data in
  let q := URLSearchParams_toString qs in
  Normal (if Str.nonempty q then (url ++ "?" ++ q)%string else url).

(** [endpoint.parameters?.map(p => p.name) || []] (line 316) *)
Definition pathParams (parameters : json) : completion (list (option json)) :=
  match parameters with
  | JNull => Normal []
  | JArr params => mapM (fun p => Js.get_prop p "name") params
  | _ => Throw (TypeError_message (NotAFunction "map"))
  end.

(** Lines 320-324. *)
Definition bodyFields (endpoint : Endpoint.t) (body : json)
  : completion (list string) :=
  let* content := Js.get_prop body "content" in
  let schema := Js.get_opt (Js.get_opt content "application/json") "schema" in
  if Js.truthy_opt schema then
    let* fields := extractFieldsFromSchema schema (Endpoint.definitions endpoint) in
    Normal (map f_name fields)
  else Normal [].

(** The [forEach] of lines 326-330 over [Object.keys(data)]. *)
Definition bodyData (params : list (option json)) (fields : list string)
           (data : Row) : Row :=
  fold_left
    (fun acc k =>
       if negb (Js.includes_key params k)
          && ((List.length fields =? 0)%nat || Str.mem k fields)
       then match JsObject.get data k with
            | Some v => JsObject.assign k v acc
            | None => acc
            end
       else acc)
    (JsObject.keys data) [].

(** The test of line 314. *)
Definition sends_body (endpoint : Endpoint.t) : bool :=
  Str.mem (Endpoint.method endpoint) ["post"; "put"; "patch"]
  && Js.truthy_opt (Endpoint.requestBody endpoint).

(** Lines 313-332: the object handed to [JSON.stringify], if any. *)
Definition request_body (endpoint : Endpoint.t) (data : Row)
  : completion (option Row) :=
  if sends_body endpoint then
    let* params := pathParams (Endpoint.parameters endpoint) in
    let* fields := bodyFields endpoint
                     (Js.or_else (Endpoint.requestBody endpoint) JNull) in
    Normal (Some (bodyData params fields data))
  else Normal None.

(** Lines 278-332: the arguments of [fetch]. *)
Definition prepare (cfg : Config) (endpoint : Endpoint.t) (data : Row)
  : completion (string * RequestOptions) :=
  let* url := request_url cfg endpoint data in
  let* body := request_body endpoint data in
  Normal (url,
          {| opt_method := Str.toUpperCase (Endpoint.method endpoint);
             opt_headers := request_headers cfg;
             opt_body := option_map (fun o => JSON_stringify (JObj o)) body |}).

Definition executeRequest (fetch : Network) (cfg : Config)
           (endpoint : Endpoint.t) (data : Row) : completion Outcome :=
  let* req := prepare cfg endpoint data in
  Normal (settle (fetch (fst req) (snd req))).

End Executor.

(** ** Batch runner (lines 394-418) *)

(** [Math.round]: the integer nearest to [x], a tie going up. *)
Definition Math_round (x : number) : number :=
  match x with
  | S754_finite s m e =>
      if (0 <=? e)%Z then x
      else
        let d := (2 ^ (- e))%Z in
        let n := if s then Z.neg m else Z.pos m in
        let r := ((2 * n + d) / (2 * d))%Z in
        if (r =? 0)%Z then S754_zero s else num_of_Z r
  | _ => x
  end.

(** [Math.round(((i + 1) / batchData.length) * 100)] (line 415) *)
Definition progress_after (i total : nat) : number :=
  Math_round
    (SFmul 53 1024
       (SFdiv 53 1024 (num_of_Z (Z.of_nat i + 1)) (num_of_Z (Z.of_nat total)))
       (num_of_Z 100)).

(** What a run of [runBatchTest] does to the state: the states after
    each completed row, the state it stops in, and the message of the
    error that ended it early, if one did. *)
Record BatchRun : Type := {
  published : list AppState;
  final : AppState;
  rejection : option string
}.

Section Batch.
Context `{Platform}.

(** The value of [_response] (line 410). *)
Definition response_text (result : Outcome) : string :=
  if Js.typeof_object (data result)
  then JSON_stringify (data result)
  else Js.to_String (data result).

(** The object literal of lines 404-411. *)
Definition resultRow (i : nat) (row : Row) (result : Outcome) : Row :=
  JsObject.define "_response" (JStr (response_text result))
    (JsObject.define "_success"
       (JStr (if success result then "PASS" else "FAIL"))
       (JsObject.define "_status" (JNum (num_of_Z (status result)))
          (JsObject.spread row
             (JsObject.define "_rowIndex"
                (JNum (num_of_Z (Z.of_nat i + 1))) [])))).

(** The [for] loop of lines 400-416 from row [i] on; [fetch i] is
    what the network does for row [i]. *)
Fixpoint batch_loop (fetch : nat -> Network) (cfg : Config)
         (endpoint : Endpoint.t) (total : nat) (rows : list Row) (i : nat)
         (results : list Row) (s : AppState) : BatchRun :=
  match rows with
  | [] => {| published := []; final := s; rejection := None |}
  | row :: rest =>
      match executeRequest (fetch i) cfg endpoint row with
      | Throw message =>
          {| published := []; final := s; rejection := Some message |}
      | Normal result =>
          let results' := results ++ [resultRow i row result] in
          let s' := setBatchProgress (progress_after i total)
                      (setBatchResults results' s) in
          let run := batch_loop fetch cfg endpoint total rest (S i) results' s' in
          {| published := s' :: published run;
             final := final run;
             rejection := rejection run |}
      end
  end.

Definition runBatchTest (fetch : nat -> Network) (s : AppState) : BatchRun :=
  match selectedEndpoint s with
  | None => {| published := []; final := s; rejection := None |}
  | Some endpoint =>
      if (List.length (batchData s) =? 0)%nat
      then {| published := []; final := s; rejection := None |}
      else
        let run := batch_loop fetch (config s) endpoint
                     (List.length (batchData s)) (batchData s) 0 []
                     (setBatchResults [] (setBatchRunning true s)) in
        match rejection run with
        | None => {| published := published run;
                     final := setBatchRunning false (final run);
                     rejection := None |}
        | Some _ => run
        end
  end.

(** [downloadBatchResults]: the text of the file, if one is made. *)
Definition downloadBatchResults (s : AppState) : option string :=
  CsvExport.csvContent (batchResults s).

End Batch.

(** ** A host to run the model on examples

    [JSON.parse] is given by the table of the texts the examples use;
    the other functions are plain versions of the host's, enough for
    the values of the examples. *)

Module Sample.
Local Open Scope string_scope.

Definition quote : string := Str.of_char Str.dquote.

Definition quoted (s : string) : string := quote ++ s ++ quote.

Definition parse (table : list (string * json)) (text : string)
  : completion json :=
  match JsObject.get table text with
  | Some v => Normal v
  | None => Throw "Unexpected token in JSON"
  end.

Definition show_Z (z : Z) : string := NilZero.string_of_int (Z.to_int z).

(** The decimal form of a number with an integer value. *)
Definition show_number (x : number) : string :=
  match x with
  | S754_zero _ => "0"
  | S754_infinity s => if s then "-Infinity" else "Infinity"
  | S754_nan => "NaN"
  | S754_finite s m e =>
      let n := if s then Z.neg m else Z.pos m in
      if (0 <=? e)%Z then show_Z (n * 2 ^ e) else show_Z (n / 2 ^ (- e))
  end.

Fixpoint stringify (v : json) : string :=
  match v with
  | JNull => "null"
  | JBool b => if b then "true" else "false"
  | JNum x => show_number x
  | JStr s => quoted s
  | JArr l => "[" ++ Str.join "," (map stringify l) ++ "]"
  | JObj o =>
      "{" ++ Str.join "," (map (fun kv => quoted (fst kv) ++ ":" ++ stringify (snd kv)) o)
          ++ "}"
  end.

(** Replacement of the first occurrence of [pattern]. *)
Fixpoint replace (s pattern replacement : string) : string :=
  if String.prefix pattern s
  then replacement ++ String.substring (String.length pattern)
                        (String.length s - String.length pattern) s
  else match s with
       | EmptyString => EmptyString
       | String c r => String c (replace r pattern replacement)
       end.

Definition query (l : list (string * string)) : string :=
  Str.join "&" (map (fun kv => fst kv ++ "=" ++ snd kv) l).

Definition type_error (k : TypeErrorKind) : string :=
  match k with
  | ReadOfNull p => "Cannot read properties of null (reading '" ++ p ++ "')"
  | KeysOfNull => "Cannot convert undefined or null to object"
  | NotAFunction n => n ++ " is not a function"
  | BodyUnusable => "body stream already read"
  | CalledOnUndefined _ => "Cannot convert undefined or null to object"
  end.

Definition native (name : string) : string :=
  "function " ++ (if String.eqb name "constructor" then "Object" else name)
    ++ "() { [native code] }".

Definition host (table : list (string * json)) : Platform :=
  {| JSON_parse := parse table;
     JSON_stringify := stringify;
     Number_toString := show_number;
     String_replace := replace;
     URLSearchParams_toString := query;
     Function_toString := native;
     TypeError_message := type_error |}.

(** The texts of the examples and their values. *)
Definition spec_without_paths_object : string :=
  "{" ++ quoted "paths" ++ ": 1}".

Definition table : list (string * json) :=
  [ (spec_without_paths_object, JObj [("paths", JNum (num_of_Z 1))]);
    ("{}", JObj []);
    ("null", JNull) ].

Definition platform : Platform := host table.

Definition cfg : Config :=
  {| baseUrl := "https://api.example.com"; token := EmptyString; headers := [] |}.

(** A state holding a catalog built earlier. *)
Definition with_catalog (text : string) : AppState :=
  {| activeTab := manual; specInput := text;
     parsedSpec := Some {| info := None; endpoints := [] |};
     error := EmptyString; config := cfg; manualSearch := EmptyString;
     selectedEndpoint := None; formData := []; manualResponse := None;
     loading := false; batchFile := None; batchData := [];
     batchResults := []; batchProgress := num_of_Z 0;
     batchRunning := false |}.

End Sample.

(** An operation declared under an upper-case method key. *)
Module UpperCase.

Definition schema : json :=
  JObj [("properties", JObj [("name", JObj [("type", JStr "string")])])].

Definition requestBody : json :=
  JObj [("content", JObj [("application/json", JObj [("schema", schema)])])].

Definition operation : json := JObj [("requestBody", requestBody)].

(** A document with one operation, under the method key [POST]. *)
Definition doc : json :=
  JObj [("paths", JObj [("/users", JObj [("POST", operation)])])].

Definition endpoint : Endpoint.t :=
  {| Endpoint.id := "POST-/users";
     Endpoint.path := "/users";
     Endpoint.method := "POST";
     Endpoint.summary := JStr "/users";
     Endpoint.parameters := JArr [];
     Endpoint.requestBody := Some requestBody;
     Endpoint.definitions := None |}.

Definition values : Row := [("name", JStr "Ann")].

End UpperCase.

(** Operations with a JSON body, for the examples of body
    construction. *)
Module Users.

(** A body schema with the fields [name] and [age]. *)
Definition schema : json :=
  JObj [("properties", JObj [("name", JObj [("type", JStr "string")]);
                             ("age", JObj [("type", JStr "number")])])].

Definition requestBody : json :=
  JObj [("content", JObj [("application/json", JObj [("schema", schema)])])].


Definition ann : Row :=
  [("name", JStr "Ann"); ("age", JStr "30"); ("id", JStr "7")].

(** [POST /users] with the query parameter [age]. *)
Definition create_user : Endpoint.t :=
  {| Endpoint.id := "post-/users";
     Endpoint.path := "/users";
     Endpoint.method := "post";
     Endpoint.summary := JStr "/users";
     Endpoint.parameters :=
       JArr [JObj [("name", JStr "age"); ("in", JStr "query")]];
     Endpoint.requestBody := Some requestBody;
     Endpoint.definitions := None |}.

End Users.

(** A document with two paths and five method keys, four of them
    recognized. *)
Module Petstore.

Definition op (summary : string) : json := JObj [("summary", JStr summary)].

Definition paths : list (string * json) :=
  [("/pets", JObj [("get", op "List pets"); ("POST", op "Add a pet");
                   ("parameters", JArr [])]);
   ("/pets/{id}", JObj [("get", op "Show a pet"); ("delete", op "Remove a pet")])].

Definition doc : json :=
  JObj [("info", JObj [("title", JStr "Petstore")]); ("paths", JObj paths)].

End Petstore.

(** Batches for the examples of the batch runner. *)
Module Ping.

(** [GET /ping], without parameters. *)
Definition endpoint : Endpoint.t :=
  {| Endpoint.id := "get-/ping";
     Endpoint.path := "/ping";
     Endpoint.method := "get";
     Endpoint.summary := JStr "/ping";
     Endpoint.parameters := JArr [];
     Endpoint.requestBody := None;
     Endpoint.definitions := None |}.

(** A network on which every call is answered with status 200 and the
    body of an empty object. *)
Definition fetch (i : nat) : Network :=
  fun _ _ => Resolved {| res_status := 200; res_body := Some "{}" |} 5.

(** The state when [runBatchTest] is started on [rows]. *)
Definition loaded (rows : list Row) : AppState :=
  {| activeTab := batch; specInput := EmptyString;
     parsedSpec := Some {| info := None; endpoints := [endpoint] |};
     error := EmptyString; config := Sample.cfg; manualSearch := EmptyString;
     selectedEndpoint := Some endpoint; formData := [];
     manualResponse := None; loading := false;
     batchFile := Some "rows.csv"; batchData := rows;
     batchResults := []; batchProgress := num_of_Z 0;
     batchRunning := false |}.

Definition two_rows : list Row :=
  [[("name", JStr "Ann")]; [("name", JStr "Bob")]].

Definition forty_rows : list Row := repeat [("name", JStr "Ann")] 40.

Definition numbered_rows : list Row :=
  [[("_rowIndex", JStr "7"); ("name", JStr "Ann")]].

(** The descriptor of an operation whose [parameters] member is an
    object where an array is expected. *)
Definition odd_endpoint : Endpoint.t :=
  {| Endpoint.id := "get-/ping";
     Endpoint.path := "/ping";
     Endpoint.method := "get";
     Endpoint.summary := JStr "/ping";
     Endpoint.parameters := JObj [];
     Endpoint.requestBody := None;
     Endpoint.definitions := None |}.

Definition loaded_odd (rows : list Row) : AppState :=
  {| activeTab := batch; specInput := EmptyString;
     parsedSpec := Some {| info := None; endpoints := [odd_endpoint] |};
     error := EmptyString; config := Sample.cfg; manualSearch := EmptyString;
     selectedEndpoint := Some odd_endpoint; formData := [];
     manualResponse := None; loading := false;
     batchFile := Some "rows.csv"; batchData := rows;
     batchResults := []; batchProgress := num_of_Z 0;
     batchRunning := false |}.

End Ping.

(** CSV texts for the examples of the codec. *)
Module People.
Local Open Scope string_scope.

Definition nl : string := Str.of_char Str.newline.

(** Two columns; a quoted cell with a comma, a cell with spaces
    around. *)
Definition text : string :=
  "name,note" ++ nl ++ "Ann," ++ Sample.quoted "a, b" ++ nl ++ " Bob ,x".

Definition rows : list Row :=
  [[("name", JStr "Ann"); ("note", JStr "a, b")];
   [("name", JStr "Bob"); ("note", JStr "x")]].

Definition exported : string :=
  "name,note" ++ nl ++ "Ann," ++ Sample.quoted "a, b" ++ nl ++ "Bob,x".

(** One column whose quoted name holds a comma. *)
Definition comma_in_name : string := Sample.quoted "a,b" ++ nl ++ "1".

(** One column and a row whose only cell is empty. *)
Definition empty_cell : string := "a" ++ nl ++ Sample.quote ++ Sample.quote.

End People.

(** ** Notions the properties are stated with *)

Section Notions.
Context `{Platform}.

(** The outcome of a call that failed before any response could be
    used (lines 353-359). *)
Definition transport_failure (message : string) : Outcome :=
  {| success := false; status := 0; time := 0;
     data := JStr message; isNetworkError := true |}.

(** The import of the text in [specInput] fails with [message]: the
    text is not JSON, or the document has no (truthy) [paths]
    member, or it is [null]. *)
Inductive ImportFailure (s : AppState) : string -> Prop :=
| Malformed (message : string) :
    JSON_parse (specInput s) = Throw message ->
    ImportFailure s message
| MissingPaths (doc : json) (paths : option json) :
    JSON_parse (specInput s) = Normal doc ->
    Js.get_prop doc "paths" = Normal paths ->
    Js.truthy_opt paths = false ->
    ImportFailure s "Invalid OpenAPI/Swagger Spec: Missing 'paths'"
| NullDocument :
    JSON_parse (specInput s) = Normal JNull ->
    ImportFailure s (TypeError_message (ReadOfNull "paths")).

(** The parameters go by names of their own: none is named like a
    member of [Object.prototype], which a row without a value of that
    name would still read as the inherited member. *)
Definition plain_names (parameters : json) : Prop :=
  forall params p,
    parameters = JArr params -> In p params ->
    Str.mem (Js.to_String_opt (Js.get_opt (Some p) "name"))
            Object_prototype_names = false.




(** The test of line 327 on a key of the values. *)
Definition goes_in_body (params : list (option json)) (fields : list string)
           (k : string) : bool :=
  negb (Js.includes_key params k)
  && ((List.length fields =? 0)%nat || Str.mem k fields).

(** The recognized verb set of the specification. *)
Definition verb_set : list string := ["get"; "post"; "put"; "delete"; "patch"].

(** [c] is the small letter [v] of the basic Latin alphabet, or its
    capital. *)
Definition letter_in_either_case (v c : ascii) : bool :=
  Ascii.eqb c v
  || ((97 <=? nat_of_ascii v) && (nat_of_ascii v <=? 122)
      && (nat_of_ascii c + 32 =? nat_of_ascii v))%nat.

(** [m] spells the verb [v], the case of its letters aside. *)
Fixpoint spells (v m : string) : bool :=
  match v, m with
  | EmptyString, EmptyString => true
  | String a v', String c m' => letter_in_either_case a c && spells v' m'
  | _, _ => false
  end.

(** A method key that matches the recognized verb set
    case-insensitively, as the specification puts it. *)
Definition is_verb (m : string) : bool :=
  existsb (fun v => spells v m) verb_set.

(** The (path, method key) pairs of a paths object that the catalog is
    to describe: for every path key, every method key under it that
    matches the recognized verb set case-insensitively, in the order
    of the document. *)
Definition operations (paths : list (string * json)) : list (string * string) :=
  flat_map (fun entry =>
              match snd entry with
              | JObj methods =>
                  map (fun m => (fst entry, m))
                      (filter is_verb (JsObject.keys methods))
              | _ => []
              end) paths.

(** A path item of a valid document: an object with distinct member
    names whose operations, the members under a method key that
    matches the verb set, are objects. *)
Definition valid_path_item (item : json) : Prop :=
  exists methods,
    item = JObj methods
    /\ NoDup (JsObject.keys methods)
    /\ forall m d, In (m, d) methods -> is_verb m = true ->
                   exists o, d = JObj o.

(** A valid specification document with the paths object [paths]. *)
Definition valid_spec (doc : json) (paths : list (string * json)) : Prop :=
  Js.get_prop doc "paths" = Normal (Some (JObj paths))
  /\ NoDup (JsObject.keys paths)
  /\ forall p item, In (p, item) paths -> valid_path_item item.

(** [ep] is the descriptor of the operation [pm], a path and a
    method key. *)
Definition describes (pm : string * string) (ep : Endpoint.t) : Prop :=
  Endpoint.path ep = fst pm
  /\ Endpoint.method ep = snd pm
  /\ Endpoint.id ep = (snd pm ++ "-" ++ fst pm)%string.

(** The result rows of the input rows [rows], numbered from [i], for
    the outcomes [outcomes] of their calls. *)
Fixpoint result_rows (i : nat) (rows : list Row) (outcomes : list Outcome)
  : list Row :=
  match rows, outcomes with
  | row :: rs, o :: os => resultRow i row o :: result_rows (S i) rs os
  | _, _ => []
  end.

(** The integer nearest to [100 * k / n], a tie going up. *)
Definition round_percent (k n : Z) : Z := ((200 * k + n) / (2 * n))%Z.

(** A string without white space at either end. *)
Definition trimmed (s : string) : Prop := Str.trim s = s.

(** The cells [parseCSV] can yield: trimmed, and free of double
    quotes and of newlines. *)
Definition tidy (s : string) : Prop :=
  trimmed s
  /\ Str.includes Str.dquote s = false
  /\ Str.includes Str.newline s = false.

(** The column names of a table: the keys of its first row. *)
Definition columns (rows : list Row) : list string :=
  match rows with
  | first :: _ => JsObject.keys first
  | [] => []
  end.

(** The place of a key in the key order: its index, or the place
    after all indices. *)
Definition rank (k : string) : N :=
  match JsObject.array_index k with
  | Some i => i
  | None => 4294967295%N
  end.

(** The first character is not white space. *)
Definition starts_clean (s : string) : Prop :=
  match s with
  | EmptyString => True
  | String x _ => Str.is_ws x = false
  end.

(** [e] is a text of the cell [v] in a CSV line: [v] itself when it
    has no comma, or [v] between double quotes. *)
Definition cell_text (e v : string) : Prop :=
  (e = v /\ Str.includes Str.comma v = false)
  \/ e = (Str.of_char Str.dquote ++ v ++ Str.of_char Str.dquote)%string.

(** [b] may be listed after [a]. *)
Definition key_order (a b : string) : Prop := JsObject.precedes b a = false.

(** A list of keys in [[OwnPropertyKeys]] order, without repetition. *)
Definition canonical (ks : list string) : Prop :=
  StronglySorted key_order ks /\ NoDup ks.

(** A row as [parseCSV] builds them: its keys are in order, tidy and
    other than [__proto__], and its values are tidy strings. *)
Definition parsed_row (row : Row) : Prop :=
  canonical (JsObject.keys row)
  /\ ~ In "__proto__" (JsObject.keys row)
  /\ Forall (fun kv => tidy (fst kv) /\ exists v, snd kv = JStr v /\ tidy v) row.

End Notions.

(** ** The other handlers and the render helpers of the component *)

Definition setSelectedEndpoint (x : option Endpoint.t) (s : AppState) : AppState :=
  {| activeTab := activeTab s; specInput := specInput s;
     parsedSpec := parsedSpec s;
     error := error s; config := config s; manualSearch := manualSearch s;
     selectedEndpoint := x; formData := formData s;
     manualResponse := manualResponse s; loading := loading s;
     batchFile := batchFile s; batchData := batchData s;
     batchResults := batchResults s; batchProgress := batchProgress s;
     batchRunning := batchRunning s |}.

Definition setManualResponse (x : option Outcome) (s : AppState) : AppState :=
  {| activeTab := activeTab s; specInput := specInput s;
     parsedSpec := parsedSpec s;
     error := error s; config := config s; manualSearch := manualSearch s;
     selectedEndpoint := selectedEndpoint s; formData := formData s;
     manualResponse := x; loading := loading s;
     batchFile := batchFile s; batchData := batchData s;
     batchResults := batchResults s; batchProgress := batchProgress s;
     batchRunning := batchRunning s |}.

Definition setFormData (x : Row) (s : AppState) : AppState :=
  {| activeTab := activeTab s; specInput := specInput s;
     parsedSpec := parsedSpec s;
     error := error s; config := config s; manualSearch := manualSearch s;
     selectedEndpoint := selectedEndpoint s; formData := x;
     manualResponse := manualResponse s; loading := loading s;
     batchFile := batchFile s; batchData := batchData s;
     batchResults := batchResults s; batchProgress := batchProgress s;
     batchRunning := batchRunning s |}.

Definition setBatchFile (x : option string) (s : AppState) : AppState :=
  {| activeTab := activeTab s; specInput := specInput s;
     parsedSpec := parsedSpec s;
     error := error s; config := config s; manualSearch := manualSearch s;
     selectedEndpoint := selectedEndpoint s; formData := formData s;
     manualResponse := manualResponse s; loading := loading s;
     batchFile := x; batchData := batchData s;
     batchResults := batchResults s; batchProgress := batchProgress s;
     batchRunning := batchRunning s |}.

Definition setBatchData (x : list Row) (s : AppState) : AppState :=
  {| activeTab := activeTab s; specInput := specInput s;
     parsedSpec := parsedSpec s;
     error := error s; config := config s; manualSearch := manualSearch s;
     selectedEndpoint := selectedEndpoint s; formData := formData s;
     manualResponse := manualResponse s; loading := loading s;
     batchFile := batchFile s; batchData := x;
     batchResults := batchResults s; batchProgress := batchProgress s;
     batchRunning := batchRunning s |}.

(** Lines 271-275; [None] is [undefined], as [find] returns it. *)
Definition handleSelectEndpoint (ep : option Endpoint.t) (s : AppState) : AppState :=
  setFormData [] (setManualResponse None (setSelectedEndpoint ep s)).

(** [endpoints.find(ep => ep.id === id)] (line 794) *)
Definition findEndpoint (id : string) (endpoints : list Endpoint.t)
  : option Endpoint.t :=
  find (fun ep => String.eqb (Endpoint.id ep) id) endpoints.

(** The [onChange] of the endpoint selector (line 794), called with
    the [value] of an option, the id of an endpoint of the catalog.
    The selector has no option without a catalog. *)
Definition selectOption (id : string) (s : AppState) : AppState :=
  match parsedSpec s with
  | Some spec => handleSelectEndpoint (findEndpoint id (endpoints spec)) s
  | None => s
  end.

(** Lines 371-384, once the file (its name and its text) is read;
    [None] when no file was chosen. *)
Definition handleBatchUpload (file : option (string * string)) (s : AppState)
  : AppState :=
  match file with
  | Some (name, text) =>
      setBatchResults []
        (setBatchData (Csv.parseCSV text) (setBatchFile (Some name) s))
  | None => s
  end.

(** The header of the last entry with key [k] in the list of the
    configuration, if there is one. *)
Fixpoint header_value (k : string) (hs : list Header) : option string :=
  match hs with
  | [] => None
  | h :: r =>
      match header_value k r with
      | Some v => Some v
      | None => if String.eqb k (key h) then Some (value h) else None
      end
  end.

(** A string without its double quotes. *)
Fixpoint remove_quotes (s : string) : string :=
  match s with
  | EmptyString => EmptyString
  | String c r =>
      if Ascii.eqb c Str.dquote then remove_quotes r
      else String c (remove_quotes r)
  end.

(** [Badge] (lines 106-119): the colour classes of the methods. *)
Definition badge_colors : JsObject.t string :=
  [("get", "bg-blue-100 text-blue-700");
   ("post", "bg-green-100 text-green-700");
   ("put", "bg-orange-100 text-orange-700");
   ("delete", "bg-red-100 text-red-700");
   ("patch", "bg-yellow-100 text-yellow-700")].

(** [colors[method.toLowerCase()] || 'bg-slate-100'] (line 115);
    [None] when the key names an inherited member of [colors], whose
    text is the host's. *)
Definition badge_class (method : string) : option string :=
  match JsObject.get badge_colors (Str.toLowerCase method) with
  | Some c => Some (if Str.nonempty c then c else "bg-slate-100")
  | None =>
      if Str.mem (Str.toLowerCase method) Object_prototype_names then None
      else Some "bg-slate-100"
  end.

(** [text.toLowerCase().includes(search.toLowerCase())] *)
Definition lower_includes (text search : string) : bool :=
  Str.contains (Str.toLowerCase search) (Str.toLowerCase text).

(** The test of line 683, under which the list says that no endpoint
    was found: it looks at the paths only. *)
Definition noEndpointsFound (search : string) (endpoints : list Endpoint.t)
  : bool :=
  (List.length
     (filter (fun ep => lower_includes (Endpoint.path ep) search) endpoints)
   =? 0)%nat.

Section Rendering.
Context `{Platform}.

(** [String(val)] as [escapeCsv] takes it, the empty string for
    [null] and [undefined]. *)
Definition exported_string (val : option json) : string :=
  match val with
  | None | Some JNull => EmptyString
  | Some v => Js.to_String v
  end.

(** The filter of the endpoint list (line 672) and of the options of
    the selector (lines 137-140, with the path as label and the
    summary as sublabel): the summary is read only when the path does
    not match, and its [toLowerCase] exists only on a string. *)
Definition search_match (search : string) (ep : Endpoint.t) : completion bool :=
  if lower_includes (Endpoint.path ep) search then Normal true
  else match Endpoint.summary ep with
       | JStr summary => Normal (lower_includes summary search)
       | _ => Throw (TypeError_message (NotAFunction "toLowerCase"))
       end.

(** [endpoints.filter(...)] with that test. *)
Fixpoint filterEndpoints (search : string) (endpoints : list Endpoint.t)
  : completion (list Endpoint.t) :=
  match endpoints with
  | [] => Normal []
  | ep :: r =>
      let* keep := search_match search ep in
      let* rest := filterEndpoints search r in
      Normal (if keep then ep :: rest else rest)
  end.

(** An entry of [fields] in [renderEndpointFields] (lines 471-477,
    483-489 and 499-506). *)
Record FormField : Type := {
  ff_name : option json;
  ff_label : string;
  ff_required : json;
  ff_type : string;
  ff_desc : option json;
  ff_isBody : bool
}.

(** [ep.parameters?.forEach(callback)] *)
Definition forEach_optional {A : Type} (parameters : json)
           (callback : A -> json -> completion A) (a : A) : completion A :=
  match parameters with
  | JNull => Normal a
  | JArr params => foldM callback params a
  | _ => Throw (TypeError_message (NotAFunction "forEach"))
  end.

(** The callback of lines 470-478: every parameter, whatever its
    location, gives a field labelled as a path parameter. *)
Definition push_parameter (fields : list FormField) (p : json)
  : completion (list FormField) :=
  let* name := Js.get_prop p "name" in
  let* required := Js.get_prop p "required" in
  let* loc := Js.get_prop p "in" in
  let* desc := Js.get_prop p "description" in
  Normal (fields ++
            [{| ff_name := name;
                ff_label := (Js.to_String_opt name ++ " (Path)")%string;
                ff_required := Js.or_else required (JBool (Js.is_string loc "path"));
                ff_type := "text";
                ff_desc := desc;
                ff_isBody := false |}]).

(** The callback of lines 481-491. *)
Definition push_query (fields : list FormField) (p : json)
  : completion (list FormField) :=
  let* loc := Js.get_prop p "in" in
  if Js.is_string loc "query" then
    let* name := Js.get_prop p "name" in
    let* required := Js.get_prop p "required" in
    let* desc := Js.get_prop p "description" in
    Normal (fields ++
              [{| ff_name := name;
                  ff_label := (Js.to_String_opt name ++ " (Query)")%string;
                  ff_required := Js.or_else required (JBool false);
                  ff_type := "text";
                  ff_desc := desc;
                  ff_isBody := false |}])
  else Normal fields.

(** The entry of lines 499-506 for a body field. *)
Definition body_input (f : Field) : FormField :=
  {| ff_name := Some (JStr (f_name f));
     ff_label := f_name f;
     ff_required := JBool (f_required f);
     ff_type := if Js.is_string (Some (f_type f)) "integer" then "number" else "text";
     ff_desc := Some (f_description f);
     ff_isBody := true |}.

(** Lines 493-509. *)
Definition push_body (ep : Endpoint.t) (fields : list FormField)
  : completion (list FormField) :=
  if sends_body ep then
    let* content := Js.get_prop (Js.or_else (Endpoint.requestBody ep) JNull)
                      "content" in
    let schema := Js.get_opt (Js.get_opt content "application/json") "schema" in
    if Js.truthy_opt schema then
      let* bodyFields := extractFieldsFromSchema schema (Endpoint.definitions ep) in
      Normal (fields ++ map body_input bodyFields)
    else Normal fields
  else Normal fields.

(** The list [fields] of [renderEndpointFields] (lines 466-509). *)
Definition endpointFields (ep : Endpoint.t) : completion (list FormField) :=
  let* fields := forEach_optional (Endpoint.parameters ep) push_parameter [] in
  let* fields := forEach_optional (Endpoint.parameters ep) push_query fields in
  push_body ep fields.

End Rendering.

(** ** Further examples *)

(** A catalog of orders, for the examples of the flattener, of the
    form and of the import. *)
Module Orders.
Local Open Scope string_scope.

(** Two columns and a data line with one cell. *)
Definition ragged : string := "a,b" ++ People.nl ++ "1".

(** The definition [Order], with a required [id] and a [note]
    without type. *)
Definition order : list (string * json) :=
  [("properties", JObj [("id", JObj [("type", JStr "integer")]);
                        ("note", JObj [])]);
   ("required", JArr [JStr "id"])].

Definition definitions : list (string * json) := [("Order", JObj order)].

Definition by_reference : list (string * json) :=
  [("$ref", JStr "#/definitions/Order")].

Definition dangling : list (string * json) :=
  [("$ref", JStr "#/definitions/Missing")].

(** A document whose second path item is [null]. *)
Definition broken_doc : json :=
  JObj [("paths", JObj [("/orders", JObj [("get", Petstore.op "List orders")]);
                        ("/drafts", JNull)])].

Definition broken_text : string := "{ paths: { /orders, /drafts: null } }".

Definition platform : Platform := Sample.host [(broken_text, broken_doc)].

(** The catalog of the petstore document, and a state that holds
    it. *)
Definition catalog : ParsedSpec :=
  match buildCatalog (H := Sample.platform) Petstore.doc with
  | Normal spec => spec
  | Throw _ => {| info := None; endpoints := [] |}
  end.

Definition add_a_pet : Endpoint.t :=
  {| Endpoint.id := "POST-/pets";
     Endpoint.path := "/pets";
     Endpoint.method := "POST";
     Endpoint.summary := JStr "Add a pet";
     Endpoint.parameters := JArr [];
     Endpoint.requestBody := None;
     Endpoint.definitions := None |}.

Definition loaded : AppState :=
  {| activeTab := manual; specInput := EmptyString;
     parsedSpec := Some catalog;
     error := EmptyString; config := Sample.cfg; manualSearch := EmptyString;
     selectedEndpoint := Some Ping.endpoint;
     formData := [("name", JStr "Ann")];
     manualResponse := Some (transport_failure "Failed to fetch");
     loading := false; batchFile := None; batchData := [];
     batchResults := []; batchProgress := num_of_Z 0;
     batchRunning := false |}.

(** [GET /orders/{id}] with [null] among its parameters. *)
Definition holed : Endpoint.t :=
  {| Endpoint.id := "get-/orders/{id}";
     Endpoint.path := "/orders/{id}";
     Endpoint.method := "get";
     Endpoint.summary := JStr "Show an order";
     Endpoint.parameters :=
       JArr [JObj [("name", JStr "id"); ("in", JStr "path")]; JNull];
     Endpoint.requestBody := None;
     Endpoint.definitions := None |}.

(** The state when a batch is started on [rows] for that endpoint. *)
Definition loaded_holed (rows : list Row) : AppState :=
  {| activeTab := batch; specInput := EmptyString;
     parsedSpec := Some {| info := None; endpoints := [holed] |};
     error := EmptyString; config := Sample.cfg; manualSearch := EmptyString;
     selectedEndpoint := Some holed; formData := [];
     manualResponse := None; loading := false;
     batchFile := Some "rows.csv"; batchData := rows;
     batchResults := []; batchProgress := num_of_Z 0;
     batchRunning := false |}.

(** [GET /x/{a}] with the path parameters [a] and [valueOf], and the
    query parameter [constructor]. *)
Definition shadowed : Endpoint.t :=
  {| Endpoint.id := "get-/x/{a}";
     Endpoint.path := "/x/{a}";
     Endpoint.method := "get";
     Endpoint.summary := JStr "/x/{a}";
     Endpoint.parameters :=
       JArr [JObj [("name", JStr "a"); ("in", JStr "path")];
             JObj [("name", JStr "valueOf"); ("in", JStr "path")];
             JObj [("name", JStr "constructor"); ("in", JStr "query")]];
     Endpoint.requestBody := None;
     Endpoint.definitions := None |}.

(** [GET /orders/{id}] with a header parameter beside the path
    parameter. *)
Definition trace : json := JObj [("name", JStr "X-Trace"); ("in", JStr "header")].

Definition traced : Endpoint.t :=
  {| Endpoint.id := "get-/orders/{id}";
     Endpoint.path := "/orders/{id}";
     Endpoint.method := "get";
     Endpoint.summary := JStr "Show an order";
     Endpoint.parameters :=
       JArr [trace; JObj [("name", JStr "id"); ("in", JStr "path")]];
     Endpoint.requestBody := None;
     Endpoint.definitions := None |}.

End Orders.

(** * Properties *)

(** ** Reading an object after a write *)

Section ObjectFacts.
Context {V : Type}.
Implicit Types (o src : JsObject.t V) (k : string) (v : V).

Lemma has_false_get o k : JsObject.has o k = false -> JsObject.get o k = None.
Proof.
  unfold JsObject.has. destruct (JsObject.get o k); [discriminate | reflexivity].
Qed.

Lemma get_update o k v k' :
  JsObject.get (JsObject.update k v o) k' =
  if String.eqb k' k
  then (if JsObject.has o k then Some v else None)
  else JsObject.get o k'.
Proof.
  induction o as [|[k0 v0] r IH]; simpl.
  - destruct (String.eqb k' k); reflexivity.
  - unfold JsObject.has in *. simpl.
    destruct (String.eqb k k0) eqn:E0; simpl.
    + apply String.eqb_eq in E0. subst k0.
      destruct (String.eqb k' k); reflexivity.
    + destruct (String.eqb k' k0) eqn:E1.
      * apply String.eqb_eq in E1. subst k0.
        rewrite String.eqb_sym in E0. rewrite E0. reflexivity.
      * apply IH.
Qed.

Lemma get_insert o k v k' :
  JsObject.has o k = false ->
  JsObject.get (JsObject.insert k v o) k' =
  if String.eqb k' k then Some v else JsObject.get o k'.
Proof.
  induction o as [|[k0 v0] r IH]; simpl; intros Hno.
  - reflexivity.
  - unfold JsObject.has in Hno. simpl in Hno.
    destruct (String.eqb k k0) eqn:E0; [discriminate|].
    destruct (JsObject.precedes k k0); simpl.
    + reflexivity.
    + destruct (String.eqb k' k0) eqn:E1.
      * apply String.eqb_eq in E1. subst k0.
        rewrite String.eqb_sym in E0. rewrite E0. reflexivity.
      * apply IH. exact Hno.
Qed.

Lemma get_define o k v k' :
  JsObject.get (JsObject.define k v o) k' =
  if String.eqb k' k then Some v else JsObject.get o k'.
Proof.
  unfold JsObject.define. destruct (JsObject.has o k) eqn:E.
  - rewrite get_update, E. reflexivity.
  - apply get_insert. exact E.
Qed.

Lemma get_assign o k v k' :
  JsObject.get (JsObject.assign k v o) k' =
  if String.eqb k' k && negb (String.eqb k "__proto__")
  then Some v else JsObject.get o k'.
Proof.
  unfold JsObject.assign. destruct (String.eqb k "__proto__"); simpl.
  - rewrite andb_false_r. reflexivity.
  - rewrite andb_true_r. apply get_define.
Qed.

Lemma has_keys o k :
  JsObject.has o k = existsb (String.eqb k) (JsObject.keys o).
Proof.
  unfold JsObject.has.
  induction o as [|[k0 v0] r IH]; simpl; [reflexivity|].
  destruct (String.eqb k k0); simpl; [reflexivity | exact IH].
Qed.

(** The loop of a spread over the keys [ks] still to copy. *)
Lemma get_spread_loop src ks o k :
  JsObject.get
    (fold_left (fun acc k0 => match JsObject.get src k0 with
                              | Some v => JsObject.define k0 v acc
                              | None => acc
                              end) ks o) k =
  if existsb (String.eqb k) ks
  then match JsObject.get src k with
       | Some v => Some v
       | None => JsObject.get o k
       end
  else JsObject.get o k.
Proof.
  revert o. induction ks as [|k0 ks IH]; intros o; simpl; [reflexivity|].
  rewrite IH. clear IH.
  destruct (String.eqb k k0) eqn:E0; simpl.
  - apply String.eqb_eq in E0. subst k0.
    destruct (JsObject.get src k) as [v|] eqn:Ev.
    + destruct (existsb (String.eqb k) ks); [reflexivity|].
      rewrite get_define, String.eqb_refl. reflexivity.
    + destruct (existsb (String.eqb k) ks); reflexivity.
  - destruct (JsObject.get src k0) as [v0|]; [|reflexivity].
    rewrite get_define, E0. reflexivity.
Qed.

Lemma get_spread src o k :
  JsObject.get (JsObject.spread src o) k =
  match JsObject.get src k with
  | Some v => Some v
  | None => JsObject.get o k
  end.
Proof.
  unfold JsObject.spread. rewrite get_spread_loop, <- has_keys.
  destruct (JsObject.has src k) eqn:E; [reflexivity|].
  rewrite (has_false_get _ _ E). reflexivity.
Qed.

End ObjectFacts.

(** ** Result rows (C10) *)

Section ResultRows.
Context `{Platform}.

(** The value a result row has under each key. *)
Lemma get_resultRow (i : nat) (row : Row) (result : Outcome) (k : string) :
  JsObject.get (resultRow i row result) k =
  if String.eqb k "_response" then Some (JStr (response_text result))
  else if String.eqb k "_success"
       then Some (JStr (if success result then "PASS" else "FAIL"))
  else if String.eqb k "_status" then Some (JNum (num_of_Z (status result)))
  else match JsObject.get row k with
       | Some v => Some v
       | None => if String.eqb k "_rowIndex"
                 then Some (JNum (num_of_Z (Z.of_nat i + 1)))
                 else None
       end.
Proof.
  unfold resultRow.
  rewrite !get_define, get_spread, get_define. simpl.
  destruct (String.eqb k "_response"); [reflexivity|].
  destruct (String.eqb k "_success"); [reflexivity|].
  destruct (String.eqb k "_status"); [reflexivity|].
  reflexivity.
Qed.

(** C10 (amended).  A result row holds the outcome under [_status],
    [_success] and [_response], whatever the CSV row had there; every
    other column of the CSV row is kept with its value, and this
    includes a column named [_rowIndex], which takes the place of the
    row number; the row number is stored under [_rowIndex] only when
    the CSV row has no such column. *)
Theorem result_row_columns (i : nat) (row : Row) (result : Outcome) :
  JsObject.get (resultRow i row result) "_status"
    = Some (JNum (num_of_Z (status result)))
  /\ JsObject.get (resultRow i row result) "_success"
    = Some (JStr (if success result then "PASS" else "FAIL"))
  /\ JsObject.get (resultRow i row result) "_response"
    = Some (JStr (response_text result))
  /\ JsObject.get (resultRow i row result) "_rowIndex"
    = match JsObject.get row "_rowIndex" with
      | Some v => Some v
      | None => Some (JNum (num_of_Z (Z.of_nat i + 1)))
      end
  /\ forall k : string,
      k <> "_rowIndex" -> k <> "_status" -> k <> "_success" ->
      k <> "_response" ->
      JsObject.get (resultRow i row result) k = JsObject.get row k.
Proof.
  repeat split; try (rewrite get_resultRow; reflexivity).
  intros k H1 H2 H3 H4. rewrite get_resultRow.
  apply String.eqb_neq in H1, H2, H3, H4. rewrite H1, H2, H3, H4.
  destruct (JsObject.get row k); reflexivity.
Qed.

End ResultRows.

Lemma result_row_columns_witness :
  JsObject.get
    (resultRow (H := Sample.platform) 0
       [("name", JStr "Ann"); ("_status", JStr "old")]
       (settle (H := Sample.platform) (Rejected "Failed to fetch"))) "name"
  = Some (JStr "Ann")
  /\ JsObject.get
       (resultRow (H := Sample.platform) 0
          [("name", JStr "Ann"); ("_status", JStr "old")]
          (settle (H := Sample.platform) (Rejected "Failed to fetch"))) "_status"
     = Some (JNum (num_of_Z 0)).
Proof.
  pose proof (result_row_columns (H := Sample.platform) 0
                [("name", JStr "Ann"); ("_status", JStr "old")]
                (settle (H := Sample.platform) (Rejected "Failed to fetch")))
    as [Hstatus [_ [_ [_ Hother]]]].
  split.
  - rewrite (Hother "name"); [reflexivity | | | |]; discriminate.
  - exact Hstatus.
Defined.

(** C10, as stated, fails: a CSV column named [_rowIndex] is not
    overwritten by the row number; its value replaces the number. *)
Lemma rowIndex_column_not_overwritten :
  let row : Row := [("_rowIndex", JStr "x"); ("name", JStr "Ann")] in
  let result := settle (H := Sample.platform) (Rejected "Failed to fetch") in
  JsObject.get (resultRow (H := Sample.platform) 0 row result) "_rowIndex"
    = Some (JStr "x")
  /\ JsObject.get (resultRow (H := Sample.platform) 0 row result) "_rowIndex"
    <> Some (JNum (num_of_Z 1)).
Proof.
  split; [reflexivity | discriminate].
Qed.

(** ** Quotes in [parseLine] (C2) *)

(** C2.  The line made of the one quoted cell [a""b] (a doubled quote
    inside quoted content) parses to the cell [ab]: the doubled quote
    leaves no quote character in the value, where the claim has one. *)
Theorem parseLine_doubled_quote_dropped :
  Csv.parseLine (Sample.quoted ("a" ++ Sample.quote ++ Sample.quote ++ "b"))
    = ["ab"]
  /\ Csv.parseLine (Sample.quoted ("a" ++ Sample.quote ++ Sample.quote ++ "b"))
    <> ["a" ++ Sample.quote ++ "b"]%string.
Proof.
  split; [reflexivity | discriminate].
Qed.

(** ** The body of a request and the spelling of the method (C3) *)


Section BodyAndMethod.
Context `{Platform}.

(** No body is built unless the method is spelled [post], [put] or
    [patch]. *)
Lemma no_body_for_other_methods (endpoint : Endpoint.t) (data : Row) :
  Str.mem (Endpoint.method endpoint) ["post"; "put"; "patch"] = false ->
  request_body endpoint data = Normal None.
Proof.
  intros Hm. unfold request_body, sends_body. rewrite Hm. reflexivity.
Qed.

(** No body is built without a (truthy) [requestBody]. *)
Lemma no_body_without_requestBody (endpoint : Endpoint.t) (data : Row) :
  Js.truthy_opt (Endpoint.requestBody endpoint) = false ->
  request_body endpoint data = Normal None.
Proof.
  intros Hb. unfold request_body, sends_body. rewrite Hb, andb_false_r.
  reflexivity.
Qed.

(** With a lower-case method among the three and a [requestBody], a
    body is built whenever the schema can be read. *)
Lemma body_for_lower_case_method (endpoint : Endpoint.t) (data : Row)
      (params : list (option json)) (fields : list string) :
  Str.mem (Endpoint.method endpoint) ["post"; "put"; "patch"] = true ->
  Js.truthy_opt (Endpoint.requestBody endpoint) = true ->
  pathParams (Endpoint.parameters endpoint) = Normal params ->
  bodyFields endpoint (Js.or_else (Endpoint.requestBody endpoint) JNull)
    = Normal fields ->
  request_body endpoint data = Normal (Some (bodyData params fields data)).
Proof.
  intros Hm Hb Hp Hf. unfold request_body, sends_body.
  rewrite Hm, Hb, Hp. simpl. rewrite Hf. reflexivity.
Qed.

End BodyAndMethod.

(** C3.  The catalog builder accepts the method key [POST] and keeps
    its spelling; for the endpoint it builds, with a request-body
    schema, the request is sent with method [POST] and without a body,
    where the claim has a JSON body attached. *)
Theorem uppercase_method_sends_no_body :
  buildCatalog (H := Sample.platform) UpperCase.doc
    = Normal {| info := None; endpoints := [UpperCase.endpoint] |}
  /\ prepare (H := Sample.platform) Sample.cfg UpperCase.endpoint UpperCase.values
    = Normal ("https://api.example.com/users",
              {| opt_method := "POST";
                 opt_headers := [("Content-Type", "application/json")];
                 opt_body := None |}).
Proof.
  split; reflexivity.
Qed.

(** ** Outcomes (C5, C6) *)

Section Outcomes.
Context `{Platform}.

Lemma res_ok_range (res : Response) :
  res_ok res = true <-> (200 <= res_status res <= 299)%Z.
Proof.
  unfold res_ok. rewrite andb_true_iff, !Z.leb_le. tauto.
Qed.

(** A call that gets no response. *)
Lemma settle_rejected (message : string) :
  settle (Rejected message) = transport_failure message.
Proof. reflexivity. Qed.

(** A response whose body is JSON. *)
Lemma settle_json (res : Response) (elapsed : Z) (b : string) (v : json) :
  res_body res = Some b ->
  JSON_parse b = Normal v ->
  settle (Resolved res elapsed) =
  {| success := res_ok res; status := res_status res; time := elapsed;
     data := v; isNetworkError := false |}.
Proof.
  intros Hb Hv. unfold settle, read_body, Response_json, unusable.
  rewrite Hb, Hv. reflexivity.
Qed.

(** A response with a null body: [json()] fails on the empty text
    and [text()] succeeds, for nothing was read. *)
Lemma settle_null_body (res : Response) (elapsed : Z) (m : string) :
  res_body res = None ->
  JSON_parse EmptyString = Throw m ->
  settle (Resolved res elapsed) =
  {| success := res_ok res; status := res_status res; time := elapsed;
     data := JStr EmptyString; isNetworkError := false |}.
Proof.
  intros Hb Hm.
  unfold settle, read_body, Response_json, Response_text, unusable.
  rewrite Hb, Hm. simpl. rewrite ?Hb. reflexivity.
Qed.

(** A response with a body that is not JSON: [json()] has read the
    body, so [text()] throws in the [catch] of line 342, and the
    outer [catch] reports a transport failure. *)
Lemma settle_text_lost (res : Response) (elapsed : Z) (b m : string) :
  res_body res = Some b ->
  JSON_parse b = Throw m ->
  settle (Resolved res elapsed) =
  transport_failure (TypeError_message BodyUnusable).
Proof.
  intros Hb Hm.
  unfold settle, read_body, Response_json, Response_text, unusable.
  rewrite Hb, Hm. simpl. rewrite ?Hb. reflexivity.
Qed.

(** On every outcome, [success] holds exactly when the reported
    status is in the range 200-299. *)
Lemma success_iff_status_ok (r : FetchResult) :
  success (settle r) = true <-> (200 <= status (settle r) <= 299)%Z.
Proof.
  destruct r as [message | res elapsed]; simpl.
  - split; [discriminate | lia].
  - destruct (read_body res); simpl.
    + apply res_ok_range.
    + split; [discriminate | lia].
Qed.

End Outcomes.

(** C5.  A response with status 200 and the plain-text body [pong]:
    the outcome is the one of a transport failure, with the message of
    the TypeError of [text()] as its data, where the claim has the raw
    text [pong] returned and no transport failure. *)
Theorem unparsable_body_reported_as_transport_failure :
  settle (H := Sample.platform)
    (Resolved {| res_status := 200; res_body := Some "pong" |} 35)
  = {| success := false; status := 0; time := 0;
       data := JStr "body stream already read"; isNetworkError := true |}.
Proof. reflexivity. Qed.

(** C6.  A response with status 404 and the body [Not Found]: the
    outcome has status 0 and the transport-error flag set, where the
    claim has status 404 and the flag unset. *)
Theorem not_found_page_reported_with_status_0 :
  let outcome := settle (H := Sample.platform)
                   (Resolved {| res_status := 404; res_body := Some "Not Found" |} 20) in
  status outcome = 0%Z /\ success outcome = false /\ isNetworkError outcome = true.
Proof. repeat split. Qed.

(** ** Import of a specification (C8) *)

Section SpecImport.
Context `{Platform}.

(** C8 (amended).  When the text is not JSON, or the document is
    [null] or has no truthy [paths] member, the import only stores
    the message of the error in [error]: the catalog, the selected
    endpoint and every other cell of the state stay as they were. *)
Theorem failed_import_keeps_state (s : AppState) (message : string) :
  ImportFailure s message ->
  handleSpecParse s = setError message s
  /\ parsedSpec (handleSpecParse s) = parsedSpec s
  /\ selectedEndpoint (handleSpecParse s) = selectedEndpoint s
  /\ error (handleSpecParse s) = message.
Proof.
  intros Hf.
  assert (E : handleSpecParse s = setError message s).
  { unfold handleSpecParse.
    destruct Hf as [m Hm | doc paths Hd Hp Ht | Hd].
    - rewrite Hm. reflexivity.
    - rewrite Hd. simpl. unfold buildCatalog. rewrite Hp. simpl.
      rewrite Ht. reflexivity.
    - rewrite Hd. reflexivity. }
  rewrite E. repeat split.
Qed.

(** An import either commits a whole catalog or leaves the state
    with a message: there is no state in between. *)
Lemma import_all_or_nothing (s : AppState) :
  (exists spec, handleSpecParse s =
                setActiveTab manual
                  (setError EmptyString (setParsedSpec (Some spec) s)))
  \/ (exists message, handleSpecParse s = setError message s).
Proof.
  unfold handleSpecParse.
  destruct (let* doc := JSON_parse (specInput s) in buildCatalog doc); eauto.
Qed.

End SpecImport.

Lemma failed_import_keeps_state_witness :
  ImportFailure (H := Sample.platform) (Sample.with_catalog "{ paths: ")
                "Unexpected token in JSON"
  /\ handleSpecParse (H := Sample.platform) (Sample.with_catalog "{ paths: ")
     = setError "Unexpected token in JSON" (Sample.with_catalog "{ paths: ").
Proof.
  assert (Hf : ImportFailure (H := Sample.platform)
                 (Sample.with_catalog "{ paths: ") "Unexpected token in JSON").
  { apply Malformed. reflexivity. }
  split; [exact Hf|].
  exact (proj1 (failed_import_keeps_state (H := Sample.platform) _ _ Hf)).
Defined.

(** C8, as stated, fails: the document whose [paths] member is the
    number 1 has no paths object, yet its import succeeds and replaces
    the catalog held before by an empty one. *)
Lemma import_of_non_object_paths_succeeds :
  let s := {| activeTab := manual; specInput := Sample.spec_without_paths_object;
              parsedSpec := Some {| info := None;
                                    endpoints := [UpperCase.endpoint] |};
              error := EmptyString; config := Sample.cfg;
              manualSearch := EmptyString;
              selectedEndpoint := Some UpperCase.endpoint; formData := [];
              manualResponse := None; loading := false; batchFile := None;
              batchData := []; batchResults := [];
              batchProgress := num_of_Z 0; batchRunning := false |} in
  JSON_parse (Platform := Sample.platform) (specInput s)
    = Normal (JObj [("paths", JNum (num_of_Z 1))])
  /\ error (handleSpecParse (H := Sample.platform) s) = EmptyString
  /\ parsedSpec (handleSpecParse (H := Sample.platform) s)
     = Some {| info := None; endpoints := [] |}
  /\ parsedSpec (handleSpecParse (H := Sample.platform) s) <> parsedSpec s.
Proof.
  repeat split. discriminate.
Qed.

(** ** The keys of a request body (C4) *)

Section BodyKeys.
Context `{Platform}.

(** The loop of lines 326-330 over the keys [ks] still to visit. *)
Lemma get_body_loop (params : list (option json)) (fields : list string)
      (data : Row) (ks : list string) (acc : Row) (k : string) :
  JsObject.get
    (fold_left
       (fun acc k0 =>
          if negb (Js.includes_key params k0)
             && ((List.length fields =? 0)%nat || Str.mem k0 fields)
          then match JsObject.get data k0 with
               | Some v => JsObject.assign k0 v acc
               | None => acc
               end
          else acc) ks acc) k =
  if existsb (String.eqb k) ks && goes_in_body params fields k
     && negb (String.eqb k "__proto__")
  then match JsObject.get data k with
       | Some v => Some v
       | None => JsObject.get acc k
       end
  else JsObject.get acc k.
Proof.
  revert acc. induction ks as [|k0 ks IH]; intros acc; simpl; [reflexivity|].
  rewrite IH. clear IH. unfold goes_in_body.
  destruct (String.eqb k k0) eqn:E0; simpl.
  - apply String.eqb_eq in E0. subst k0.
    destruct (negb (Js.includes_key params k)
              && ((List.length fields =? 0)%nat || Str.mem k fields)) eqn:Ec;
      simpl.
    + destruct (JsObject.get data k) as [v|] eqn:Ev.
      * rewrite get_assign, String.eqb_refl. simpl.
        destruct (String.eqb k "__proto__"); simpl.
        -- rewrite !andb_false_r. reflexivity.
        -- rewrite !andb_true_r.
           destruct (existsb (String.eqb k) ks); reflexivity.
      * rewrite !andb_true_r. simpl.
        destruct (existsb (String.eqb k) ks);
          destruct (String.eqb k "__proto__"); reflexivity.
    + rewrite andb_false_r. reflexivity.
  - destruct (negb (Js.includes_key params k0)
              && ((List.length fields =? 0)%nat || Str.mem k0 fields));
      [|reflexivity].
    destruct (JsObject.get data k0) as [v0|]; [|reflexivity].
    rewrite get_assign, E0. reflexivity.
Qed.

Lemma get_bodyData (params : list (option json)) (fields : list string)
      (data : Row) (k : string) :
  JsObject.get (bodyData params fields data) k =
  if goes_in_body params fields k && negb (String.eqb k "__proto__")
  then JsObject.get data k
  else None.
Proof.
  unfold bodyData. rewrite get_body_loop, <- has_keys. simpl.
  destruct (JsObject.has data k) eqn:E; simpl.
  - destruct (goes_in_body params fields k && negb (String.eqb k "__proto__"));
      [|reflexivity].
    destruct (JsObject.get data k); reflexivity.
  - rewrite (has_false_get _ _ E).
    destruct (goes_in_body params fields k && negb (String.eqb k "__proto__"));
      reflexivity.
Qed.

End BodyKeys.


(** ** The catalog (C9) *)

Section CatalogFacts.
Context `{Platform}.

Lemma get_In_NoDup {V : Type} (o : JsObject.t V) (k : string) (v : V) :
  NoDup (JsObject.keys o) -> In (k, v) o -> JsObject.get o k = Some v.
Proof.
  induction o as [|[k0 v0] r IH]; simpl; intros Hnd Hin; [contradiction|].
  inversion Hnd as [|? ? Hnotin Hnd']; subst.
  destruct Hin as [E | Hin].
  - injection E as -> ->. rewrite String.eqb_refl. reflexivity.
  - destruct (String.eqb k k0) eqn:E0.
    + apply String.eqb_eq in E0. subst k0. exfalso. apply Hnotin.
      unfold JsObject.keys. apply in_map_iff. exists (k, v). split; [reflexivity | exact Hin].
    + apply IH; assumption.
Qed.

Lemma get_prop_not_null (v : json) (k : string) :
  v <> JNull -> exists r, Js.get_prop v k = Normal r.
Proof.
  intros Hv. destruct v; simpl; try (eexists; reflexivity).
  - contradiction.
  - destruct (JsObject.array_index k); [eexists; reflexivity|].
    destruct (String.eqb k "length"); eexists; reflexivity.
  - destruct (JsObject.array_index k); [eexists; reflexivity|].
    destruct (String.eqb k "length"); eexists; reflexivity.
Qed.

Lemma schema_definitions_total (doc : json) :
  doc <> JNull -> exists r, schema_definitions doc = Normal r.
Proof.
  intros Hd. unfold schema_definitions.
  destruct (get_prop_not_null doc "definitions" Hd) as [d ->]. simpl.
  destruct (Js.truthy_opt d); [eexists; reflexivity|].
  destruct (get_prop_not_null doc "components" Hd) as [c ->]. simpl.
  eexists; reflexivity.
Qed.

(** The descriptor of the operation under [method] at [path]. *)
Lemma describe_object (doc : json) (path method : string) (o : list (string * json)) :
  doc <> JNull ->
  exists ep, describe doc path method (Some (JObj o)) = Normal ep
             /\ Endpoint.path ep = path
             /\ Endpoint.method ep = method
             /\ Endpoint.id ep = (method ++ "-" ++ path)%string.
Proof.
  intros Hd. unfold describe. simpl.
  destruct (schema_definitions_total doc Hd) as [defs ->]. simpl.
  eexists. split; [reflexivity|]. simpl. repeat split.
Qed.

(** The test of the code, lower-casing the key and looking it up
    among the verbs, is the case-insensitive match with the verb set
    of the specification. *)
Lemma letter_table :
  forallb (fun c =>
             forallb (fun a =>
                        Bool.eqb (Ascii.eqb (Str.lower_char (ascii_of_nat c))
                                            (ascii_of_nat a))
                                 (letter_in_either_case (ascii_of_nat a)
                                                        (ascii_of_nat c)))
                     (seq 97 26))
          (seq 0 256)
  = true.
Proof. vm_compute. reflexivity. Qed.

Lemma lower_char_letter (a c : ascii) :
  97 <= nat_of_ascii a <= 122 ->
  Ascii.eqb (Str.lower_char c) a = letter_in_either_case a c.
Proof.
  intros Ha. pose proof letter_table as T.
  rewrite forallb_forall in T.
  assert (Hc : In (nat_of_ascii c) (seq 0 256)).
  { apply in_seq. pose proof (nat_ascii_bounded c). lia. }
  pose proof (T _ Hc) as Tc. rewrite forallb_forall in Tc.
  assert (Hin : In (nat_of_ascii a) (seq 97 26)) by (apply in_seq; lia).
  pose proof (Tc _ Hin) as E. rewrite !ascii_nat_embedding in E.
  apply Bool.eqb_prop in E. exact E.
Qed.

Lemma lower_case_spells (v : string) :
  Forall (fun a => 97 <= nat_of_ascii a <= 122) (list_ascii_of_string v) ->
  forall m, String.eqb (Str.toLowerCase m) v = spells v m.
Proof.
  unfold Str.toLowerCase.
  induction v as [|a v IH]; intros Hv [|c m]; simpl; try reflexivity.
  inversion Hv as [|? ? Ha Hv']; subst.
  rewrite (lower_char_letter a c Ha), (IH Hv' m).
  destruct (letter_in_either_case a c); reflexivity.
Qed.

Lemma recognized_is_verb (m : string) : recognized m = is_verb m.
Proof.
  unfold recognized, is_verb, Str.mem, verbs, verb_set. cbn [existsb].
  rewrite !lower_case_spells; [reflexivity|..];
    repeat constructor; simpl; lia.
Qed.

Lemma visit_methods (doc : json) (paths methods : list (string * json))
      (path : string) (ms : list string) :
  Js.get_prop doc "paths" = Normal (Some (JObj paths)) ->
  JsObject.get paths path = Some (JObj methods) ->
  NoDup (JsObject.keys methods) ->
  (forall m d, In (m, d) methods -> is_verb m = true -> exists o, d = JObj o) ->
  incl ms (JsObject.keys methods) ->
  forall acc, exists eps,
    foldM (visit_method doc path) ms acc = Normal (acc ++ eps)
    /\ Forall2 describes (map (fun m => (path, m)) (filter is_verb ms)) eps.
Proof.
  intros Hpaths Hitem Hnd Hops.
  assert (Hdoc : doc <> JNull).
  { intros ->. simpl in Hpaths. discriminate. }
  induction ms as [|m ms IH]; intros Hincl acc; cbn [foldM filter map].
  - exists []. rewrite app_nil_r. split; [reflexivity | constructor].
  - assert (Hm : In m (JsObject.keys methods)) by (apply Hincl; left; reflexivity).
    assert (Hms : incl ms (JsObject.keys methods)).
    { intros x Hx. apply Hincl. right. exact Hx. }
    unfold visit_method at 1. rewrite <- (recognized_is_verb m).
    destruct (recognized m) eqn:Er; cbn [map].
    + unfold path_item. rewrite Hpaths. simpl. rewrite Hitem. simpl.
      unfold JsObject.keys in Hm. apply in_map_iff in Hm.
      destruct Hm as [[m' d] [Em Hin]]. simpl in Em. subst m'.
      rewrite (get_In_NoDup _ _ _ Hnd Hin).
      rewrite recognized_is_verb in Er.
      destruct (Hops _ _ Hin Er) as [o ->].
      destruct (describe_object doc path m o Hdoc) as [ep [-> Hep]]. simpl.
      destruct (IH Hms (acc ++ [ep])) as [eps [-> Heps]].
      exists (ep :: eps). rewrite <- app_assoc. split; [reflexivity|].
      constructor; [exact Hep | exact Heps].
    + simpl. apply IH. exact Hms.
Qed.

Lemma visit_paths (doc : json) (paths : list (string * json)) :
  Js.get_prop doc "paths" = Normal (Some (JObj paths)) ->
  NoDup (JsObject.keys paths) ->
  forall entries,
    incl entries paths ->
    (forall p item, In (p, item) entries -> valid_path_item item) ->
    forall acc, exists eps,
      foldM (visit_path doc) (JsObject.keys entries) acc = Normal (acc ++ eps)
      /\ Forall2 describes (operations entries) eps.
Proof.
  intros Hpaths Hnd.
  induction entries as [|[p item] entries IH]; intros Hincl Hvalid acc; simpl.
  - exists []. rewrite app_nil_r. split; [reflexivity | constructor].
  - destruct (Hvalid p item (or_introl eq_refl)) as [methods [-> [Hndm Hops]]].
    assert (Hget : JsObject.get paths p = Some (JObj methods)).
    { apply get_In_NoDup; [exact Hnd|]. apply Hincl. left. reflexivity. }
    unfold visit_path at 1. unfold path_item. rewrite Hpaths. simpl.
    rewrite Hget. simpl.
    destruct (visit_methods doc paths methods p (JsObject.keys methods)
                Hpaths Hget Hndm Hops (incl_refl _) acc) as [eps1 [-> H1]].
    simpl.
    destruct (IH (fun x Hx => Hincl x (or_intror Hx))
                 (fun q it Hq => Hvalid q it (or_intror Hq))
                 (acc ++ eps1)) as [eps2 [-> H2]].
    exists (eps1 ++ eps2). rewrite app_assoc. split; [reflexivity|].
    apply Forall2_app; assumption.
Qed.

(** No recognized method key holds a hyphen. *)
Lemma includes_map_chars (f : ascii -> ascii) (c : ascii) (s : string) :
  f c = c -> Str.includes c s = true -> Str.includes c (Str.map_chars f s) = true.
Proof.
  intros Hf. induction s as [|a r IH]; simpl; [discriminate|].
  intros Hin. apply orb_true_iff in Hin. apply orb_true_iff.
  destruct Hin as [Ha | Hr].
  - left. apply Ascii.eqb_eq in Ha. subst a. rewrite Hf. apply Ascii.eqb_refl.
  - right. apply IH. exact Hr.
Qed.

Lemma recognized_no_hyphen (m : string) :
  recognized m = true -> Str.includes "-"%char m = false.
Proof.
  intros Hr. destruct (Str.includes "-"%char m) eqn:E; [|reflexivity].
  exfalso.
  assert (Hl : Str.includes "-"%char (Str.toLowerCase m) = true).
  { apply includes_map_chars; [reflexivity | exact E]. }
  unfold recognized, Str.mem, verbs in Hr. simpl in Hr.
  repeat (apply orb_true_iff in Hr; destruct Hr as [Hr | Hr];
          [apply String.eqb_eq in Hr; rewrite Hr in Hl; discriminate|]).
  discriminate.
Qed.

Lemma id_injective (m1 m2 p1 p2 : string) :
  Str.includes "-"%char m1 = false ->
  Str.includes "-"%char m2 = false ->
  (m1 ++ "-" ++ p1 = m2 ++ "-" ++ p2)%string ->
  m1 = m2 /\ p1 = p2.
Proof.
  revert m2. induction m1 as [|a m1 IH]; intros [|b m2]; simpl; intros H1 H2 E.
  - injection E as ->. split; reflexivity.
  - injection E as <- _. rewrite Ascii.eqb_refl in H2. discriminate.
  - injection E as -> _. rewrite Ascii.eqb_refl in H1. discriminate.
  - injection E as -> E. apply orb_false_iff in H1, H2.
    destruct (IH m2 (proj2 H1) (proj2 H2) E) as [-> ->]. split; reflexivity.
Qed.

Lemma operations_recognized (paths : list (string * json)) (p m : string) :
  In (p, m) (operations paths) -> recognized m = true.
Proof.
  unfold operations. intros Hin. apply in_flat_map in Hin.
  destruct Hin as [[q item] [_ Hin]]. simpl in Hin.
  destruct item; try contradiction.
  apply in_map_iff in Hin. destruct Hin as [m' [E Hm]].
  injection E as _ ->. apply filter_In in Hm.
  rewrite recognized_is_verb. apply Hm.
Qed.

Lemma operations_path (paths : list (string * json)) (p m : string) :
  In (p, m) (operations paths) -> In p (JsObject.keys paths).
Proof.
  unfold operations. intros Hin. apply in_flat_map in Hin.
  destruct Hin as [[q item] [Hq Hin]]. simpl in Hin.
  destruct item; try contradiction.
  apply in_map_iff in Hin. destruct Hin as [m' [E Hm]].
  injection E as -> _. unfold JsObject.keys. apply in_map_iff.
  exists (p, JObj o). split; [reflexivity | exact Hq].
Qed.

Lemma operations_NoDup (paths : list (string * json)) :
  NoDup (JsObject.keys paths) ->
  (forall p item, In (p, item) paths -> valid_path_item item) ->
  NoDup (operations paths).
Proof.
  induction paths as [|[p item] paths IH]; simpl; intros Hnd Hvalid.
  - constructor.
  - inversion Hnd as [|? ? Hnotin Hnd']; subst.
    apply NoDup_app.
    + destruct (Hvalid p item (or_introl eq_refl)) as [methods [-> [Hndm _]]].
      apply NoDup_map_NoDup_ForallPairs.
      * intros x y _ _ E. injection E as ->. reflexivity.
      * apply NoDup_filter. exact Hndm.
    + apply IH; [exact Hnd'|]. intros q it Hq. apply (Hvalid q it). right. exact Hq.
    + intros [q m] Hin1 Hin2. apply operations_path in Hin2.
      destruct item; try contradiction.
      apply in_map_iff in Hin1. destruct Hin1 as [m' [E _]].
      injection E as <- _. contradiction.
Qed.

Lemma describes_maps (ops : list (string * string)) (eps : list Endpoint.t) :
  Forall2 describes ops eps ->
  map (fun e => (Endpoint.path e, Endpoint.method e)) eps = ops
  /\ map Endpoint.id eps = map (fun pm => (snd pm ++ "-" ++ fst pm)%string) ops.
Proof.
  induction 1 as [|[p m] ep ops eps [Hp [Hm Hi]] _ [IH1 IH2]]; simpl.
  - split; reflexivity.
  - simpl in *. rewrite Hp, Hm, Hi, IH1, IH2. split; reflexivity.
Qed.

(** C9.  For every valid specification document the builder succeeds
    and emits, in the order of the document, exactly one descriptor
    per (path, method key) pair whose method key matches the
    recognized verbs case-insensitively: the pairs of the descriptors
    are the operations of the document, no pair occurs twice, and the
    ids of the descriptors are pairwise distinct. *)
Theorem catalog_one_descriptor_per_operation (doc : json)
        (paths : list (string * json)) :
  valid_spec doc paths ->
  exists spec,
    buildCatalog doc = Normal spec
    /\ map (fun e => (Endpoint.path e, Endpoint.method e)) (endpoints spec)
       = operations paths
    /\ NoDup (operations paths)
    /\ NoDup (map Endpoint.id (endpoints spec)).
Proof.
  intros [Hpaths [Hnd Hvalid]].
  assert (Hdoc : doc <> JNull).
  { intros ->. simpl in Hpaths. discriminate. }
  destruct (visit_paths doc paths Hpaths Hnd paths (incl_refl _) Hvalid [])
    as [eps [Hfold Hdesc]].
  destruct (get_prop_not_null doc "info" Hdoc) as [inf Hinf].
  exists {| info := inf; endpoints := eps |}.
  destruct (describes_maps _ _ Hdesc) as [Hpairs Hids].
  assert (Hops : NoDup (operations paths)) by (apply operations_NoDup; assumption).
  split; [|split; [exact Hpairs | split; [exact Hops|]]].
  - unfold buildCatalog. rewrite Hpaths. simpl. rewrite Hfold. simpl.
    rewrite Hinf. reflexivity.
  - simpl. rewrite Hids. apply NoDup_map_NoDup_ForallPairs; [|exact Hops].
    intros [p1 m1] [p2 m2] H1 H2 E. simpl in E.
    apply operations_recognized in H1, H2.
    destruct (id_injective m1 m2 p1 p2 (recognized_no_hyphen _ H1)
                (recognized_no_hyphen _ H2) E) as [-> ->].
    reflexivity.
Qed.

End CatalogFacts.

Lemma catalog_one_descriptor_per_operation_witness :
  valid_spec (H := Sample.platform) Petstore.doc Petstore.paths
  /\ operations Petstore.paths
     = [("/pets", "get"); ("/pets", "POST");
        ("/pets/{id}", "get"); ("/pets/{id}", "delete")]
  /\ exists spec,
      buildCatalog (H := Sample.platform) Petstore.doc = Normal spec
      /\ map (fun e => (Endpoint.path e, Endpoint.method e)) (endpoints spec)
         = operations Petstore.paths
      /\ NoDup (operations Petstore.paths)
      /\ NoDup (map Endpoint.id (endpoints spec)).
Proof.
  assert (Hv : valid_spec (H := Sample.platform) Petstore.doc Petstore.paths).
  { split; [reflexivity|]. split.
    - repeat constructor; simpl; intuition discriminate.
    - intros p item Hin. simpl in Hin.
      destruct Hin as [E | [E | []]]; injection E as <- <-;
        (eexists; split; [reflexivity|]; split;
         [repeat constructor; simpl; intuition discriminate|]);
        intros m d Hm Hr; simpl in Hm;
        repeat (destruct Hm as [Em | Hm];
                [injection Em as <- <-;
                 first [eexists; reflexivity | discriminate Hr]|]);
        contradiction. }
  split; [exact Hv|]. split; [reflexivity|].
  exact (catalog_one_descriptor_per_operation (H := Sample.platform) _ _ Hv).
Defined.

(** ** The batch runner (C7) *)

(** Below 40 rows the percentage computed in double precision is the
    rounded exact quotient. *)
Lemma progress_exact_table :
  map (fun n => map (fun k => progress_after k n) (seq 0 n)) (seq 0 40)
  = map (fun n => map (fun k => num_of_Z (round_percent (Z.of_nat k + 1) (Z.of_nat n)))
                      (seq 0 n)) (seq 0 40).
Proof. vm_compute. reflexivity. Qed.

Lemma progress_exact_below_40 (n k : nat) :
  n < 40 -> k < n ->
  progress_after k n = num_of_Z (round_percent (Z.of_nat k + 1) (Z.of_nat n)).
Proof.
  intros Hn Hk.
  pose proof progress_exact_table as T.
  assert (Hin : In n (seq 0 40)) by (apply in_seq; lia).
  pose proof (proj1 map_ext_in_iff T n Hin) as Tn. simpl in Tn.
  assert (Hik : In k (seq 0 n)) by (apply in_seq; lia).
  exact (proj1 map_ext_in_iff Tn k Hik).
Qed.

Section BatchFacts.
Context `{Platform}.

Lemma nth_result_rows (rows : list Row) (outcomes : list Outcome) :
  forall (i k : nat) (r : Row),
    nth_error (result_rows i rows outcomes) k = Some r ->
    exists row o, nth_error rows k = Some row
                  /\ nth_error outcomes k = Some o
                  /\ r = resultRow (i + k) row o.
Proof.
  revert outcomes.
  induction rows as [|row rows IH]; intros [|o os] i k r; simpl;
    try (destruct k; discriminate).
  destruct k as [|k]; simpl.
  - intros E. injection E as <-. exists row, o. rewrite Nat.add_0_r. auto.
  - intros E. destruct (IH os (S i) k r E) as [row' [o' [H1 [H2 ->]]]].
    exists row', o'. rewrite Nat.add_succ_r. auto.
Qed.

Lemma length_result_rows (rows : list Row) (outcomes : list Outcome) (i : nat) :
  List.length outcomes = List.length rows ->
  List.length (result_rows i rows outcomes) = List.length rows.
Proof.
  revert outcomes i.
  induction rows as [|row rows IH]; intros [|o os] i; simpl; intros E;
    try discriminate; try reflexivity.
  f_equal. apply IH. lia.
Qed.

(** The loop, when the preparation of no request throws. *)
Lemma batch_loop_spec (fetch : nat -> Network) (cfg : Config)
      (endpoint : Endpoint.t) (total : nat) :
  forall (rows : list Row) (i : nat) (results : list Row) (s : AppState),
    (forall row, In row rows -> exists req, prepare cfg endpoint row = Normal req) ->
    exists outcomes,
      List.length outcomes = List.length rows
      /\ (forall k row o,
             nth_error rows k = Some row -> nth_error outcomes k = Some o ->
             executeRequest (fetch (i + k)) cfg endpoint row = Normal o)
      /\ rejection (batch_loop fetch cfg endpoint total rows i results s) = None
      /\ map batchResults
             (published (batch_loop fetch cfg endpoint total rows i results s))
         = map (fun k => results ++ firstn (S k) (result_rows i rows outcomes))
               (seq 0 (List.length rows))
      /\ map batchProgress
             (published (batch_loop fetch cfg endpoint total rows i results s))
         = map (fun k => progress_after (i + k) total) (seq 0 (List.length rows))
      /\ batchResults (final (batch_loop fetch cfg endpoint total rows i results s))
         = match rows with
           | [] => batchResults s
           | _ => results ++ result_rows i rows outcomes
           end.
Proof.
  induction rows as [|row rest IH]; intros i results s Hprep.
  - exists []. simpl. repeat split; try reflexivity.
    intros [|k] row o; discriminate.
  - destruct (Hprep row (or_introl eq_refl)) as [req Hreq].
    assert (Hexec : executeRequest (fetch i) cfg endpoint row
                    = Normal (settle (fetch i (fst req) (snd req)))).
    { unfold executeRequest. rewrite Hreq. reflexivity. }
    set (o := settle (fetch i (fst req) (snd req))) in *.
    set (results' := results ++ [resultRow i row o]).
    set (s' := setBatchProgress (progress_after i total)
                 (setBatchResults results' s)).
    destruct (IH (S i) results' s' (fun r Hr => Hprep r (or_intror Hr)))
      as [os [Hlen [Hout [Hrej [Hres [Hprog Hfin]]]]]].
    exists (o :: os).
    cbn [batch_loop]. rewrite Hexec.
    fold results'. fold s'. cbn [published final rejection].
    split; [simpl; lia|].
    split.
    { intros [|k] row0 o0; simpl.
      - intros E1 E2. injection E1 as <-. injection E2 as <-.
        rewrite Nat.add_0_r. exact Hexec.
      - intros E1 E2. rewrite Nat.add_succ_r. apply (Hout k row0 o0 E1 E2). }
    split; [exact Hrej|].
    split.
    { cbn [map List.length seq]. rewrite Hres.
      rewrite <- seq_shift, map_map. apply (f_equal2 cons).
      - reflexivity.
      - apply map_ext. intros k.
        unfold results'. rewrite <- app_assoc. reflexivity. }
    split.
    { cbn [map List.length seq]. rewrite Hprog.
      rewrite <- seq_shift, map_map. apply (f_equal2 cons).
      - simpl. rewrite Nat.add_0_r. reflexivity.
      - apply map_ext. intros k.
        rewrite Nat.add_succ_r. reflexivity. }
    rewrite Hfin. cbn [result_rows]. destruct rest as [|row1 rest].
    + destruct os; [|discriminate]. reflexivity.
    + unfold results'. rewrite <- app_assoc. reflexivity.
Qed.

End BatchFacts.

Section BatchRuns.
Context `{Platform}.

(** C7 (amended).  With an endpoint selected and no error thrown while
    a request is prepared, a run over [n] rows does not stop early and
    yields, whatever the outcomes of the calls, exactly [n] result
    rows in input order: after row [k] the first [k] result rows are
    published, the result row of the input row number [k] (from 1)
    is built from that row and the outcome of its call, and its
    [_rowIndex] is [k] unless the input row has a [_rowIndex] column
    of its own, whose value it takes.  The progress published after
    row [k] is [Math.round] of the double-precision value of
    [(k / n) * 100]; for fewer than 40 rows this is the integer
    nearest to [100 * k / n]. *)
Theorem batch_results_complete (fetch : nat -> Network) (s : AppState)
        (endpoint : Endpoint.t) :
  selectedEndpoint s = Some endpoint ->
  (forall row, In row (batchData s) ->
               exists req, prepare (config s) endpoint row = Normal req) ->
  exists outcomes,
    List.length outcomes = List.length (batchData s)
    /\ rejection (runBatchTest fetch s) = None
    /\ List.length (result_rows 0 (batchData s) outcomes)
       = List.length (batchData s)
    /\ map batchResults (published (runBatchTest fetch s))
       = map (fun k => firstn (S k) (result_rows 0 (batchData s) outcomes))
             (seq 0 (List.length (batchData s)))
    /\ (0 < List.length (batchData s) ->
        batchResults (final (runBatchTest fetch s))
        = result_rows 0 (batchData s) outcomes)
    /\ (forall k r,
           nth_error (result_rows 0 (batchData s) outcomes) k = Some r ->
           exists row o,
             nth_error (batchData s) k = Some row
             /\ executeRequest (fetch k) (config s) endpoint row = Normal o
             /\ r = resultRow k row o
             /\ JsObject.get r "_rowIndex"
                = match JsObject.get row "_rowIndex" with
                  | Some v => Some v
                  | None => Some (JNum (num_of_Z (Z.of_nat k + 1)))
                  end)
    /\ map batchProgress (published (runBatchTest fetch s))
       = map (fun k => progress_after k (List.length (batchData s)))
             (seq 0 (List.length (batchData s)))
    /\ (List.length (batchData s) < 40 ->
        forall k, k < List.length (batchData s) ->
                  progress_after k (List.length (batchData s))
                  = num_of_Z (round_percent (Z.of_nat k + 1)
                                (Z.of_nat (List.length (batchData s))))).
Proof.
  intros Hsel Hprep.
  destruct (batch_loop_spec fetch (config s) endpoint
              (List.length (batchData s)) (batchData s) 0 []
              (setBatchResults [] (setBatchRunning true s)) Hprep)
    as [outcomes [Hlen [Hout [Hrej [Hres [Hprog Hfin]]]]]].
  exists outcomes.
  assert (Hrows : forall k r,
             nth_error (result_rows 0 (batchData s) outcomes) k = Some r ->
             exists row o,
               nth_error (batchData s) k = Some row
               /\ executeRequest (fetch k) (config s) endpoint row = Normal o
               /\ r = resultRow k row o
               /\ JsObject.get r "_rowIndex"
                  = match JsObject.get row "_rowIndex" with
                    | Some v => Some v
                    | None => Some (JNum (num_of_Z (Z.of_nat k + 1)))
                    end).
  { intros k r Hr.
    destruct (nth_result_rows _ _ _ _ _ Hr) as [row [o [H1 [H2 ->]]]].
    exists row, o. simpl. repeat split; try assumption.
    - apply (Hout k row o H1 H2).
    - rewrite get_resultRow. simpl. reflexivity. }
  unfold runBatchTest. rewrite Hsel.
  destruct (List.length (batchData s) =? 0)%nat eqn:En.
  - apply Nat.eqb_eq in En.
    destruct (batchData s) as [|row rows] eqn:Ed; [|discriminate].
    destruct outcomes; [|discriminate].
    simpl. repeat split; try reflexivity; try lia.
    intros [|k] r; discriminate.
  - apply Nat.eqb_neq in En. rewrite Hrej.
    cbn [published final rejection].
    split; [exact Hlen|]. split; [reflexivity|].
    split; [apply length_result_rows; exact Hlen|].
    split; [exact Hres|].
    split.
    { intros _. change (batchResults (setBatchRunning false ?x))
        with (batchResults x). rewrite Hfin.
      destruct (batchData s); [contradiction|]. reflexivity. }
    split; [exact Hrows|].
    split; [exact Hprog|].
    intros Hn k Hk. apply progress_exact_below_40; assumption.
Qed.

End BatchRuns.

Lemma batch_results_complete_witness :
  selectedEndpoint (Ping.loaded Ping.two_rows) = Some Ping.endpoint
  /\ map batchProgress
         (published (runBatchTest (H := Sample.platform) Ping.fetch
                       (Ping.loaded Ping.two_rows)))
     = [num_of_Z 50; num_of_Z 100]
  /\ exists outcomes,
      List.length outcomes = 2
      /\ batchResults
           (final (runBatchTest (H := Sample.platform) Ping.fetch
                     (Ping.loaded Ping.two_rows)))
         = result_rows (H := Sample.platform) 0 Ping.two_rows outcomes.
Proof.
  split; [reflexivity|]. split; [reflexivity|].
  destruct (batch_results_complete (H := Sample.platform) Ping.fetch
              (Ping.loaded Ping.two_rows) Ping.endpoint eq_refl)
    as [outcomes [Hlen [_ [_ [_ [Hfin _]]]]]].
  - intros row _. eexists. reflexivity.
  - exists outcomes. split; [exact Hlen|]. apply Hfin. simpl. lia.
Defined.

(** C7, as stated, fails.  An input row with a [_rowIndex] column
    keeps the value of that column in its result row, where the claim
    has the index 1.  In a batch of 40 rows the progress published
    after row 23 is 57, where [100 * 23 / 40] is 57.5 and rounds to
    58: the double-precision product [(23 / 40) * 100] lies just
    below 57.5.  And for an endpoint whose [parameters] is not an
    array the preparation of the first request throws, which ends the
    run without any result row. *)
Lemma batch_index_and_progress_differ :
  (exists r,
      batchResults (final (runBatchTest (H := Sample.platform) Ping.fetch
                             (Ping.loaded Ping.numbered_rows))) = [r]
      /\ JsObject.get r "_rowIndex" = Some (JStr "7")
      /\ JsObject.get r "_rowIndex" <> Some (JNum (num_of_Z 1)))
  /\ nth_error
       (map batchProgress
            (published (runBatchTest (H := Sample.platform) Ping.fetch
                          (Ping.loaded Ping.forty_rows)))) 22
     = Some (num_of_Z 57)
  /\ round_percent 23 40 = 58%Z
  /\ num_of_Z 57 <> num_of_Z 58
  /\ rejection (runBatchTest (H := Sample.platform) Ping.fetch
                  (Ping.loaded_odd Ping.two_rows))
     = Some "forEach is not a function"
  /\ published (runBatchTest (H := Sample.platform) Ping.fetch
                  (Ping.loaded_odd Ping.two_rows)) = [].
Proof.
  split.
  - eexists. split; [reflexivity|]. split; [reflexivity | discriminate].
  - split; [vm_compute; reflexivity|]. split; [reflexivity|].
    split; [vm_compute; discriminate|].
    split; reflexivity.
Qed.

(** ** Strings: append, trim, quotes, split and join *)

Section StringFacts.
Implicit Types (s r a b : string) (c : ascii).

Lemma append_assoc a b r : ((a ++ b) ++ r)%string = (a ++ b ++ r)%string.
Proof. induction a as [|x a IH]; simpl; [reflexivity | rewrite IH; reflexivity]. Qed.

Lemma append_nil_r a : (a ++ EmptyString)%string = a.
Proof. induction a as [|x a IH]; simpl; [reflexivity | rewrite IH; reflexivity]. Qed.

Lemma includes_append c a b :
  Str.includes c (a ++ b) = Str.includes c a || Str.includes c b.
Proof.
  induction a as [|x a IH]; simpl; [reflexivity|].
  rewrite IH, orb_assoc. reflexivity.
Qed.

Lemma trim_start_starts_clean s : starts_clean (Str.trim_start s).
Proof.
  induction s as [|x s IH]; simpl; [exact I|].
  destruct (Str.is_ws x) eqn:E; [exact IH | simpl; exact E].
Qed.

Lemma trim_start_fixed s : starts_clean s -> Str.trim_start s = s.
Proof. destruct s as [|x s]; simpl; [reflexivity | intros ->; reflexivity]. Qed.

Lemma trim_end_starts_clean s : starts_clean s -> starts_clean (Str.trim_end s).
Proof.
  destruct s as [|x s]; simpl; [trivial|]. intros E.
  destruct (Str.trim_end s); [rewrite E|]; simpl; exact E.
Qed.

Lemma trim_end_idem s : Str.trim_end (Str.trim_end s) = Str.trim_end s.
Proof.
  induction s as [|x s IH]; simpl; [reflexivity|].
  destruct (Str.trim_end s) as [|y t] eqn:E.
  - destruct (Str.is_ws x) eqn:Ex; simpl; [reflexivity | rewrite Ex; reflexivity].
  - change (Str.trim_end (String x (String y t))) with
      (match Str.trim_end (String y t) with
       | EmptyString => if Str.is_ws x then EmptyString else Str.of_char x
       | r' => String x r'
       end).
    rewrite IH. reflexivity.
Qed.

Lemma trim_idem s : Str.trim (Str.trim s) = Str.trim s.
Proof.
  unfold Str.trim.
  rewrite (trim_start_fixed (Str.trim_end (Str.trim_start s))).
  - apply trim_end_idem.
  - apply trim_end_starts_clean, trim_start_starts_clean.
Qed.

Lemma includes_trim_start c s :
  Str.includes c s = false -> Str.includes c (Str.trim_start s) = false.
Proof.
  induction s as [|x s IH]; simpl; [trivial|]. intros E.
  apply orb_false_iff in E. destruct E as [E1 E2].
  destruct (Str.is_ws x); [apply IH; exact E2|].
  simpl. rewrite E1, E2. reflexivity.
Qed.

Lemma includes_trim_end c s :
  Str.includes c s = false -> Str.includes c (Str.trim_end s) = false.
Proof.
  induction s as [|x s IH]; simpl; [trivial|]. intros E.
  apply orb_false_iff in E. destruct E as [E1 E2].
  specialize (IH E2).
  destruct (Str.trim_end s) as [|y t].
  - destruct (Str.is_ws x); simpl; [reflexivity|]. rewrite E1. reflexivity.
  - change (Str.includes c (String x (String y t)))
      with (Ascii.eqb x c || Str.includes c (String y t)).
    rewrite E1, IH. reflexivity.
Qed.

Lemma includes_trim c s :
  Str.includes c s = false -> Str.includes c (Str.trim s) = false.
Proof. intros E. apply includes_trim_end, includes_trim_start, E. Qed.

Lemma drop_last_absent c s : Str.includes c s = false -> Str.drop_last c s = s.
Proof.
  induction s as [|x s IH]; simpl; [reflexivity|]. intros E.
  apply orb_false_iff in E. destruct E as [E1 E2].
  destruct s as [|y t]; [rewrite E1; reflexivity|].
  rewrite (IH E2). reflexivity.
Qed.

Lemma strip_outer_quotes_absent s :
  Str.includes Str.dquote s = false -> Str.strip_outer_quotes s = s.
Proof.
  destruct s as [|x s]; [reflexivity|]. intros E.
  unfold Str.strip_outer_quotes.
  pose proof E as E'. simpl in E'. apply orb_false_iff in E'.
  destruct E' as [E1 _]. rewrite E1. apply drop_last_absent. exact E.
Qed.

Lemma unescape_quotes_absent s :
  Str.includes Str.dquote s = false -> Str.unescape_quotes s = s.
Proof.
  induction s as [|x s IH]; [reflexivity|]. intros E.
  simpl in E. apply orb_false_iff in E. destruct E as [E1 E2].
  destruct s as [|y t]; [reflexivity|].
  change (Str.unescape_quotes (String x (String y t)))
    with (if Ascii.eqb x Str.dquote && Ascii.eqb y Str.dquote
          then String Str.dquote (Str.unescape_quotes t)
          else String x (Str.unescape_quotes (String y t))).
  rewrite E1. simpl andb. cbv iota. rewrite (IH E2). reflexivity.
Qed.

Lemma double_quotes_absent s :
  Str.includes Str.dquote s = false -> Str.double_quotes s = s.
Proof.
  induction s as [|x s IH]; simpl; [reflexivity|]. intros E.
  apply orb_false_iff in E. destruct E as [E1 E2].
  rewrite E1, (IH E2). reflexivity.
Qed.

(** The clean-up of a cell in which no quote was collected. *)
Lemma clean_without_quote s :
  Str.includes Str.dquote s = false -> Csv.clean s = Str.trim s.
Proof.
  intros E. unfold Csv.clean.
  pose proof (includes_trim _ _ E) as Et.
  rewrite (strip_outer_quotes_absent _ Et). apply unescape_quotes_absent, Et.
Qed.

Lemma split_nonempty c s : Str.split c s <> [].
Proof.
  destruct s as [|x s]; simpl; [discriminate|].
  destruct (Ascii.eqb x c); [discriminate|].
  destruct (Str.split c s); discriminate.
Qed.

Lemma split_parts_free c s :
  forall l, In l (Str.split c s) -> Str.includes c l = false.
Proof.
  induction s as [|x s IH]; simpl; intros l Hl.
  - destruct Hl as [<- | []]. reflexivity.
  - destruct (Ascii.eqb x c) eqn:E.
    + destruct Hl as [<- | Hl]; [reflexivity | apply IH, Hl].
    + destruct (Str.split c s) as [|p ps] eqn:Es.
      * destruct Hl as [<- | []]. simpl. rewrite E. reflexivity.
      * destruct Hl as [<- | Hl].
        -- simpl. rewrite E. apply IH. left. reflexivity.
        -- apply IH. right. exact Hl.
Qed.

Lemma split_free c s : Str.includes c s = false -> Str.split c s = [s].
Proof.
  induction s as [|x s IH]; simpl; [reflexivity|]. intros E.
  apply orb_false_iff in E. destruct E as [E1 E2].
  rewrite E1, (IH E2). reflexivity.
Qed.

Lemma split_append c a r :
  Str.includes c a = false ->
  Str.split c (a ++ String c r) = a :: Str.split c r.
Proof.
  induction a as [|x a IH]; simpl; intros E.
  - rewrite Ascii.eqb_refl. reflexivity.
  - apply orb_false_iff in E. destruct E as [E1 E2].
    rewrite E1, (IH E2). reflexivity.
Qed.

Lemma split_join c (ls : list string) :
  ls <> [] ->
  (forall l, In l ls -> Str.includes c l = false) ->
  Str.split c (Str.join (Str.of_char c) ls) = ls.
Proof.
  induction ls as [|l ls IH]; [congruence|]. intros _ Hfree.
  destruct ls as [|l' ls'].
  - simpl. apply split_free. apply Hfree. left. reflexivity.
  - change (Str.join (Str.of_char c) (l :: l' :: ls'))
      with (l ++ String c (Str.join (Str.of_char c) (l' :: ls')))%string.
    rewrite split_append by (apply Hfree; left; reflexivity).
    rewrite IH; [reflexivity | discriminate |].
    intros x Hx. apply Hfree. right. exact Hx.
Qed.

End StringFacts.

(** ** The loop of [parseLine] *)

Section ParseFacts.
Context `{Platform}.

Lemma tidy_empty : tidy EmptyString.
Proof. repeat split. Qed.

Lemma tidy_trim (s : string) :
  Str.includes Str.dquote s = false ->
  Str.includes Str.newline s = false ->
  tidy (Str.trim s).
Proof.
  intros Hq Hn. split; [apply trim_idem|].
  split; apply includes_trim; assumption.
Qed.

Lemma clean_tidy (v : string) : tidy v -> Csv.clean v = v.
Proof.
  intros [Ht [Hq _]]. rewrite (clean_without_quote _ Hq). exact Ht.
Qed.

(** Characters that are neither a quote nor a separating comma are
    collected in [current]. *)
Lemma parse_collect (v rest : string) (values : list string) :
  forall (current : string) (inQuote : bool),
    Str.includes Str.dquote v = false ->
    inQuote = true \/ Str.includes Str.comma v = false ->
    Csv.parse_chars (v ++ rest) values current inQuote
    = Csv.parse_chars rest values (current ++ v) inQuote.
Proof.
  induction v as [|x v IH]; intros current inQuote Hq Hc; simpl.
  - rewrite append_nil_r. reflexivity.
  - simpl in Hq. apply orb_false_iff in Hq. destruct Hq as [Hx Hq].
    rewrite Hx.
    assert (Hsep : Ascii.eqb x Str.comma && negb inQuote = false).
    { destruct Hc as [-> | Hc]; [apply andb_false_r|].
      simpl in Hc. apply orb_false_iff in Hc. destruct Hc as [-> _].
      reflexivity. }
    rewrite Hsep. rewrite IH.
    + rewrite append_assoc. reflexivity.
    + exact Hq.
    + destruct Hc as [Hc | Hc]; [left; exact Hc|].
      right. simpl in Hc. apply orb_false_iff in Hc. apply Hc.
Qed.

(** A cell text is read back as its cell. *)
Lemma parse_cell_text (e v rest : string) (values : list string) (current : string) :
  Str.includes Str.dquote v = false ->
  cell_text e v ->
  Csv.parse_chars (e ++ rest) values current false
  = Csv.parse_chars rest values (current ++ v) false.
Proof.
  intros Hq [[-> Hc] | ->].
  - apply parse_collect; [exact Hq | right; exact Hc].
  - rewrite !append_assoc. simpl.
    rewrite parse_collect by (try exact Hq; left; reflexivity).
    simpl. reflexivity.
Qed.

Lemma parse_joined_cells (es vs : list string) :
  Forall2 cell_text es vs ->
  Forall tidy vs ->
  es <> [] ->
  forall values,
    Csv.parse_chars (Str.join "," es) values EmptyString false = values ++ vs.
Proof.
  induction 1 as [|e v es vs He Hrest IH]; intros Htidy Hne values;
    [congruence|].
  inversion Htidy as [|? ? Hv Hvs]; subst.
  destruct Hv as [Ht [Hq Hn]].
  assert (Hclean : Csv.clean v = v) by (apply clean_tidy; repeat split; assumption).
  destruct es as [|e' es'].
  - inversion Hrest; subst. simpl.
    rewrite <- (append_nil_r e).
    rewrite (parse_cell_text e v EmptyString values EmptyString Hq He).
    simpl. rewrite Hclean. reflexivity.
  - change (Str.join "," (e :: e' :: es'))
      with (e ++ String Str.comma (Str.join "," (e' :: es')))%string.
    rewrite (parse_cell_text e v _ values EmptyString Hq He).
    simpl. rewrite Hclean.
    rewrite IH by (try assumption; discriminate).
    rewrite <- app_assoc. reflexivity.
Qed.

(** A line of cell texts parses to its cells. *)
Lemma parseLine_joined_cells (es vs : list string) :
  Forall2 cell_text es vs -> Forall tidy vs -> es <> [] ->
  Csv.parseLine (Str.join "," es) = vs.
Proof.
  intros H1 H2 H3. unfold Csv.parseLine.
  rewrite (parse_joined_cells es vs H1 H2 H3 []). reflexivity.
Qed.

(** Every cell of a line without a newline is tidy. *)
Lemma parse_chars_tidy (line : string) :
  forall (values : list string) (current : string) (inQuote : bool),
    Str.includes Str.newline line = false ->
    Forall tidy values ->
    Str.includes Str.dquote current = false ->
    Str.includes Str.newline current = false ->
    Forall tidy (Csv.parse_chars line values current inQuote).
Proof.
  induction line as [|x line IH]; intros values current inQuote Hl Hv Hq Hn; simpl.
  - apply Forall_app. split; [exact Hv|].
    constructor; [|constructor].
    rewrite (clean_without_quote _ Hq). apply tidy_trim; assumption.
  - simpl in Hl. apply orb_false_iff in Hl. destruct Hl as [Hx Hl].
    destruct (Ascii.eqb x Str.dquote) eqn:Exq.
    + apply IH; assumption.
    + destruct (Ascii.eqb x Str.comma && negb inQuote).
      * apply IH; try assumption; try reflexivity.
        apply Forall_app. split; [exact Hv|].
        constructor; [|constructor].
        rewrite (clean_without_quote _ Hq). apply tidy_trim; assumption.
      * apply IH; try assumption.
        -- rewrite includes_append, Hq. simpl. rewrite Exq. reflexivity.
        -- rewrite includes_append, Hn. simpl. rewrite Hx. reflexivity.
Qed.

Lemma parseLine_tidy (line : string) :
  Str.includes Str.newline line = false -> Forall tidy (Csv.parseLine line).
Proof.
  intros Hl. apply parse_chars_tidy; try assumption; try reflexivity. constructor.
Qed.

(** No cell [parseLine] returns holds a double quote. *)
Lemma parseLine_cells_without_quote (line : string) :
  forall v, In v (Csv.parseLine line) -> Str.includes Str.dquote v = false.
Proof.
  assert (G : forall l values current inQuote,
             (forall v, In v values -> Str.includes Str.dquote v = false) ->
             Str.includes Str.dquote current = false ->
             forall v, In v (Csv.parse_chars l values current inQuote) ->
                       Str.includes Str.dquote v = false).
  { induction l as [|x l IH]; intros values current inQuote Hv Hq v; simpl.
    - intros Hin. apply in_app_or in Hin. destruct Hin as [Hin | [<- | []]].
      + apply Hv, Hin.
      + rewrite (clean_without_quote _ Hq). apply includes_trim, Hq.
    - destruct (Ascii.eqb x Str.dquote) eqn:Exq; [apply IH; assumption|].
      destruct (Ascii.eqb x Str.comma && negb inQuote).
      + apply IH; [|reflexivity]. intros w Hw.
        apply in_app_or in Hw. destruct Hw as [Hw | [<- | []]].
        * apply Hv, Hw.
        * rewrite (clean_without_quote _ Hq). apply includes_trim, Hq.
      + apply IH; [exact Hv|].
        rewrite includes_append, Hq. simpl. rewrite Exq. reflexivity. }
  apply G; [intros v [] | reflexivity].
Qed.

(** The text [escapeCsv] gives a tidy cell. *)
Lemma escapeCsv_tidy (v : string) :
  tidy v -> cell_text (CsvExport.escapeCsv (Some (JStr v))) v.
Proof.
  intros [_ [Hq Hn]]. unfold CsvExport.escapeCsv. simpl.
  rewrite Hq, Hn. simpl. rewrite orb_false_r.
  destruct (Str.includes Str.comma v) eqn:Ec.
  - right. rewrite (double_quotes_absent _ Hq). reflexivity.
  - left. split; [reflexivity | exact Ec].
Qed.

End ParseFacts.

(** ** The order of the keys of an object *)

Section KeyOrder.
Context {V : Type}.
Implicit Types (o : JsObject.t V) (k : string) (v : V).

Lemma array_index_bound k (i : N) :
  JsObject.array_index k = Some i -> (i <= 4294967294)%N.
Proof.
  unfold JsObject.array_index. destruct k as [|c r]; [discriminate|].
  destruct (Ascii.eqb c "0" && Str.nonempty r); [discriminate|].
  destruct (JsObject.digits_value 0 (String c r)) as [n|]; [|discriminate].
  destruct (n <=? 4294967294)%N eqn:E; [|discriminate].
  intros [= <-]. apply N.leb_le. exact E.
Qed.

Lemma precedes_rank (a b : string) :
  JsObject.precedes a b = (rank a <? rank b)%N.
Proof.
  unfold JsObject.precedes, rank.
  destruct (JsObject.array_index a) as [i|] eqn:Ea;
    destruct (JsObject.array_index b) as [j|] eqn:Eb.
  - reflexivity.
  - symmetry. apply N.ltb_lt. apply array_index_bound in Ea. lia.
  - symmetry. apply N.ltb_ge. apply array_index_bound in Eb. lia.
  - symmetry. apply N.ltb_irrefl.
Qed.

Lemma key_order_rank (a b : string) : key_order a b <-> (rank a <= rank b)%N.
Proof.
  unfold key_order. rewrite precedes_rank. apply N.ltb_ge.
Qed.

Lemma has_In o k : JsObject.has o k = true <-> In k (JsObject.keys o).
Proof.
  rewrite has_keys, existsb_exists. split.
  - intros [x [Hx E]]. apply String.eqb_eq in E. subst x. exact Hx.
  - intros Hk. exists k. split; [exact Hk | apply String.eqb_refl].
Qed.

Lemma keys_update o k v : JsObject.keys (JsObject.update k v o) = JsObject.keys o.
Proof.
  unfold JsObject.keys.
  induction o as [|[k0 v0] r IH]; simpl; [reflexivity|].
  destruct (String.eqb k k0) eqn:E; simpl.
  - apply String.eqb_eq in E. subst k0. reflexivity.
  - rewrite IH. reflexivity.
Qed.

Lemma in_keys_insert o k v (x : string) :
  In x (JsObject.keys (JsObject.insert k v o)) <-> x = k \/ In x (JsObject.keys o).
Proof.
  unfold JsObject.keys.
  induction o as [|[k0 v0] r IH]; simpl.
  - intuition.
  - destruct (JsObject.precedes k k0); simpl.
    + intuition.
    + rewrite IH. intuition.
Qed.

Lemma sorted_insert o k v :
  StronglySorted key_order (JsObject.keys o) ->
  StronglySorted key_order (JsObject.keys (JsObject.insert k v o)).
Proof.
  induction o as [|[k0 v0] r IH]; simpl; intros Hs.
  - repeat constructor.
  - apply StronglySorted_inv in Hs. destruct Hs as [Hr H0].
    destruct (JsObject.precedes k k0) eqn:Ep; simpl.
    + constructor; [constructor; assumption|].
      rewrite precedes_rank in Ep. apply N.ltb_lt in Ep.
      constructor.
      * apply key_order_rank. lia.
      * rewrite Forall_forall in *. intros x Hx.
        specialize (H0 x Hx). rewrite key_order_rank in *. lia.
    + constructor; [apply IH; exact Hr|].
      rewrite Forall_forall in *. intros x Hx.
      apply in_keys_insert in Hx. destruct Hx as [-> | Hx].
      * exact Ep.
      * apply H0, Hx.
Qed.

Lemma nodup_insert o k v :
  NoDup (JsObject.keys o) -> ~ In k (JsObject.keys o) ->
  NoDup (JsObject.keys (JsObject.insert k v o)).
Proof.
  induction o as [|[k0 v0] r IH]; simpl; intros Hnd Hk.
  - constructor; [intros [] | constructor].
  - destruct (JsObject.precedes k k0); simpl.
    + constructor; [exact Hk | exact Hnd].
    + inversion Hnd as [|? ? H0 Hr]; subst.
      constructor.
      * intros Hin. apply in_keys_insert in Hin. destruct Hin as [-> | Hin].
        -- apply Hk. left. reflexivity.
        -- apply H0, Hin.
      * apply IH; [exact Hr|]. intros Hin. apply Hk. right. exact Hin.
Qed.

Lemma canonical_define o k v :
  canonical (JsObject.keys o) -> canonical (JsObject.keys (JsObject.define k v o)).
Proof.
  intros [Hs Hnd]. unfold JsObject.define.
  destruct (JsObject.has o k) eqn:E.
  - rewrite keys_update. split; assumption.
  - split; [apply sorted_insert; exact Hs|].
    apply nodup_insert; [exact Hnd|].
    intros Hin. apply has_In in Hin. congruence.
Qed.

Lemma in_keys_define o k v (x : string) :
  In x (JsObject.keys (JsObject.define k v o)) <-> x = k \/ In x (JsObject.keys o).
Proof.
  unfold JsObject.define. destruct (JsObject.has o k) eqn:E.
  - rewrite keys_update. apply has_In in E. split; [auto|].
    intros [-> | Hx]; assumption.
  - apply in_keys_insert.
Qed.

(** A key that follows all the others is added at the end. *)
Lemma insert_last o k v :
  (forall k', In k' (JsObject.keys o) -> JsObject.precedes k k' = false) ->
  JsObject.insert k v o = o ++ [(k, v)].
Proof.
  induction o as [|[k0 v0] r IH]; simpl; intros Hall; [reflexivity|].
  rewrite (Hall k0 (or_introl eq_refl)).
  rewrite IH; [reflexivity|]. intros k' Hk'. apply Hall. right. exact Hk'.
Qed.

Lemma sorted_last (ks : list string) k :
  StronglySorted key_order (ks ++ [k]) -> Forall (fun a => key_order a k) ks.
Proof.
  induction ks as [|a ks IH]; simpl; intros Hs; [constructor|].
  apply StronglySorted_inv in Hs. destruct Hs as [Hr Ha].
  constructor; [|apply IH; exact Hr].
  rewrite Forall_forall in Ha. apply Ha. apply in_or_app. right. left. reflexivity.
Qed.

Lemma sorted_prefix (l1 l2 : list string) :
  StronglySorted key_order (l1 ++ l2) -> StronglySorted key_order l1.
Proof.
  induction l1 as [|a l1 IH]; simpl; intros Hs; [constructor|].
  apply StronglySorted_inv in Hs. destruct Hs as [Hr Ha].
  constructor; [apply IH; exact Hr|].
  rewrite Forall_forall in *. intros x Hx. apply Ha. apply in_or_app. left. exact Hx.
Qed.

Lemma canonical_prefix (l1 l2 : list string) :
  canonical (l1 ++ l2) -> canonical l1.
Proof.
  intros [Hs Hnd]. split; [apply (sorted_prefix _ _ Hs)|].
  apply (NoDup_app_remove_r _ _ Hnd).
Qed.

Lemma keys_app o o' :
  JsObject.keys (o ++ o') = JsObject.keys o ++ JsObject.keys o'.
Proof. apply map_app. Qed.

Lemma define_last o k v :
  canonical (JsObject.keys o ++ [k]) ->
  JsObject.define k v o = o ++ [(k, v)].
Proof.
  intros [Hs Hnd]. unfold JsObject.define.
  assert (Hk : ~ In k (JsObject.keys o)).
  { pose proof (NoDup_remove_2 _ _ _ Hnd) as Hr.
    rewrite app_nil_r in Hr. exact Hr. }
  destruct (JsObject.has o k) eqn:E; [apply has_In in E; contradiction|].
  apply insert_last. intros k' Hk'.
  pose proof (sorted_last _ _ Hs) as Hall. rewrite Forall_forall in Hall.
  apply (Hall k' Hk').
Qed.

End KeyOrder.

(** ** The rows [parseCSV] builds *)

Section RowFacts.
Context `{Platform}.

Lemma cleanKey_tidy (h : string) : tidy h -> Csv.cleanKey h = h.
Proof.
  intros [Ht [Hq _]]. unfold Csv.cleanKey.
  rewrite (strip_outer_quotes_absent _ Hq). exact Ht.
Qed.

Lemma cell_or_empty_tidy (values : list string) (i : nat) :
  Forall tidy values -> tidy (Csv.cell_or_empty values i).
Proof.
  intros Hv. unfold Csv.cell_or_empty.
  destruct (nth_error values i) as [v|] eqn:E; [|apply tidy_empty].
  destruct (Str.nonempty v); [|apply tidy_empty].
  rewrite Forall_forall in Hv. apply Hv. apply (nth_error_In _ _ E).
Qed.

Lemma Forall_update {V : Type} (P : string * V -> Prop) (o : JsObject.t V)
      (k : string) (v : V) :
  P (k, v) -> Forall P o -> Forall P (JsObject.update k v o).
Proof.
  intros Hk. induction 1 as [|[k0 v0] r H0 Hr IH]; simpl; [constructor|].
  destruct (String.eqb k k0); constructor; assumption.
Qed.

Lemma Forall_insert {V : Type} (P : string * V -> Prop) (o : JsObject.t V)
      (k : string) (v : V) :
  P (k, v) -> Forall P o -> Forall P (JsObject.insert k v o).
Proof.
  intros Hk. induction 1 as [|[k0 v0] r H0 Hr IH]; simpl.
  - constructor; [exact Hk | constructor].
  - destruct (JsObject.precedes k k0).
    + constructor; [exact Hk|]. constructor; assumption.
    + constructor; assumption.
Qed.

Lemma Forall_define {V : Type} (P : string * V -> Prop) (o : JsObject.t V)
      (k : string) (v : V) :
  P (k, v) -> Forall P o -> Forall P (JsObject.define k v o).
Proof.
  intros Hk Ho. unfold JsObject.define.
  destruct (JsObject.has o k); [apply Forall_update | apply Forall_insert];
    assumption.
Qed.

Lemma parsed_row_empty : parsed_row [].
Proof.
  split; [split; constructor|]. split; [intros [] | constructor].
Qed.

Lemma assign_parsed_row (o : Row) (k v : string) :
  parsed_row o -> tidy k -> tidy v -> parsed_row (JsObject.assign k (JStr v) o).
Proof.
  intros [Hc [Hp Hall]] Hk Hv. unfold JsObject.assign.
  destruct (String.eqb k "__proto__") eqn:E;
    [exact (conj Hc (conj Hp Hall))|].
  apply String.eqb_neq in E.
  split; [apply canonical_define; exact Hc|].
  split.
  - intros Hin. apply in_keys_define in Hin.
    destruct Hin as [Hin | Hin]; [congruence | contradiction].
  - apply Forall_define; [|exact Hall]. simpl. split; [exact Hk|].
    exists v. split; [reflexivity | exact Hv].
Qed.

Lemma fill_row_parsed (headers values : list string) :
  Forall tidy headers -> Forall tidy values ->
  forall (i : nat) (o : Row), parsed_row o ->
                              parsed_row (Csv.fill_row headers i values o).
Proof.
  intros Hh Hv. induction Hh as [|h hs Hh0 Hhs IH]; intros i o Ho; simpl.
  - exact Ho.
  - apply IH. apply assign_parsed_row; [exact Ho | |].
    + rewrite (cleanKey_tidy _ Hh0). exact Hh0.
    + apply cell_or_empty_tidy, Hv.
Qed.

Lemma keys_insert_congr {V : Type} (k : string) (v v' : V) :
  forall o o' : JsObject.t V,
    JsObject.keys o = JsObject.keys o' ->
    JsObject.keys (JsObject.insert k v o) = JsObject.keys (JsObject.insert k v' o').
Proof.
  unfold JsObject.keys.
  induction o as [|[k0 v0] r IH]; intros [|[k1 v1] r'] E; simpl in *;
    try discriminate; [reflexivity|].
  injection E as -> E.
  destruct (JsObject.precedes k k1); simpl.
  - rewrite E. reflexivity.
  - rewrite (IH r' E). reflexivity.
Qed.

Lemma keys_assign_congr {V : Type} (k : string) (v v' : V) (o o' : JsObject.t V) :
  JsObject.keys o = JsObject.keys o' ->
  JsObject.keys (JsObject.assign k v o) = JsObject.keys (JsObject.assign k v' o').
Proof.
  intros E. unfold JsObject.assign, JsObject.define.
  destruct (String.eqb k "__proto__"); [exact E|].
  rewrite !has_keys, E.
  destruct (existsb (String.eqb k) (JsObject.keys o')).
  - rewrite !keys_update. exact E.
  - apply keys_insert_congr, E.
Qed.

(** Rows filled from the same headers have the same keys. *)
Lemma keys_fill_row_congr (headers values values' : list string) :
  forall (i : nat) (o o' : Row),
    JsObject.keys o = JsObject.keys o' ->
    JsObject.keys (Csv.fill_row headers i values o)
    = JsObject.keys (Csv.fill_row headers i values' o').
Proof.
  induction headers as [|h hs IH]; intros i o o' E; simpl; [exact E|].
  apply IH. apply keys_assign_congr, E.
Qed.

Lemma get_keys {V : Type} (o : JsObject.t V) :
  NoDup (JsObject.keys o) ->
  map (JsObject.get o) (JsObject.keys o) = map (fun kv => Some (snd kv)) o.
Proof.
  unfold JsObject.keys.
  induction o as [|[k0 v0] r IH]; simpl; intros Hnd; [reflexivity|].
  inversion Hnd as [|? ? H0 Hr]; subst.
  rewrite String.eqb_refl. f_equal.
  rewrite <- (IH Hr). apply map_ext_in. intros k Hk.
  destruct (String.eqb k k0) eqn:E; [|reflexivity].
  apply String.eqb_eq in E. subst k0. contradiction.
Qed.

(** A parsed row is a list of tidy keys with tidy string values. *)
Lemma parsed_row_pairs (row : Row) :
  parsed_row row ->
  exists pairs : list (string * string),
    row = map (fun kv => (fst kv, JStr (snd kv))) pairs
    /\ Forall tidy (map fst pairs)
    /\ Forall tidy (map snd pairs).
Proof.
  intros [_ [_ Hall]].
  induction Hall as [|[k j] r [Hk [v [Ej Hv]]] _ [pairs [-> [H1 H2]]]].
  - exists []. repeat split; constructor.
  - simpl in *. subst j. exists ((k, v) :: pairs). simpl.
    repeat split; try constructor; assumption.
Qed.

End RowFacts.

(** ** Export and re-import of parsed rows (C1) *)

Section RoundTrip.
Context `{Platform}.

Lemma cell_or_empty_at (pre rest : list string) (v : string) :
  Csv.cell_or_empty (pre ++ v :: rest) (List.length pre) = v.
Proof.
  unfold Csv.cell_or_empty.
  rewrite nth_error_app2 by lia. rewrite Nat.sub_diag. simpl.
  destruct v; reflexivity.
Qed.

(** Filling a row from its own keys and values builds it again. *)
Lemma fill_row_rebuild (pairs : list (string * string)) :
  forall (pre : list string) (acc : Row),
    canonical (JsObject.keys acc ++ map fst pairs) ->
    Forall tidy (map fst pairs) ->
    ~ In "__proto__" (map fst pairs) ->
    Csv.fill_row (map fst pairs) (List.length pre) (pre ++ map snd pairs) acc
    = acc ++ map (fun kv => (fst kv, JStr (snd kv))) pairs.
Proof.
  induction pairs as [|[k v] pairs IH]; intros pre acc Hc Ht Hp; simpl.
  - rewrite app_nil_r. reflexivity.
  - simpl in Hc, Ht, Hp.
    inversion Ht as [|? ? Hk Ht']; subst.
    rewrite (cleanKey_tidy _ Hk), cell_or_empty_at.
    assert (Ha : JsObject.assign k (JStr v) acc = acc ++ [(k, JStr v)]).
    { unfold JsObject.assign.
      destruct (String.eqb k "__proto__") eqn:E.
      - apply String.eqb_eq in E. exfalso. apply Hp. left. exact E.
      - apply define_last. apply (canonical_prefix _ (map fst pairs)).
        rewrite <- app_assoc. exact Hc. }
    rewrite Ha.
    replace (S (List.length pre)) with (List.length (pre ++ [v]))
      by (rewrite length_app; simpl; lia).
    replace (pre ++ v :: map snd pairs) with ((pre ++ [v]) ++ map snd pairs)
      by (rewrite <- app_assoc; reflexivity).
    rewrite IH.
    + rewrite <- app_assoc. reflexivity.
    + rewrite keys_app, <- app_assoc. exact Hc.
    + exact Ht'.
    + intros Hin. apply Hp. right. exact Hin.
Qed.

Lemma keys_of_pairs (pairs : list (string * string)) :
  JsObject.keys (map (fun kv => (fst kv, JStr (snd kv))) pairs) = map fst pairs.
Proof. unfold JsObject.keys. rewrite map_map. reflexivity. Qed.

(** The cells of the line exported for a parsed row. *)
Lemma csvLine_cells (pairs : list (string * string)) :
  NoDup (map fst pairs) ->
  Forall tidy (map snd pairs) ->
  let row : Row := map (fun kv => (fst kv, JStr (snd kv))) pairs in
  exists es,
    CsvExport.csvLine (JsObject.keys row) row = Str.join "," es
    /\ Forall2 cell_text es (map snd pairs).
Proof.
  intros Hnd Ht row.
  exists (map (fun kv => CsvExport.escapeCsv (Some (JStr (snd kv)))) pairs).
  split.
  - unfold CsvExport.csvLine. f_equal.
    rewrite <- (map_map (JsObject.get row) CsvExport.escapeCsv).
    rewrite get_keys by (unfold row; rewrite keys_of_pairs; exact Hnd).
    unfold row. rewrite !map_map. reflexivity.
  - clear Hnd row. induction pairs as [|[k v] pairs IH]; simpl; [constructor|].
    simpl in Ht. inversion Ht; subst.
    constructor; [apply escapeCsv_tidy; assumption | apply IH; assumption].
Qed.

(** One row: its exported line, parsed under its own keys, is the row. *)
Lemma row_round_trip (row : Row) :
  parsed_row row -> row <> [] ->
  Csv.fill_row (JsObject.keys row) 0
    (Csv.parseLine (CsvExport.csvLine (JsObject.keys row) row)) []
  = row.
Proof.
  intros Hrow Hne.
  destruct (parsed_row_pairs row Hrow) as [pairs [-> [Hk Hv]]].
  destruct Hrow as [[Hs Hnd] [Hp _]].
  rewrite keys_of_pairs in Hs, Hnd, Hp.
  destruct (csvLine_cells pairs Hnd Hv) as [es [-> Hes]].
  rewrite (parseLine_joined_cells es (map snd pairs) Hes Hv).
  - rewrite keys_of_pairs.
    apply (fill_row_rebuild pairs [] []); simpl; try assumption.
    split; assumption.
  - intros ->. inversion Hes as [E|]. destruct pairs; [|discriminate].
    apply Hne. reflexivity.
Qed.

Lemma includes_join (c : ascii) (sep : string) (ls : list string) :
  Str.includes c sep = false ->
  (forall l, In l ls -> Str.includes c l = false) ->
  Str.includes c (Str.join sep ls) = false.
Proof.
  intros Hsep. induction ls as [|l ls IH]; intros Hall; [reflexivity|].
  destruct ls as [|l' ls'].
  - simpl. apply Hall. left. reflexivity.
  - change (Str.join sep (l :: l' :: ls'))
      with (l ++ sep ++ Str.join sep (l' :: ls'))%string.
    rewrite !includes_append, Hsep, (Hall l (or_introl eq_refl)).
    simpl. apply IH. intros x Hx. apply Hall. right. exact Hx.
Qed.

Lemma cell_text_no_newline (e v : string) :
  cell_text e v -> Str.includes Str.newline v = false ->
  Str.includes Str.newline e = false.
Proof.
  intros [[-> _] | ->] Hv; [exact Hv|].
  rewrite !includes_append, Hv. reflexivity.
Qed.

Lemma Forall2_in_left {A B : Type} (R : A -> B -> Prop) (l : list A)
      (l' : list B) (x : A) :
  Forall2 R l l' -> In x l -> exists y, In y l' /\ R x y.
Proof.
  induction 1 as [|a b l l' Hab _ IH]; intros Hin; [contradiction|].
  destruct Hin as [<- | Hin].
  - exists b. split; [left; reflexivity | exact Hab].
  - destruct (IH Hin) as [y [Hy Hxy]]. exists y. split; [right|]; assumption.
Qed.

Lemma csvLine_no_newline (row : Row) :
  parsed_row row ->
  Str.includes Str.newline (CsvExport.csvLine (JsObject.keys row) row) = false.
Proof.
  intros Hrow.
  destruct (parsed_row_pairs row Hrow) as [pairs [-> [Hk Hv]]].
  destruct Hrow as [[_ Hnd] _]. rewrite keys_of_pairs in Hnd.
  destruct (csvLine_cells pairs Hnd Hv) as [es [-> Hes]].
  apply includes_join; [reflexivity|].
  intros e He.
  destruct (Forall2_in_left _ _ _ _ Hes He) as [v [Hin Hev]].
  apply (cell_text_no_newline e v Hev).
  rewrite Forall_forall in Hv. apply (Hv v Hin).
Qed.

Lemma filter_all {A : Type} (f : A -> bool) (l : list A) :
  (forall x, In x l -> f x = true) -> filter f l = l.
Proof.
  induction l as [|x l IH]; simpl; intros Hall; [reflexivity|].
  rewrite (Hall x (or_introl eq_refl)). f_equal.
  apply IH. intros y Hy. apply Hall. right. exact Hy.
Qed.

(** What [parseCSV] returns: parsed rows with one list of keys. *)
Lemma parseCSV_rows (text : string) :
  exists keys : list string,
    forall row, In row (Csv.parseCSV text) ->
                parsed_row row /\ JsObject.keys row = keys.
Proof.
  unfold Csv.parseCSV.
  destruct (filter (fun l => negb (Csv.blank l)) (Str.split Str.newline text))
    as [|header rest] eqn:El.
  - exists []. intros row [].
  - assert (Hfree : forall l, In l (header :: rest) ->
                              Str.includes Str.newline l = false).
    { intros l Hl. rewrite <- El in Hl. apply filter_In in Hl.
      apply (split_parts_free _ _ _ (proj1 Hl)). }
    exists (JsObject.keys (Csv.fill_row (Csv.parseLine header) 0 [] [])).
    intros row Hrow. apply in_map_iff in Hrow.
    destruct Hrow as [line [<- Hline]]. split.
    + apply fill_row_parsed.
      * apply parseLine_tidy, Hfree. left. reflexivity.
      * apply parseLine_tidy, Hfree. right. exact Hline.
      * apply parsed_row_empty.
    + apply keys_fill_row_congr. reflexivity.
Qed.

Lemma keys_tidy (row : Row) : parsed_row row -> Forall tidy (JsObject.keys row).
Proof.
  intros [_ [_ Hall]]. unfold JsObject.keys.
  induction Hall as [|kv r [Hk _] _ IH]; simpl; constructor; assumption.
Qed.

Lemma cell_text_plain (ks : list string) :
  (forall k, In k ks -> Str.includes Str.comma k = false) ->
  Forall2 cell_text ks ks.
Proof.
  induction ks as [|k ks IH]; intros Hall; constructor.
  - left. split; [reflexivity | apply Hall; left; reflexivity].
  - apply IH. intros x Hx. apply Hall. right. exact Hx.
Qed.

(** C1 (amended).  For the rows [parseCSV] yields from a text, when no
    column name holds a comma and no line of the exported text is
    blank (a line can only be blank when there is a single column and
    its name or its value is empty), parsing the exported text yields
    these rows again: the same columns in the same order with the
    same values, a value holding a comma included. *)
Theorem csv_round_trip (text out : string) :
  CsvExport.csvContent (Csv.parseCSV text) = Some out ->
  (forall k, In k (columns (Csv.parseCSV text)) ->
             Str.includes Str.comma k = false) ->
  (forall l, In l (Str.split Str.newline out) -> Csv.blank l = false) ->
  Csv.parseCSV out = Csv.parseCSV text.
Proof.
  intros Hout Hcomma Hblank.
  destruct (parseCSV_rows text) as [K HK].
  destruct (Csv.parseCSV text) as [|first others] eqn:Erows; [discriminate|].
  set (rows := first :: others) in *.
  simpl in Hcomma.
  assert (Hfirst : parsed_row first /\ JsObject.keys first = K)
    by (apply HK; left; reflexivity).
  destruct Hfirst as [Hpf HKf].
  set (header := Str.join "," (JsObject.keys first)) in *.
  set (lines := map (CsvExport.csvLine (JsObject.keys first)) rows) in *.
  change (Some (Str.join (Str.of_char Str.newline) (header :: lines)) = Some out)
    in Hout.
  assert (Eout : out = Str.join (Str.of_char Str.newline) (header :: lines))
    by congruence.
  clear Hout. subst out.
  assert (Hfree : forall l, In l (header :: lines) ->
                            Str.includes Str.newline l = false).
  { intros l [<- | Hl].
    - apply includes_join; [reflexivity|].
      intros k Hk. pose proof (keys_tidy first Hpf) as Ht.
      rewrite Forall_forall in Ht. apply (Ht k Hk).
    - apply in_map_iff in Hl. destruct Hl as [row [<- Hrow]].
      destruct (HK row Hrow) as [Hpr Hkr].
      rewrite HKf, <- Hkr. apply csvLine_no_newline, Hpr. }
  assert (Hsplit : Str.split Str.newline
                     (Str.join (Str.of_char Str.newline) (header :: lines))
                   = header :: lines).
  { apply split_join; [discriminate | exact Hfree]. }
  rewrite Hsplit in Hblank.
  unfold Csv.parseCSV. rewrite Hsplit.
  rewrite filter_all
    by (intros l Hl; rewrite (Hblank l Hl); reflexivity).
  assert (Hne : JsObject.keys first <> []).
  { intros E. specialize (Hblank header (or_introl eq_refl)).
    unfold header in Hblank. rewrite E in Hblank. discriminate. }
  assert (Hhead : Csv.parseLine header = JsObject.keys first).
  { apply parseLine_joined_cells.
    - apply cell_text_plain, Hcomma.
    - apply keys_tidy, Hpf.
    - exact Hne. }
  rewrite Hhead. unfold lines. rewrite map_map.
  rewrite <- (map_id rows) at 2.
  apply map_ext_in. intros row Hrow.
  destruct (HK row Hrow) as [Hpr Hkr].
  rewrite HKf, <- Hkr. apply row_round_trip; [exact Hpr|].
  intros ->. apply Hne. rewrite HKf, <- Hkr. reflexivity.
Qed.

End RoundTrip.

Lemma csv_round_trip_witness :
  Csv.parseCSV People.text = People.rows
  /\ CsvExport.csvContent (H := Sample.platform) (Csv.parseCSV People.text)
     = Some People.exported
  /\ Csv.parseCSV People.exported = Csv.parseCSV People.text.
Proof.
  split; [reflexivity|]. split; [reflexivity|].
  apply (csv_round_trip (H := Sample.platform) People.text People.exported).
  - reflexivity.
  - intros k Hk. simpl in Hk.
    destruct Hk as [<- | [<- | []]]; reflexivity.
  - intros l Hl. vm_compute in Hl.
    destruct Hl as [<- | [<- | [<- | []]]]; reflexivity.
Defined.

(** C1, as stated, fails.  The rows parsed from a text whose column
    name holds a comma come back with another column set, since the
    export writes the names unquoted; and the row parsed from a
    single empty cell is lost, since its exported line is blank. *)
Lemma csv_round_trip_fails :
  (Csv.parseCSV People.comma_in_name = [[("a,b", JStr "1")]]
   /\ CsvExport.csvContent (H := Sample.platform)
        (Csv.parseCSV People.comma_in_name)
      = Some ("a,b" ++ People.nl ++ "1")%string
   /\ Csv.parseCSV ("a,b" ++ People.nl ++ "1")
      = [[("a", JStr "1"); ("b", JStr EmptyString)]]
   /\ Csv.parseCSV ("a,b" ++ People.nl ++ "1")
      <> Csv.parseCSV People.comma_in_name)
  /\ (Csv.parseCSV People.empty_cell = [[("a", JStr EmptyString)]]
      /\ CsvExport.csvContent (H := Sample.platform)
           (Csv.parseCSV People.empty_cell)
         = Some ("a" ++ People.nl)%string
      /\ Csv.parseCSV ("a" ++ People.nl) = []
      /\ Csv.parseCSV ("a" ++ People.nl) <> Csv.parseCSV People.empty_cell).
Proof. repeat split; discriminate. Qed.

(** * Further properties *)

(** ** The CSV parser, cell by cell *)

Section ParserCells.
Context `{Platform}.

(** X1.  All rows [parseCSV] returns have the same keys in the same
    order, none of them [__proto__], and every cell is a string that
    is trimmed and holds neither a double quote nor a newline. *)
Theorem parsed_rows_uniform (text : string) (row row' : Row) :
  In row (Csv.parseCSV text) ->
  In row' (Csv.parseCSV text) ->
  JsObject.keys row = JsObject.keys row' /\ parsed_row row.
Proof.
  intros Hr Hr'. destruct (parseCSV_rows text) as [K HK].
  destruct (HK row Hr) as [Hp Hk]. destruct (HK row' Hr') as [_ Hk'].
  split; [congruence | exact Hp].
Qed.

Lemma cell_or_empty_nth (values : list string) (i : nat) :
  Csv.cell_or_empty values i = nth i values EmptyString.
Proof.
  unfold Csv.cell_or_empty. revert i.
  induction values as [|v values IH]; intros [|i]; simpl; try reflexivity.
  - destruct v; reflexivity.
  - apply IH.
Qed.

Lemma get_fill_row_other (headers values : list string) (k : string) :
  (forall h, In h headers -> Csv.cleanKey h <> k) ->
  forall (i : nat) (obj : Row),
    JsObject.get (Csv.fill_row headers i values obj) k = JsObject.get obj k.
Proof.
  induction headers as [|h hs IH]; intros Hk i obj; simpl; [reflexivity|].
  rewrite IH by (intros x Hx; apply Hk; right; exact Hx).
  rewrite get_assign.
  destruct (String.eqb k (Csv.cleanKey h)) eqn:E; [|reflexivity].
  apply String.eqb_eq in E. exfalso. apply (Hk h (or_introl eq_refl)).
  symmetry. exact E.
Qed.

Lemma get_fill_row (headers values : list string) :
  NoDup (map Csv.cleanKey headers) ->
  forall (j i : nat) (obj : Row) (h : string),
    nth_error headers j = Some h ->
    Csv.cleanKey h <> "__proto__" ->
    JsObject.get (Csv.fill_row headers i values obj) (Csv.cleanKey h)
    = Some (JStr (nth (i + j) values EmptyString)).
Proof.
  induction headers as [|h0 hs IH]; intros Hnd j i obj h Hj Hp;
    [destruct j; discriminate|].
  simpl in Hnd. inversion Hnd as [|? ? Hnotin Hnd']; subst.
  destruct j as [|j]; simpl in Hj.
  - injection Hj as ->. simpl.
    rewrite get_fill_row_other.
    + rewrite get_assign, String.eqb_refl.
      apply String.eqb_neq in Hp. rewrite Hp. simpl.
      rewrite cell_or_empty_nth, Nat.add_0_r. reflexivity.
    + intros x Hx E. apply Hnotin. rewrite <- E. apply in_map. exact Hx.
  - simpl. rewrite (IH Hnd' j (S i) _ h Hj Hp).
    rewrite Nat.add_succ_r. reflexivity.
Qed.

(** X2.  With pairwise distinct column names (after their clean-up),
    the row of the data line number [r] holds, under the name of
    column number [j], the cell number [j] of that line, and the empty
    string when the line has fewer cells. *)
Theorem parsed_cell_by_position (text header line h : string)
        (rest : list string) (r j : nat) :
  filter (fun l => negb (Csv.blank l)) (Str.split Str.newline text)
    = header :: rest ->
  nth_error rest r = Some line ->
  NoDup (map Csv.cleanKey (Csv.parseLine header)) ->
  nth_error (Csv.parseLine header) j = Some h ->
  Csv.cleanKey h <> "__proto__" ->
  exists row,
    nth_error (Csv.parseCSV text) r = Some row
    /\ JsObject.get row (Csv.cleanKey h)
       = Some (JStr (nth j (Csv.parseLine line) EmptyString))
    /\ (List.length (Csv.parseLine line) <= j ->
        JsObject.get row (Csv.cleanKey h) = Some (JStr EmptyString)).
Proof.
  intros Hl Hr Hnd Hj Hp.
  exists (Csv.fill_row (Csv.parseLine header) 0 (Csv.parseLine line) []).
  assert (Hget : JsObject.get
                   (Csv.fill_row (Csv.parseLine header) 0 (Csv.parseLine line) [])
                   (Csv.cleanKey h)
                 = Some (JStr (nth j (Csv.parseLine line) EmptyString))).
  { apply (get_fill_row _ _ Hnd j 0 [] h Hj Hp). }
  split; [|split].
  - unfold Csv.parseCSV. rewrite Hl. rewrite nth_error_map, Hr. reflexivity.
  - exact Hget.
  - intros Hlen. rewrite Hget. rewrite nth_overflow by exact Hlen. reflexivity.
Qed.

(** X3.  A quote that is never closed takes the rest of the line, its
    commas included, into one cell. *)
Theorem unterminated_quote_takes_rest (v : string) :
  Str.includes Str.dquote v = false ->
  Csv.parseLine (String Str.dquote v) = [Str.trim v].
Proof.
  intros Hq. unfold Csv.parseLine. simpl.
  rewrite <- (append_nil_r v) at 1.
  rewrite parse_collect by (try exact Hq; left; reflexivity).
  simpl. rewrite (clean_without_quote _ Hq). reflexivity.
Qed.

Lemma remove_quotes_absent (s : string) :
  Str.includes Str.dquote (remove_quotes s) = false.
Proof.
  induction s as [|c s IH]; simpl; [reflexivity|].
  destruct (Ascii.eqb c Str.dquote) eqn:E; [exact IH|].
  simpl. rewrite E. exact IH.
Qed.

Lemma remove_quotes_fixed (s : string) :
  Str.includes Str.dquote s = false -> remove_quotes s = s.
Proof.
  induction s as [|c s IH]; simpl; [reflexivity|]. intros E.
  apply orb_false_iff in E. destruct E as [E1 E2].
  rewrite E1, (IH E2). reflexivity.
Qed.

(** A value between quotes with its quotes doubled is collected
    whole, less its quotes. *)
Lemma parse_doubled (s rest : string) (values : list string) :
  forall current : string,
    Csv.parse_chars (Str.double_quotes s ++ rest) values current true
    = Csv.parse_chars rest values (current ++ remove_quotes s) true.
Proof.
  induction s as [|c s IH]; intros current; simpl.
  - rewrite append_nil_r. reflexivity.
  - destruct (Ascii.eqb c Str.dquote) eqn:E.
    + simpl. apply IH.
    + simpl. rewrite E. rewrite andb_false_r. rewrite IH.
      rewrite append_assoc. reflexivity.
Qed.

Lemma parse_quote_char (rest : string) (values : list string)
      (current : string) (inQuote : bool) :
  Csv.parse_chars (String Str.dquote rest) values current inQuote
  = Csv.parse_chars rest values current (negb inQuote).
Proof. reflexivity. Qed.

Lemma parse_quoted (s rest : string) (values : list string) (current : string) :
  Csv.parse_chars
    ((Str.of_char Str.dquote ++ Str.double_quotes s ++ Str.of_char Str.dquote)
       ++ rest) values current false
  = Csv.parse_chars rest values (current ++ remove_quotes s) false.
Proof.
  rewrite (append_assoc (Str.of_char Str.dquote) _ rest).
  rewrite (append_assoc (Str.double_quotes s) _ rest).
  change (Str.of_char Str.dquote
          ++ Str.double_quotes s ++ Str.of_char Str.dquote ++ rest)%string
    with (String Str.dquote (Str.double_quotes s ++ String Str.dquote rest)).
  rewrite parse_quote_char. simpl negb.
  rewrite parse_doubled, parse_quote_char. reflexivity.
Qed.

Lemma parse_escaped_string (s rest : string) (values : list string)
      (current : string) :
  Csv.parse_chars
    ((if Str.includes Str.dquote s || Str.includes Str.comma s
         || Str.includes Str.newline s
      then Str.of_char Str.dquote ++ Str.double_quotes s ++ Str.of_char Str.dquote
      else s) ++ rest) values current false
  = Csv.parse_chars rest values (current ++ remove_quotes s) false.
Proof.
  destruct (Str.includes Str.dquote s || Str.includes Str.comma s
            || Str.includes Str.newline s) eqn:E.
  - apply parse_quoted.
  - apply orb_false_iff in E. destruct E as [E _].
    apply orb_false_iff in E. destruct E as [Eq Ec].
    rewrite (remove_quotes_fixed _ Eq).
    apply parse_collect; [exact Eq | right; exact Ec].
Qed.

Lemma parse_escaped (val : option json) (rest : string) (values : list string)
      (current : string) :
  Csv.parse_chars (CsvExport.escapeCsv val ++ rest) values current false
  = Csv.parse_chars rest values
      (current ++ remove_quotes (exported_string val)) false.
Proof.
  assert (Hempty : Csv.parse_chars (EmptyString ++ rest) values current false
                   = Csv.parse_chars rest values (current ++ EmptyString) false).
  { simpl. rewrite append_nil_r. reflexivity. }
  destruct val as [v|]; [|exact Hempty].
  destruct v; try exact Hempty;
    match goal with
    | |- context [exported_string (Some ?v)] =>
        exact (parse_escaped_string (Js.to_String v) rest values current)
    end.
Qed.

Lemma parse_escaped_line (vals : list (option json)) :
  vals <> [] ->
  forall values,
    Csv.parse_chars (Str.join "," (map CsvExport.escapeCsv vals)) values
      EmptyString false
    = values ++ map (fun val => Str.trim (remove_quotes (exported_string val))) vals.
Proof.
  induction vals as [|val vals IH]; [congruence|]. intros _ values.
  assert (Hclean : Csv.clean (remove_quotes (exported_string val))
                   = Str.trim (remove_quotes (exported_string val))).
  { apply clean_without_quote, remove_quotes_absent. }
  destruct vals as [|val' vals'].
  - simpl map. simpl Str.join.
    rewrite <- (append_nil_r (CsvExport.escapeCsv val)).
    rewrite parse_escaped. simpl. rewrite Hclean. reflexivity.
  - change (Str.join "," (map CsvExport.escapeCsv (val :: val' :: vals')))
      with (CsvExport.escapeCsv val
            ++ String Str.comma
                 (Str.join "," (map CsvExport.escapeCsv (val' :: vals'))))%string.
    rewrite parse_escaped. simpl Csv.parse_chars at 1.
    change (Ascii.eqb Str.comma Str.dquote) with false. cbv iota.
    change (Ascii.eqb Str.comma Str.comma && negb false) with true. cbv iota.
    simpl append. rewrite Hclean.
    rewrite IH by discriminate.
    rewrite <- app_assoc. reflexivity.
Qed.

(** X4.  The line exported for a row parses back into exactly one
    cell per column, whatever the values hold (commas, quotes): each
    cell is the exported string of the value without its double
    quotes, trimmed. *)
Theorem exported_line_keeps_columns (headers : list string) (row : Row) :
  headers <> [] ->
  Csv.parseLine (CsvExport.csvLine headers row)
  = map (fun h => Str.trim (remove_quotes (exported_string (JsObject.get row h))))
        headers.
Proof.
  intros Hne. unfold Csv.parseLine, CsvExport.csvLine.
  rewrite <- (map_map (JsObject.get row) CsvExport.escapeCsv).
  rewrite parse_escaped_line.
  - simpl. rewrite map_map. reflexivity.
  - destruct headers; [congruence | discriminate].
Qed.

End ParserCells.

(** ** The columns of result rows *)

Section ResultColumns.
Context `{Platform}.

Lemma keys_define_congr {V : Type} (k : string) (v v' : V) (o o' : JsObject.t V) :
  JsObject.keys o = JsObject.keys o' ->
  JsObject.keys (JsObject.define k v o) = JsObject.keys (JsObject.define k v' o').
Proof.
  intros E. unfold JsObject.define. rewrite !has_keys, E.
  destruct (existsb (String.eqb k) (JsObject.keys o')).
  - rewrite !keys_update. exact E.
  - apply keys_insert_congr, E.
Qed.

Lemma get_in_keys {V : Type} (o : JsObject.t V) (k : string) :
  In k (JsObject.keys o) -> exists v, JsObject.get o k = Some v.
Proof.
  intros Hin. apply has_In in Hin. unfold JsObject.has in Hin.
  destruct (JsObject.get o k) as [v|]; [eauto | discriminate].
Qed.

Lemma keys_spread_congr {V : Type} (src src' o o' : JsObject.t V) :
  JsObject.keys src = JsObject.keys src' ->
  JsObject.keys o = JsObject.keys o' ->
  JsObject.keys (JsObject.spread src o) = JsObject.keys (JsObject.spread src' o').
Proof.
  intros Hsrc Ho. unfold JsObject.spread. rewrite <- Hsrc.
  assert (G : forall ks, incl ks (JsObject.keys src) ->
              forall a a', JsObject.keys a = JsObject.keys a' ->
                JsObject.keys
                  (fold_left (fun acc k => match JsObject.get src k with
                                           | Some v => JsObject.define k v acc
                                           | None => acc
                                           end) ks a)
                = JsObject.keys
                    (fold_left (fun acc k => match JsObject.get src' k with
                                             | Some v => JsObject.define k v acc
                                             | None => acc
                                             end) ks a')).
  { induction ks as [|k ks IH]; intros Hincl a a' Ha; simpl; [exact Ha|].
    assert (Hk : In k (JsObject.keys src)) by (apply Hincl; left; reflexivity).
    destruct (get_in_keys src k Hk) as [v ->].
    rewrite Hsrc in Hk. destruct (get_in_keys src' k Hk) as [v' ->].
    apply IH.
    - intros x Hx. apply Hincl. right. exact Hx.
    - apply keys_define_congr, Ha. }
  apply G; [apply incl_refl | exact Ho].
Qed.

Lemma keys_resultRow_congr (i j : nat) (row row' : Row) (result result' : Outcome) :
  JsObject.keys row = JsObject.keys row' ->
  JsObject.keys (resultRow i row result) = JsObject.keys (resultRow j row' result').
Proof.
  intros E. unfold resultRow.
  repeat apply keys_define_congr.
  apply keys_spread_congr; [exact E|].
  apply keys_define_congr. reflexivity.
Qed.

(** X5.  The result rows of the rows parsed from one CSV text all have
    the same columns in the same order, whatever the outcomes: the
    header the export takes from the first result row fits every
    row. *)
Theorem result_rows_share_columns (text : string) (i j : nat) (row row' : Row)
        (result result' : Outcome) :
  In row (Csv.parseCSV text) ->
  In row' (Csv.parseCSV text) ->
  JsObject.keys (resultRow i row result) = JsObject.keys (resultRow j row' result').
Proof.
  intros Hr Hr'. apply keys_resultRow_congr.
  destruct (parseCSV_rows text) as [K HK].
  destruct (HK row Hr) as [_ Hk]. destruct (HK row' Hr') as [_ Hk'].
  congruence.
Qed.

End ResultColumns.

(** ** The schema flattener *)

Section FlattenerFacts.
Context `{Platform}.

(** X6.  A schema whose reference names no entry of the definitions,
    or that comes without definitions, has no fields; no error is
    raised. *)
Theorem unresolved_reference_gives_no_field (sch : list (string * json))
        (ref : string) (definitions : option json) :
  JsObject.get sch "$ref" = Some (JStr ref) ->
  ref <> EmptyString ->
  definitions = None
  \/ (exists defs, definitions = Some (JObj defs)
                   /\ JsObject.get defs (Str.last_part (Str.split "/" ref)) = None) ->
  extractFieldsFromSchema (Some (JObj sch)) definitions = Normal [].
Proof.
  intros Href Hne Hdefs.
  assert (Hn : Str.nonempty ref = true)
    by (destruct ref; [congruence | reflexivity]).
  unfold extractFieldsFromSchema. cbn -[Str.split Str.last_part].
  rewrite Href. cbn -[Str.split Str.last_part]. rewrite Hn.
  unfold resolve_ref. cbn -[Str.split Str.last_part].
  destruct Hdefs as [-> | [defs [-> Hget]]]; cbn -[Str.split Str.last_part].
  - reflexivity.
  - rewrite Hget. reflexivity.
Qed.

Lemma get_opt_not_null (p : json) (k : string) (r : option json) :
  Js.get_prop p k = Normal r -> Js.get_opt (Some p) k = r.
Proof.
  intros E. unfold Js.get_opt. destruct p; try (rewrite E; reflexivity).
  simpl in E. discriminate.
Qed.

Lemma fields_of_properties (props : list (string * json)) (req : list json) :
  NoDup (JsObject.keys props) ->
  forall entries,
    incl entries props ->
    (forall k p, In (k, p) entries -> p <> JNull) ->
    exists fields,
      mapM (field_of (JObj props) (JArr req)) (JsObject.keys entries)
      = Normal fields
      /\ Forall2 (fun kv f =>
                    f_name f = fst kv
                    /\ f_type f = Js.or_else (Js.get_opt (Some (snd kv)) "type")
                                             (JStr "string")
                    /\ f_required f = Js.includes_key (map Some req) (fst kv))
                 entries fields.
Proof.
  intros Hnd. induction entries as [|[k p] entries IH]; intros Hincl Hnn; simpl.
  - exists []. split; [reflexivity | constructor].
  - assert (Hget : JsObject.get props k = Some p).
    { apply get_In_NoDup; [exact Hnd|]. apply Hincl. left. reflexivity. }
    assert (Hp : p <> JNull) by (apply (Hnn k p); left; reflexivity).
    destruct (IH (fun x Hx => Hincl x (or_intror Hx))
                 (fun k' p' Hin => Hnn k' p' (or_intror Hin)))
      as [fields [Hm Hf]].
    unfold field_of at 1. simpl. rewrite Hget. simpl.
    destruct (get_prop_not_null p "type" Hp) as [ty Hty].
    destruct (get_prop_not_null p "description" Hp) as [de Hde].
    rewrite Hty. simpl. rewrite Hde. simpl.
    rewrite Hm. simpl.
    eexists. split; [reflexivity|].
    constructor; [|exact Hf]. simpl.
    split; [reflexivity|]. split; [|reflexivity].
    f_equal. symmetry. apply (get_opt_not_null p "type" ty Hty).
Qed.

(** X7.  A schema without reference whose [properties] is an object
    of non-null members, and whose [required] is absent or an array,
    is flattened without error into one field per property, in the
    order of the properties: the field has the name of the property,
    its [type] or [string] when it has none, and is required exactly
    when its name is an element of [required]. *)
Theorem inline_schema_fields (sch props : list (string * json))
        (required : option (list json)) (definitions : option json) :
  JsObject.get sch "$ref" = None ->
  JsObject.get sch "properties" = Some (JObj props) ->
  JsObject.get sch "required" = option_map JArr required ->
  NoDup (JsObject.keys props) ->
  (forall k p, In (k, p) props -> p <> JNull) ->
  exists fields,
    extractFieldsFromSchema (Some (JObj sch)) definitions = Normal fields
    /\ map f_name fields = JsObject.keys props
    /\ Forall2 (fun kv f =>
                  f_name f = fst kv
                  /\ f_type f = Js.or_else (Js.get_opt (Some (snd kv)) "type")
                                           (JStr "string")
                  /\ f_required f
                     = Js.includes_key
                         (map Some (match required with Some l => l | None => [] end))
                         (fst kv))
               props fields.
Proof.
  intros Href Hprops Hreq Hnd Hnn.
  destruct (fields_of_properties props
              (match required with Some l => l | None => [] end)
              Hnd props (incl_refl _) Hnn) as [fields [Hm Hf]].
  exists fields. split; [|split; [|exact Hf]].
  - unfold extractFieldsFromSchema. simpl. rewrite Href. simpl.
    unfold properties_of. simpl. rewrite Hprops, Hreq. simpl.
    destruct required as [l|]; simpl; exact Hm.
  - clear Hm Hprops Hnd Hnn. unfold JsObject.keys.
    induction Hf as [|kv f ps fs [Hn _] _ IH]; simpl; [reflexivity|].
    rewrite Hn, IH. reflexivity.
Qed.

Lemma last_cons_nonempty {A : Type} (x d : A) (l : list A) :
  l <> [] -> last (x :: l) d = last l d.
Proof. destruct l; [congruence | reflexivity]. Qed.

Lemma split_last_segment (c : ascii) (name : string) :
  Str.includes c name = false ->
  forall a : string,
    exists p ps, Str.split c (a ++ String c name) = p :: ps
                 /\ ps <> [] /\ last ps EmptyString = name.
Proof.
  intros Hfree. induction a as [|x a IH]; simpl.
  - rewrite Ascii.eqb_refl, (split_free _ _ Hfree).
    exists EmptyString, [name]. repeat split. discriminate.
  - destruct IH as [p [ps [E [Hne Hlast]]]]. rewrite E.
    destruct (Ascii.eqb x c).
    + exists EmptyString, (p :: ps). repeat split; [discriminate|].
      rewrite last_cons_nonempty by exact Hne. exact Hlast.
    + exists (String x p), ps. repeat split; assumption.
Qed.

Lemma last_part_of_reference (prefix name : string) :
  Str.includes "/"%char name = false ->
  Str.last_part (Str.split "/"%char (prefix ++ String "/"%char name)) = name.
Proof.
  intros Hfree.
  destruct (split_last_segment "/"%char name Hfree prefix) as [p [ps [E [Hne Hl]]]].
  unfold Str.last_part. rewrite E, last_cons_nonempty by exact Hne. exact Hl.
Qed.

Lemma nonempty_append_char (a r : string) (c : ascii) :
  Str.nonempty (a ++ String c r) = true.
Proof. destruct a; reflexivity. Qed.

(** X8.  A reference is resolved by its last path segment, one level
    deep: the fields of a schema that refers to [.../name] are the
    fields of the entry [name] of the definitions, when that entry is
    an object without a reference of its own. *)
Theorem reference_resolves_to_definition (sch defs def : list (string * json))
        (prefix name : string) (definitions' : option json) :
  JsObject.get sch "$ref" = Some (JStr (prefix ++ String "/"%char name)) ->
  Str.includes "/"%char name = false ->
  JsObject.get defs name = Some (JObj def) ->
  JsObject.get def "$ref" = None ->
  extractFieldsFromSchema (Some (JObj sch)) (Some (JObj defs))
  = extractFieldsFromSchema (Some (JObj def)) definitions'.
Proof.
  intros Href Hfree Hdef Hnoref.
  unfold extractFieldsFromSchema. simpl. rewrite Href, Hnoref. simpl.
  rewrite nonempty_append_char. unfold resolve_ref. simpl.
  rewrite (last_part_of_reference prefix name Hfree). simpl.
  rewrite Hdef. simpl. reflexivity.
Qed.

End FlattenerFacts.

(** ** The keys of the request body (C4) *)

Section BodyKeySelection.
Context `{Platform}.






End BodyKeySelection.


(** ** Every accepted catalog *)

Section AcceptedCatalogs.
Context `{Platform}.

Lemma foldM_invariant {A B : Type} (P : B -> Prop)
      (f : B -> A -> completion B) (l : list A) :
  (forall a x a', In x l -> P a -> f a x = Normal a' -> P a') ->
  forall a r, P a -> foldM f l a = Normal r -> P r.
Proof.
  induction l as [|x l IH]; intros Hstep a r Ha; simpl.
  - intros [= <-]. exact Ha.
  - destruct (f a x) as [b|m] eqn:E; simpl; [|discriminate].
    apply IH.
    + intros a0 y a' Hy. apply Hstep. right. exact Hy.
    + apply (Hstep a x b (or_introl eq_refl) Ha E).
Qed.

Lemma foldM_throws {A B : Type} (f : B -> A -> completion B) (l : list A) (x : A) :
  In x l ->
  (forall a, exists m, f a x = Throw m) ->
  forall a, exists m, foldM f l a = Throw m.
Proof.
  intros Hin Hx. induction l as [|y l IH]; intros a; [contradiction|].
  simpl. destruct (f a y) as [b|m] eqn:E; simpl.
  - destruct Hin as [-> | Hin].
    + destruct (Hx a) as [m Hm]. congruence.
    + apply IH. exact Hin.
  - eauto.
Qed.

Lemma or_else_truthy (a : option json) (b : json) :
  Js.truthy b = true -> Js.truthy (Js.or_else a b) = true.
Proof.
  intros Hb. unfold Js.or_else. destruct a as [x|]; [|exact Hb].
  destruct (Js.truthy x) eqn:E; [exact E | exact Hb].
Qed.

Lemma describe_result (doc : json) (path method : string)
      (details : option json) (ep : Endpoint.t) :
  describe doc path method details = Normal ep ->
  Endpoint.path ep = path
  /\ Endpoint.method ep = method
  /\ Endpoint.id ep = (method ++ "-" ++ path)%string
  /\ Js.truthy (Endpoint.parameters ep) = true
  /\ schema_definitions doc = Normal (Endpoint.definitions ep).
Proof.
  unfold describe. destruct details as [d|]; [|discriminate].
  destruct (Js.get_prop d "summary") as [summ|]; [|discriminate]. simpl.
  destruct (Js.get_prop d "operationId") as [opId|]; [|discriminate]. simpl.
  destruct (Js.get_prop d "parameters") as [params|]; [|discriminate]. simpl.
  destruct (Js.get_prop d "requestBody") as [body|]; [|discriminate]. simpl.
  destruct (schema_definitions doc) as [defs|]; [|discriminate]. simpl.
  intros [= <-]. simpl. repeat split.
  apply or_else_truthy. reflexivity.
Qed.

Lemma catalog_descriptors (doc : json) (spec : ParsedSpec)
        (ep : Endpoint.t) :
  buildCatalog doc = Normal spec ->
  In ep (endpoints spec) ->
  Endpoint.id ep = (Endpoint.method ep ++ "-" ++ Endpoint.path ep)%string
  /\ recognized (Endpoint.method ep) = true
  /\ Js.truthy (Endpoint.parameters ep) = true
  /\ schema_definitions doc = Normal (Endpoint.definitions ep).
Proof.
  set (good := fun e : Endpoint.t =>
                 Endpoint.id e = (Endpoint.method e ++ "-" ++ Endpoint.path e)%string
                 /\ recognized (Endpoint.method e) = true
                 /\ Js.truthy (Endpoint.parameters e) = true
                 /\ schema_definitions doc = Normal (Endpoint.definitions e)).
  assert (Hm : forall path acc m acc',
             Forall good acc -> visit_method doc path acc m = Normal acc' ->
             Forall good acc').
  { intros path acc m acc' Hacc. unfold visit_method.
    destruct (recognized m) eqn:Er; [|intros [= <-]; exact Hacc].
    destruct (path_item doc path) as [item|]; [|discriminate]. simpl.
    destruct (Js.get_prop item m) as [details|]; [|discriminate]. simpl.
    destruct (describe doc path m details) as [e|] eqn:Ed; [|discriminate].
    simpl. intros [= <-].
    destruct (describe_result _ _ _ _ _ Ed) as [Hp [Hme [Hi [Ht Hs]]]].
    apply Forall_app. split; [exact Hacc|].
    constructor; [|constructor]. unfold good.
    rewrite Hi, Hp, Hme. repeat split; assumption. }
  assert (Hp : forall acc path acc',
             Forall good acc -> visit_path doc acc path = Normal acc' ->
             Forall good acc').
  { intros acc path acc' Hacc. unfold visit_path.
    destruct (path_item doc path) as [item|]; [|discriminate]. simpl.
    destruct (Js.Object_keys item) as [methods|]; [|discriminate]. simpl.
    apply (foldM_invariant (Forall good)); [|exact Hacc].
    intros a x a' _. apply Hm. }
  unfold buildCatalog.
  destruct (Js.get_prop doc "paths") as [paths|]; [|discriminate]. simpl.
  destruct (negb (Js.truthy_opt paths)); [discriminate|].
  destruct (Js.Object_keys (Js.or_else paths JNull)) as [pathKeys|];
    [|discriminate]. simpl.
  destruct (foldM (visit_path doc) pathKeys []) as [eps|] eqn:Ef;
    [|discriminate]. simpl.
  destruct (Js.get_prop doc "info") as [inf|]; [|discriminate]. simpl.
  intros [= <-]. simpl. intros Hin.
  assert (Hall : Forall good eps).
  { apply (foldM_invariant (Forall good) (visit_path doc) pathKeys
             (fun a x a' _ Ha E => Hp a x a' Ha E) [] eps);
      [constructor | exact Ef]. }
  rewrite Forall_forall in Hall. apply (Hall ep Hin).
Qed.


Lemma schema_definitions_value (doc : json) (defs : option json) :
  schema_definitions doc = Normal defs ->
  defs = if Js.truthy_opt (Js.get_opt (Some doc) "definitions")
         then Js.get_opt (Some doc) "definitions"
         else Js.get_opt (Js.get_opt (Some doc) "components") "schemas".
Proof.
  unfold schema_definitions.
  destruct (Js.get_prop doc "definitions") as [d|] eqn:Ed; [|discriminate].
  rewrite (get_opt_not_null doc "definitions" d Ed).
  cbn -[Js.get_opt Js.get_prop].
  destruct (Js.truthy_opt d); [intros [= <-]; reflexivity|].
  destruct (Js.get_prop doc "components") as [c|] eqn:Ec; [|discriminate].
  rewrite (get_opt_not_null doc "components" c Ec).
  cbn -[Js.get_opt Js.get_prop].
  intros [= <-]. reflexivity.
Qed.

Lemma describe_source (doc : json) (path method : string)
      (details : option json) (ep : Endpoint.t) :
  describe doc path method details = Normal ep ->
  exists operation,
    details = Some operation
    /\ operation <> JNull
    /\ Endpoint.path ep = path
    /\ Endpoint.method ep = method
    /\ Endpoint.id ep = (method ++ "-" ++ path)%string
    /\ Endpoint.summary ep
       = Js.or_else (Js.get_opt (Some operation) "summary")
           (Js.or_else (Js.get_opt (Some operation) "operationId") (JStr path))
    /\ Endpoint.parameters ep
       = Js.or_else (Js.get_opt (Some operation) "parameters") (JArr [])
    /\ Endpoint.requestBody ep = Js.get_opt (Some operation) "requestBody"
    /\ Endpoint.definitions ep
       = if Js.truthy_opt (Js.get_opt (Some doc) "definitions")
         then Js.get_opt (Some doc) "definitions"
         else Js.get_opt (Js.get_opt (Some doc) "components") "schemas".
Proof.
  unfold describe. destruct details as [d|]; [|discriminate].
  destruct (Js.get_prop d "summary") as [summ|] eqn:E1; [|discriminate].
  cbn -[Js.get_opt Js.get_prop].
  destruct (Js.get_prop d "operationId") as [opId|] eqn:E2; [|discriminate].
  cbn -[Js.get_opt Js.get_prop].
  destruct (Js.get_prop d "parameters") as [params|] eqn:E3; [|discriminate].
  cbn -[Js.get_opt Js.get_prop].
  destruct (Js.get_prop d "requestBody") as [body|] eqn:E4; [|discriminate].
  cbn -[Js.get_opt Js.get_prop].
  destruct (schema_definitions doc) as [defs|] eqn:E5; [|discriminate].
  cbn -[Js.get_opt Js.get_prop].
  intros [= <-]. exists d. cbn -[Js.get_opt Js.get_prop].
  rewrite (get_opt_not_null d "summary" summ E1),
          (get_opt_not_null d "operationId" opId E2),
          (get_opt_not_null d "parameters" params E3),
          (get_opt_not_null d "requestBody" body E4).
  split; [reflexivity|]. split.
  { intros ->. simpl in E1. discriminate. }
  repeat (split; [reflexivity|]).
  apply (schema_definitions_value doc defs E5).
Qed.

(** X9.  Whatever the document, when the import accepts it every
    descriptor of the catalog comes from an operation of the
    document: under its path in [paths] there is a path item, and
    under its method key in that item an operation, not [null]; the
    method key matches the verb set get, post, put, delete, patch
    case-insensitively; the id is [method-path]; the summary is the
    summary of the operation, else its [operationId], else the path;
    the parameters are those of the operation, or an empty array when
    it has none; the request body is that of the operation; and the
    definitions are the [definitions] of the document when truthy,
    its [components.schemas] otherwise. *)
Theorem accepted_catalog_descriptors (doc : json) (spec : ParsedSpec)
        (ep : Endpoint.t) :
  buildCatalog doc = Normal spec ->
  In ep (endpoints spec) ->
  exists paths item operation,
    Js.get_opt (Some doc) "paths" = Some paths
    /\ Js.get_opt (Some paths) (Endpoint.path ep) = Some item
    /\ Js.get_opt (Some item) (Endpoint.method ep) = Some operation
    /\ operation <> JNull
    /\ is_verb (Endpoint.method ep) = true
    /\ Endpoint.id ep
       = (Endpoint.method ep ++ "-" ++ Endpoint.path ep)%string
    /\ Endpoint.summary ep
       = Js.or_else (Js.get_opt (Some operation) "summary")
           (Js.or_else (Js.get_opt (Some operation) "operationId")
                       (JStr (Endpoint.path ep)))
    /\ Endpoint.parameters ep
       = Js.or_else (Js.get_opt (Some operation) "parameters") (JArr [])
    /\ Endpoint.requestBody ep = Js.get_opt (Some operation) "requestBody"
    /\ Endpoint.definitions ep
       = if Js.truthy_opt (Js.get_opt (Some doc) "definitions")
         then Js.get_opt (Some doc) "definitions"
         else Js.get_opt (Js.get_opt (Some doc) "components") "schemas".
Proof.
  set (good := fun e : Endpoint.t =>
    exists paths item operation,
      Js.get_opt (Some doc) "paths" = Some paths
      /\ Js.get_opt (Some paths) (Endpoint.path e) = Some item
      /\ Js.get_opt (Some item) (Endpoint.method e) = Some operation
      /\ operation <> JNull
      /\ is_verb (Endpoint.method e) = true
      /\ Endpoint.id e
         = (Endpoint.method e ++ "-" ++ Endpoint.path e)%string
      /\ Endpoint.summary e
         = Js.or_else (Js.get_opt (Some operation) "summary")
             (Js.or_else (Js.get_opt (Some operation) "operationId")
                         (JStr (Endpoint.path e)))
      /\ Endpoint.parameters e
         = Js.or_else (Js.get_opt (Some operation) "parameters") (JArr [])
      /\ Endpoint.requestBody e = Js.get_opt (Some operation) "requestBody"
      /\ Endpoint.definitions e
         = if Js.truthy_opt (Js.get_opt (Some doc) "definitions")
           then Js.get_opt (Some doc) "definitions"
           else Js.get_opt (Js.get_opt (Some doc) "components") "schemas").
  assert (Hm : forall path acc m acc',
             Forall good acc -> visit_method doc path acc m = Normal acc' ->
             Forall good acc').
  { intros path acc m acc' Hacc. unfold visit_method.
    destruct (recognized m) eqn:Er; [|intros [= <-]; exact Hacc].
    unfold path_item.
    destruct (Js.get_prop doc "paths") as [[ps|]|] eqn:Ep; try discriminate.
    cbn -[Js.get_opt Js.get_prop].
    destruct (Js.get_prop ps path) as [[item|]|] eqn:Ei; try discriminate.
    cbn -[Js.get_opt Js.get_prop].
    destruct (Js.get_prop item m) as [details|] eqn:Ed; [|discriminate].
    cbn -[Js.get_opt Js.get_prop].
    destruct (describe doc path m details) as [e|] eqn:Ee; [|discriminate].
    cbn -[Js.get_opt Js.get_prop]. intros [= <-].
    destruct (describe_source _ _ _ _ _ Ee)
      as [operation [-> [Hnn [Hpa [Hme [Hid [Hsu [Hpr [Hrb Hdf]]]]]]]]].
    apply Forall_app. split; [exact Hacc|].
    constructor; [|constructor].
    exists ps, item, operation. rewrite Hpa, Hme.
    split; [apply (get_opt_not_null doc "paths" _ Ep)|].
    split; [apply (get_opt_not_null ps path _ Ei)|].
    split; [apply (get_opt_not_null item m _ Ed)|].
    split; [exact Hnn|].
    split; [rewrite <- recognized_is_verb; exact Er|].
    repeat split; assumption. }
  assert (Hp : forall acc path acc',
             Forall good acc -> visit_path doc acc path = Normal acc' ->
             Forall good acc').
  { intros acc path acc' Hacc. unfold visit_path.
    destruct (path_item doc path) as [item|]; [|discriminate]. simpl.
    destruct (Js.Object_keys item) as [methods|]; [|discriminate]. simpl.
    apply (foldM_invariant (Forall good)); [|exact Hacc].
    intros a x a' _. apply Hm. }
  unfold buildCatalog.
  destruct (Js.get_prop doc "paths") as [paths|]; [|discriminate]. simpl.
  destruct (negb (Js.truthy_opt paths)); [discriminate|].
  destruct (Js.Object_keys (Js.or_else paths JNull)) as [pathKeys|];
    [|discriminate]. simpl.
  destruct (foldM (visit_path doc) pathKeys []) as [eps|] eqn:Ef;
    [|discriminate]. simpl.
  destruct (Js.get_prop doc "info") as [inf|]; [|discriminate]. simpl.
  intros [= <-]. simpl. intros Hin.
  assert (Hall : Forall good eps).
  { apply (foldM_invariant (Forall good) (visit_path doc) pathKeys
             (fun a x a' _ Ha E => Hp a x a' Ha E) [] eps);
      [constructor | exact Ef]. }
  rewrite Forall_forall in Hall. apply (Hall ep Hin).
Qed.

(** X10.  Endpoints of an accepted catalog are shown with the colour
    of their method, never with the fallback colour. *)
Theorem catalog_methods_have_a_colour (doc : json) (spec : ParsedSpec)
        (ep : Endpoint.t) :
  buildCatalog doc = Normal spec ->
  In ep (endpoints spec) ->
  exists c,
    badge_class (Endpoint.method ep) = Some c
    /\ JsObject.get badge_colors (Str.toLowerCase (Endpoint.method ep)) = Some c
    /\ c <> "bg-slate-100".
Proof.
  intros Hb Hin.
  destruct (catalog_descriptors doc spec ep Hb Hin) as [_ [Hr _]].
  unfold recognized, Str.mem, verbs in Hr. simpl in Hr.
  unfold badge_class.
  repeat (apply orb_true_iff in Hr; destruct Hr as [Hr | Hr];
          [apply String.eqb_eq in Hr; rewrite Hr; simpl;
           eexists; repeat split; discriminate|]).
  discriminate.
Qed.

End AcceptedCatalogs.

(** ** Documents the import rejects, and the selection of an endpoint *)

Section CatalogUse.
Context `{Platform}.

Lemma null_operation_throws (doc : json) (paths methods : list (string * json))
      (path m : string) :
  Js.get_prop doc "paths" = Normal (Some (JObj paths)) ->
  JsObject.get paths path = Some (JObj methods) ->
  JsObject.get methods m = Some JNull ->
  recognized m = true ->
  forall acc, exists message, visit_method doc path acc m = Throw message.
Proof.
  intros Hpaths Hitem Hm Hr acc. unfold visit_method, path_item.
  rewrite Hr, Hpaths. simpl. rewrite Hitem. simpl. rewrite Hm. simpl.
  eexists. reflexivity.
Qed.

Lemma broken_path_item_throws (doc : json) (paths : list (string * json))
      (path : string) (item : json) :
  Js.get_prop doc "paths" = Normal (Some (JObj paths)) ->
  JsObject.get paths path = Some item ->
  item = JNull
  \/ (exists methods m,
         item = JObj methods
         /\ NoDup (JsObject.keys methods)
         /\ In (m, JNull) methods
         /\ recognized m = true) ->
  forall acc, exists message, visit_path doc acc path = Throw message.
Proof.
  intros Hpaths Hitem Hbroken acc. unfold visit_path.
  assert (Hpi : path_item doc path = Normal item).
  { unfold path_item. rewrite Hpaths. simpl. rewrite Hitem. reflexivity. }
  rewrite Hpi. simpl.
  destruct Hbroken as [-> | [methods [m [-> [Hnd [Hin Hr]]]]]].
  - simpl. eexists. reflexivity.
  - simpl. apply (foldM_throws (visit_method doc path) (JsObject.keys methods) m).
    + unfold JsObject.keys. apply in_map_iff. exists (m, JNull). split; [reflexivity | exact Hin].
    + apply (null_operation_throws doc paths methods path m Hpaths Hitem);
        [|exact Hr].
      apply get_In_NoDup; assumption.
Qed.

(** X11.  A document with a [null] path item, or with [null] under a
    recognized method key of a path item, is rejected whatever the
    rest of it holds: the import sets an error message and nothing
    else, not even the operations that came before the broken one
    reach the catalog. *)
Theorem null_path_item_rejects_document (s : AppState) (doc : json)
        (paths : list (string * json)) (path : string) (item : json) :
  JSON_parse (specInput s) = Normal doc ->
  Js.get_prop doc "paths" = Normal (Some (JObj paths)) ->
  NoDup (JsObject.keys paths) ->
  In (path, item) paths ->
  item = JNull
  \/ (exists methods m,
         item = JObj methods
         /\ NoDup (JsObject.keys methods)
         /\ In (m, JNull) methods
         /\ recognized m = true) ->
  exists message, handleSpecParse s = setError message s.
Proof.
  intros Hparse Hpaths Hnd Hin Hbroken.
  assert (Hget : JsObject.get paths path = Some item)
    by (apply get_In_NoDup; assumption).
  destruct (foldM_throws (visit_path doc) (JsObject.keys paths) path) with (a := @nil Endpoint.t)
    as [message Hm].
  - unfold JsObject.keys. apply in_map_iff. exists (path, item).
    split; [reflexivity | exact Hin].
  - apply (broken_path_item_throws doc paths path item Hpaths Hget Hbroken).
  - exists message. unfold handleSpecParse, buildCatalog.
    rewrite Hparse. simpl. rewrite Hpaths. simpl. rewrite Hm. reflexivity.
Qed.

Lemma find_by_key {A : Type} (f : A -> string) (l : list A) (e : A) :
  NoDup (map f l) -> In e l ->
  find (fun x => String.eqb (f x) (f e)) l = Some e.
Proof.
  induction l as [|x l IH]; simpl; intros Hnd Hin; [contradiction|].
  inversion Hnd as [|? ? Hnotin Hnd']; subst.
  destruct Hin as [-> | Hin].
  - rewrite String.eqb_refl. reflexivity.
  - destruct (String.eqb (f x) (f e)) eqn:E.
    + apply String.eqb_eq in E. exfalso. apply Hnotin. rewrite E.
      apply in_map. exact Hin.
    + apply IH; assumption.
Qed.

Lemma catalog_ids_distinct (doc : json) (paths : list (string * json))
      (spec : ParsedSpec) :
  valid_spec doc paths ->
  buildCatalog doc = Normal spec ->
  NoDup (map Endpoint.id (endpoints spec)).
Proof.
  intros [Hpaths [Hnd Hvalid]] Hb.
  destruct (visit_paths doc paths Hpaths Hnd paths (incl_refl _) Hvalid [])
    as [eps [Hfold Hdesc]].
  unfold buildCatalog in Hb. rewrite Hpaths in Hb. simpl in Hb.
  rewrite Hfold in Hb. simpl in Hb.
  destruct (Js.get_prop doc "info") as [inf|]; [|discriminate].
  simpl in Hb. injection Hb as <-. simpl.
  destruct (describes_maps _ _ Hdesc) as [_ Hids]. rewrite Hids.
  apply NoDup_map_NoDup_ForallPairs;
    [|apply operations_NoDup; assumption].
  intros [p1 m1] [p2 m2] H1 H2 E. simpl in E.
  apply operations_recognized in H1, H2.
  destruct (id_injective m1 m2 p1 p2 (recognized_no_hyphen _ H1)
              (recognized_no_hyphen _ H2) E) as [-> ->].
  reflexivity.
Qed.

(** X12.  With the catalog of a valid document loaded, choosing the
    option of an endpoint in the selector selects that very endpoint
    (the lookup by id cannot land on another one), empties the form
    and drops the previous response. *)
Theorem selector_finds_the_chosen_endpoint (doc : json)
        (paths : list (string * json)) (spec : ParsedSpec)
        (s : AppState) (ep : Endpoint.t) :
  valid_spec doc paths ->
  buildCatalog doc = Normal spec ->
  parsedSpec s = Some spec ->
  In ep (endpoints spec) ->
  selectedEndpoint (selectOption (Endpoint.id ep) s) = Some ep
  /\ formData (selectOption (Endpoint.id ep) s) = []
  /\ manualResponse (selectOption (Endpoint.id ep) s) = None.
Proof.
  intros Hv Hb Hs Hin. unfold selectOption, findEndpoint. rewrite Hs.
  rewrite (find_by_key Endpoint.id (endpoints spec) ep
             (catalog_ids_distinct doc paths spec Hv Hb) Hin).
  repeat split.
Qed.

End CatalogUse.

(** ** The request of a call *)

Section RequestFacts.
Context `{Platform}.

Lemma get_header_fold (hs : list Header) (acc : JsObject.t string) (k : string) :
  JsObject.get
    (fold_left (fun acc h => JsObject.define (key h) (value h)
                               (JsObject.spread acc [])) hs acc) k
  = match header_value k hs with
    | Some v => Some v
    | None => JsObject.get acc k
    end.
Proof.
  revert acc. induction hs as [|h r IH]; intros acc; simpl; [reflexivity|].
  rewrite IH. destruct (header_value k r); [reflexivity|].
  rewrite get_define, get_spread. simpl.
  destruct (String.eqb k (key h)); [reflexivity|].
  destruct (JsObject.get acc k); reflexivity.
Qed.

(** X13.  The header sent under each name: [Authorization] carries
    the token whenever the configuration has one, whatever the
    configured headers say; any other name carries the value of the
    last configured header of that name; [Content-Type] falls back
    to [application/json]; no other header is sent. *)
Theorem request_header_lookup (cfg : Config) (k : string) :
  JsObject.get (request_headers cfg) k
  = if String.eqb k "Authorization" && Str.nonempty (token cfg)
    then Some ("Bearer " ++ token cfg)%string
    else match header_value k (headers cfg) with
         | Some v => Some v
         | None => if String.eqb k "Content-Type"
                   then Some "application/json"%string
                   else None
         end.
Proof.
  unfold request_headers.
  assert (Hs : JsObject.get
                 (JsObject.spread
                    (fold_left (fun acc h => JsObject.define (key h) (value h)
                                               (JsObject.spread acc []))
                               (headers cfg) [])
                    (JsObject.define "Content-Type" "application/json"%string []))
                 k
               = match header_value k (headers cfg) with
                 | Some v => Some v
                 | None => if String.eqb k "Content-Type"
                           then Some "application/json"%string
                           else None
                 end).
  { rewrite get_spread, get_header_fold, get_define. simpl.
    destruct (header_value k (headers cfg)); reflexivity. }
  destruct (Str.nonempty (token cfg)).
  - rewrite get_assign, Hs. simpl. rewrite andb_true_r.
    destruct (String.eqb k "Authorization"); reflexivity.
  - rewrite Hs, andb_false_r. reflexivity.
Qed.

Lemma foldM_same_throw {B C : Type} (f : B -> json -> completion B)
      (g : C -> json -> completion C) (m : string) (l : list json) :
  (forall a, f a JNull = Throw m) ->
  (forall a x, In x l -> x <> JNull -> exists a', f a x = Normal a') ->
  (forall b, g b JNull = Throw m) ->
  (forall b x, In x l -> x <> JNull -> exists b', g b x = Normal b') ->
  forall a b m', foldM f l a = Throw m' -> foldM g l b = Throw m'.
Proof.
  intros Hf Hfn Hg Hgn.
  induction l as [|x l IH]; intros a b m'; simpl; [discriminate|].
  destruct (f a x) as [a'|mf] eqn:Ef; simpl.
  - assert (Hx : x <> JNull).
    { intros ->. rewrite Hf in Ef. discriminate. }
    destruct (Hgn b x (or_introl eq_refl) Hx) as [b' ->]. simpl. apply IH.
    + intros a0 y Hy. apply Hfn. right. exact Hy.
    + intros b0 y Hy. apply Hgn. right. exact Hy.
  - intros [= <-].
    assert (Hx : x = JNull).
    { destruct x; try reflexivity;
        match goal with
        | _ : f a ?v = Throw _ |- _ =>
            destruct (Hfn a v (or_introl eq_refl) ltac:(discriminate))
              as [a' Ea]; congruence
        end. }
    subst x. rewrite Hf in Ef. injection Ef as <-. rewrite Hg. reflexivity.
Qed.

Lemma forEach_same_throw {B C : Type} (f : B -> json -> completion B)
      (g : C -> json -> completion C) (m : string) (parameters : json) :
  (forall a, f a JNull = Throw m) ->
  (forall params a x, parameters = JArr params -> In x params -> x <> JNull ->
                      exists a', f a x = Normal a') ->
  (forall b, g b JNull = Throw m) ->
  (forall params b x, parameters = JArr params -> In x params -> x <> JNull ->
                      exists b', g b x = Normal b') ->
  forall a b m', forEach_parameter parameters f a = Throw m' ->
                 forEach_parameter parameters g b = Throw m'.
Proof.
  intros Hf Hfn Hg Hgn a b m'. unfold forEach_parameter.
  destruct (Js.truthy parameters); [|discriminate].
  destruct parameters; try (intros [= <-]; reflexivity).
  apply (foldM_same_throw f g m); try assumption.
  - intros a0 x. apply (Hfn l a0 x eq_refl).
  - intros b0 x. apply (Hgn l b0 x eq_refl).
Qed.

Lemma no_inherited_member (data : Row) (name : option json) :
  Str.mem (Js.to_String_opt name) Object_prototype_names = false ->
  inherited_member data name = None.
Proof.
  intros Hn. unfold inherited_member. rewrite Hn.
  destruct (value_of data name); reflexivity.
Qed.

Lemma path_callback_total (data : Row) (url : string) (x : json) :
  x <> JNull ->
  Str.mem (Js.to_String_opt (Js.get_opt (Some x) "name"))
          Object_prototype_names = false ->
  exists url',
    (let* loc := Js.get_prop x "in" in
     if Js.is_string loc "path" then
       let* name := Js.get_prop x "name" in
       match inherited_member data name with
       | Some member =>
           replace_by_member url ("{" ++ Js.to_String_opt name ++ "}")%string
             member
       | None =>
           Normal (String_replace url
                     ("{" ++ Js.to_String_opt name ++ "}")%string
                     (Js.to_String (Js.or_else (value_of data name)
                                               (JStr EmptyString))))
       end
     else Normal url) = Normal url'.
Proof.
  intros Hx Hn.
  destruct (get_prop_not_null x "in" Hx) as [loc ->]. simpl.
  destruct (Js.is_string loc "path"); [|eexists; reflexivity].
  destruct (get_prop_not_null x "name" Hx) as [name En].
  rewrite (get_opt_not_null x "name" name En) in Hn.
  rewrite En. simpl. rewrite (no_inherited_member data name Hn).
  eexists; reflexivity.
Qed.

Lemma query_callback_total (data : Row) (qs : list (string * string)) (x : json) :
  x <> JNull ->
  exists qs',
    (let* loc := Js.get_prop x "in" in
     if Js.is_string loc "query" then
       let* name := Js.get_prop x "name" in
       match inherited_member data name with
       | Some member =>
           Normal (qs ++ [(Js.to_String_opt name, member_text member)])
       | None =>
           if Js.truthy_opt (value_of data name) then
             Normal (qs ++ [(Js.to_String_opt name,
                             Js.to_String_opt (value_of data name))])
           else Normal qs
       end
     else Normal qs) = Normal qs'.
Proof.
  intros Hx.
  destruct (get_prop_not_null x "in" Hx) as [loc ->]. simpl.
  destruct (Js.is_string loc "query"); [|eexists; reflexivity].
  destruct (get_prop_not_null x "name" Hx) as [name ->]. simpl.
  destruct (inherited_member data name); [eexists; reflexivity|].
  destruct (Js.truthy_opt (value_of data name)); eexists; reflexivity.
Qed.

Lemma bind_path_throw (parameters : json) (data data' : Row)
      (url url' m : string) :
  plain_names parameters ->
  bind_path parameters data url = Throw m ->
  bind_path parameters data' url' = Throw m.
Proof.
  intros Hplain. unfold bind_path.
  apply (forEach_same_throw _ _ (TypeError_message (ReadOfNull "in"))).
  - reflexivity.
  - intros params a x E Hin Hx.
    apply path_callback_total; [exact Hx | apply (Hplain params x E Hin)].
  - reflexivity.
  - intros params a x E Hin Hx.
    apply path_callback_total; [exact Hx | apply (Hplain params x E Hin)].
Qed.

Lemma query_pairs_throw (parameters : json) (data data' : Row) (m : string) :
  query_pairs parameters data = Throw m ->
  query_pairs parameters data' = Throw m.
Proof.
  unfold query_pairs.
  apply (forEach_same_throw _ _ (TypeError_message (ReadOfNull "in"))).
  - reflexivity.
  - intros params a x _ _. apply query_callback_total.
  - reflexivity.
  - intros params a x _ _. apply query_callback_total.
Qed.

Lemma request_url_throw (cfg cfg' : Config) (endpoint : Endpoint.t)
      (data data' : Row) (m : string) :
  plain_names (Endpoint.parameters endpoint) ->
  request_url cfg endpoint data = Throw m ->
  request_url cfg' endpoint data' = Throw m.
Proof.
  intros Hplain. unfold request_url.
  set (u := (Str.drop_last "/"%char (baseUrl cfg) ++ Endpoint.path endpoint)%string).
  set (u' := (Str.drop_last "/"%char (baseUrl cfg') ++ Endpoint.path endpoint)%string).
  destruct (bind_path (Endpoint.parameters endpoint) data u) as [b|mb] eqn:Eb;
    simpl.
  - destruct (bind_path (Endpoint.parameters endpoint) data' u') as [b'|mb'] eqn:Eb';
      simpl.
    + destruct (query_pairs (Endpoint.parameters endpoint) data) as [q|mq] eqn:Eq;
        simpl; [discriminate|].
      intros [= <-].
      rewrite (query_pairs_throw _ data data' mq Eq). reflexivity.
    + rewrite (bind_path_throw _ data' data u' u mb' Hplain Eb') in Eb.
      discriminate.
  - intros [= <-].
    rewrite (bind_path_throw _ data data' u u' mb Hplain Eb). reflexivity.
Qed.

Lemma request_url_normal (cfg cfg' : Config) (endpoint : Endpoint.t)
      (data data' : Row) (u : string) :
  plain_names (Endpoint.parameters endpoint) ->
  request_url cfg endpoint data = Normal u ->
  exists u', request_url cfg' endpoint data' = Normal u'.
Proof.
  intros Hplain Hu. destruct (request_url cfg' endpoint data') as [u'|m] eqn:E.
  - eexists; reflexivity.
  - rewrite (request_url_throw cfg' cfg endpoint data' data m Hplain E) in Hu.
    discriminate.
Qed.

Lemma request_body_throw (endpoint : Endpoint.t) (data data' : Row) (m : string) :
  request_body endpoint data = Throw m ->
  request_body endpoint data' = Throw m.
Proof.
  unfold request_body. destruct (sends_body endpoint); [|discriminate].
  destruct (pathParams (Endpoint.parameters endpoint)) as [ps|mp]; simpl;
    [|intros E; exact E].
  destruct (bodyFields endpoint (Js.or_else (Endpoint.requestBody endpoint) JNull))
    as [fs|mf]; simpl; [discriminate | intros E; exact E].
Qed.

Lemma prepare_throw (cfg cfg' : Config) (endpoint : Endpoint.t)
      (data data' : Row) (m : string) :
  plain_names (Endpoint.parameters endpoint) ->
  prepare cfg endpoint data = Throw m ->
  prepare cfg' endpoint data' = Throw m.
Proof.
  intros Hplain. unfold prepare.
  destruct (request_url cfg endpoint data) as [u|mu] eqn:Eu; simpl.
  - destruct (request_url_normal cfg cfg' endpoint data data' u Hplain Eu)
      as [u' ->].
    simpl.
    destruct (request_body endpoint data) as [b|mb] eqn:Eb; simpl;
      [discriminate|].
    intros [= <-]. rewrite (request_body_throw endpoint data data' mb Eb).
    reflexivity.
  - intros [= <-].
    rewrite (request_url_throw cfg cfg' endpoint data data' mu Hplain Eu).
    reflexivity.
Qed.

(** X14.  For an endpoint whose parameters are not named like
    members of [Object.prototype], whether a request can be built
    depends on the endpoint alone: when building it throws for one row
    and one configuration, it throws the same error for every row and
    every configuration, before anything is sent.  (A path parameter
    named [valueOf], say, makes the request of a row without that
    column throw, and not the request of a row with it.) *)
Theorem request_failure_ignores_the_row (fetch fetch' : Network)
        (cfg cfg' : Config) (endpoint : Endpoint.t) (data data' : Row)
        (m : string) :
  plain_names (Endpoint.parameters endpoint) ->
  executeRequest fetch cfg endpoint data = Throw m ->
  executeRequest fetch' cfg' endpoint data' = Throw m.
Proof.
  intros Hplain. unfold executeRequest.
  destruct (prepare cfg endpoint data) as [req|mp] eqn:Ep; simpl; [discriminate|].
  intros [= <-].
  rewrite (prepare_throw cfg cfg' endpoint data data' mp Hplain Ep).
  reflexivity.
Qed.

(** X15.  For an endpoint whose parameters are not named like members
    of [Object.prototype], a batch run stops at a row whose request
    cannot be built, and then it is the first row that stops it: no
    result is published, the promise rejects, and the state is left
    with the run marked as running and the results empty. *)
Theorem batch_stops_before_the_first_result (fetch : nat -> Network)
        (s : AppState) (endpoint : Endpoint.t) (row : Row) (m : string) :
  selectedEndpoint s = Some endpoint ->
  plain_names (Endpoint.parameters endpoint) ->
  In row (batchData s) ->
  prepare (config s) endpoint row = Throw m ->
  runBatchTest fetch s
  = {| published := [];
       final := setBatchResults [] (setBatchRunning true s);
       rejection := Some m |}
  /\ batchRunning (final (runBatchTest fetch s)) = true
  /\ batchResults (final (runBatchTest fetch s)) = [].
Proof.
  intros Hsel Hplain Hin Hp.
  assert (Hrun : runBatchTest fetch s
                 = {| published := [];
                      final := setBatchResults [] (setBatchRunning true s);
                      rejection := Some m |}).
  { unfold runBatchTest. rewrite Hsel.
    destruct (batchData s) as [|row0 rest] eqn:Ed; [contradiction|].
    simpl. unfold executeRequest.
    rewrite (prepare_throw (config s) (config s) endpoint row row0 m Hplain Hp).
    reflexivity. }
  rewrite Hrun. repeat split.
Qed.

End RequestFacts.

(** ** The inputs of the form *)

Section FormFacts.
Context `{Platform}.

Lemma push_parameter_loop (params : list json) :
  forall acc fields,
    foldM push_parameter params acc = Normal fields ->
    exists added,
      fields = acc ++ added
      /\ map (fun f => (ff_name f, ff_label f)) added
         = map (fun p => (Js.get_opt (Some p) "name",
                          (Js.to_String_opt (Js.get_opt (Some p) "name")
                             ++ " (Path)")%string)) params
      /\ Forall (fun f => ff_isBody f = false) added.
Proof.
  induction params as [|p params IH]; intros acc fields; cbn -[Js.get_opt Js.get_prop].
  - intros [= <-]. exists []. rewrite app_nil_r. repeat split. constructor.
  - unfold push_parameter at 1.
    destruct (Js.get_prop p "name") as [name|] eqn:En; [|discriminate]. cbn -[Js.get_opt Js.get_prop].
    destruct (Js.get_prop p "required") as [required|]; [|discriminate]. cbn -[Js.get_opt Js.get_prop].
    destruct (Js.get_prop p "in") as [loc|]; [|discriminate]. cbn -[Js.get_opt Js.get_prop].
    destruct (Js.get_prop p "description") as [desc|]; [|discriminate]. cbn -[Js.get_opt Js.get_prop].
    intros Hf. destruct (IH _ _ Hf) as [added [-> [Hl Hb]]].
    eexists (_ :: added). split; [rewrite <- app_assoc; reflexivity|].
    cbn -[Js.get_opt Js.get_prop]. rewrite Hl, (get_opt_not_null p "name" name En).
    split; [reflexivity|]. constructor; [reflexivity | exact Hb].
Qed.

Lemma push_query_loop (params : list json) :
  forall acc fields,
    foldM push_query params acc = Normal fields ->
    exists added,
      fields = acc ++ added
      /\ map (fun f => (ff_name f, ff_label f)) added
         = map (fun p => (Js.get_opt (Some p) "name",
                          (Js.to_String_opt (Js.get_opt (Some p) "name")
                             ++ " (Query)")%string))
               (filter (fun p => Js.is_string (Js.get_opt (Some p) "in") "query")
                       params)
      /\ Forall (fun f => ff_isBody f = false) added.
Proof.
  induction params as [|p params IH]; intros acc fields; cbn -[Js.get_opt Js.get_prop].
  - intros [= <-]. exists []. rewrite app_nil_r. repeat split. constructor.
  - unfold push_query at 1.
    destruct (Js.get_prop p "in") as [loc|] eqn:El; [|discriminate]. cbn -[Js.get_opt Js.get_prop].
    rewrite (get_opt_not_null p "in" loc El).
    destruct (Js.is_string loc "query").
    + destruct (Js.get_prop p "name") as [name|] eqn:En; [|discriminate]. cbn -[Js.get_opt Js.get_prop].
      destruct (Js.get_prop p "required") as [required|]; [|discriminate]. cbn -[Js.get_opt Js.get_prop].
      destruct (Js.get_prop p "description") as [desc|]; [|discriminate]. cbn -[Js.get_opt Js.get_prop].
      intros Hf. destruct (IH _ _ Hf) as [added [-> [Hl Hb]]].
      eexists (_ :: added). split; [rewrite <- app_assoc; reflexivity|].
      cbn -[Js.get_opt Js.get_prop]. rewrite Hl, (get_opt_not_null p "name" name En).
      split; [reflexivity|]. constructor; [reflexivity | exact Hb].
    + intros Hf. apply (IH _ _ Hf).
Qed.

Lemma push_body_adds (ep : Endpoint.t) (acc fields : list FormField) :
  push_body ep acc = Normal fields ->
  exists added,
    fields = acc ++ added
    /\ Forall (fun f => ff_isBody f = true) added
    /\ (sends_body ep = false -> added = [])
    /\ (sends_body ep = true ->
        exists bodyFields0,
          bodyFields ep (Js.or_else (Endpoint.requestBody ep) JNull)
          = Normal (map f_name bodyFields0)
          /\ added = map body_input bodyFields0).
Proof.
  unfold push_body, bodyFields.
  destruct (sends_body ep).
  - destruct (Js.get_prop (Js.or_else (Endpoint.requestBody ep) JNull) "content")
      as [content|]; [|discriminate]. simpl.
    destruct (Js.truthy_opt
                (Js.get_opt (Js.get_opt content "application/json") "schema")).
    + destruct (extractFieldsFromSchema _ (Endpoint.definitions ep))
        as [fs|]; [|discriminate]. simpl.
      intros [= <-]. exists (map body_input fs).
      split; [reflexivity|]. split; [|split; [discriminate|]].
      * apply Forall_forall. intros f Hf. apply in_map_iff in Hf.
        destruct Hf as [x [<- _]]. reflexivity.
      * intros _. exists fs. split; reflexivity.
    + intros [= <-]. exists []. rewrite app_nil_r.
      split; [reflexivity|]. split; [constructor|]. split; [reflexivity|].
      intros _. exists []. split; reflexivity.
  - intros [= <-]. exists []. rewrite app_nil_r.
    split; [reflexivity|]. split; [constructor|]. split; [reflexivity|].
    discriminate.
Qed.

Lemma filter_none {A : Type} (f : A -> bool) (l : list A) :
  Forall (fun x => f x = false) l -> filter f l = [].
Proof.
  induction 1 as [|x l Hx _ IH]; simpl; [reflexivity|]. rewrite Hx. exact IH.
Qed.

Lemma filter_every {A : Type} (f : A -> bool) (l : list A) :
  Forall (fun x => f x = true) l -> filter f l = l.
Proof.
  intros Hall. apply filter_all. apply Forall_forall. exact Hall.
Qed.

(** X16.  The form shows one input for every parameter of the
    endpoint, whatever its location, all labelled as path parameters,
    then a second input for every query parameter, labelled as a query
    parameter and bound to the same name. *)
Theorem form_inputs_of_parameters (ep : Endpoint.t) (params : list json)
        (fields : list FormField) :
  Endpoint.parameters ep = JArr params ->
  endpointFields ep = Normal fields ->
  map (fun f => (ff_name f, ff_label f))
      (filter (fun f => negb (ff_isBody f)) fields)
  = map (fun p => (Js.get_opt (Some p) "name",
                   (Js.to_String_opt (Js.get_opt (Some p) "name")
                      ++ " (Path)")%string)) params
    ++ map (fun p => (Js.get_opt (Some p) "name",
                      (Js.to_String_opt (Js.get_opt (Some p) "name")
                         ++ " (Query)")%string))
           (filter (fun p => Js.is_string (Js.get_opt (Some p) "in") "query")
                   params).
Proof.
  intros Hp. unfold endpointFields. rewrite Hp. simpl.
  destruct (foldM push_parameter params []) as [first|] eqn:E1; [|discriminate].
  simpl.
  destruct (foldM push_query params first) as [second|] eqn:E2; [|discriminate].
  simpl. intros Hb.
  destruct (push_parameter_loop _ _ _ E1) as [a1 [-> [Hl1 Hb1]]].
  destruct (push_query_loop _ _ _ E2) as [a2 [-> [Hl2 Hb2]]].
  destruct (push_body_adds _ _ _ Hb) as [a3 [-> [Hb3 _]]].
  simpl. rewrite !filter_app.
  rewrite (filter_every _ a1), (filter_every _ a2), (filter_none _ a3).
  - rewrite app_nil_r, map_app, Hl1, Hl2. reflexivity.
  - eapply Forall_impl; [|exact Hb3]. intros f ->. reflexivity.
  - eapply Forall_impl; [|exact Hb2]. intros f ->. reflexivity.
  - eapply Forall_impl; [|exact Hb1]. intros f ->. reflexivity.
Qed.

Lemma mem_In (k : string) (l : list string) : In k l -> Str.mem k l = true.
Proof.
  intros Hin. unfold Str.mem. apply existsb_exists. exists k.
  split; [exact Hin | apply String.eqb_refl].
Qed.

(** X17.  The body inputs of the form are the fields the request
    admits into its body: for an endpoint that sends a body, the
    names of the inputs marked as body inputs are the field names
    the request computes, and what the user types into such an input
    is sent in the body, unless the name is also the name of a
    parameter or is [__proto__]. *)
Theorem form_body_inputs_reach_the_body (ep : Endpoint.t)
        (fields : list FormField) :
  sends_body ep = true ->
  endpointFields ep = Normal fields ->
  exists names,
    bodyFields ep (Js.or_else (Endpoint.requestBody ep) JNull) = Normal names
    /\ map ff_name (filter ff_isBody fields)
       = map (fun n => Some (JStr n)) names
    /\ forall n params data,
         In n names ->
         Js.includes_key params n = false ->
         n <> "__proto__"%string ->
         JsObject.get (bodyData params names data) n = JsObject.get data n.
Proof.
  intros Hs. unfold endpointFields.
  destruct (forEach_optional (Endpoint.parameters ep) push_parameter [])
    as [first|] eqn:E1; [|discriminate]. simpl.
  destruct (forEach_optional (Endpoint.parameters ep) push_query first)
    as [second|] eqn:E2; [|discriminate]. simpl.
  intros Hb.
  assert (H1 : Forall (fun f => ff_isBody f = false) first).
  { unfold forEach_optional in E1.
    destruct (Endpoint.parameters ep); try discriminate.
    - injection E1 as <-. constructor.
    - destruct (push_parameter_loop _ _ _ E1) as [a1 [-> [_ Hb1]]]. exact Hb1. }
  assert (H2 : Forall (fun f => ff_isBody f = false) second).
  { unfold forEach_optional in E2.
    destruct (Endpoint.parameters ep); try discriminate.
    - injection E2 as <-. exact H1.
    - destruct (push_query_loop _ _ _ E2) as [a2 [-> [_ Hb2]]].
      apply Forall_app. split; assumption. }
  destruct (push_body_adds _ _ _ Hb) as [a3 [-> [Hb3 [_ Hsend]]]].
  destruct (Hsend Hs) as [fs [Hfields ->]].
  exists (map f_name fs). split; [exact Hfields|]. split.
  - rewrite filter_app, (filter_none _ second H2). simpl.
    rewrite (filter_every _ _ Hb3), !map_map. reflexivity.
  - intros n params data Hin Hnp Hproto.
    rewrite get_bodyData. unfold goes_in_body.
    rewrite Hnp, (mem_In n _ Hin), orb_true_r. simpl.
    destruct (String.eqb n "__proto__") eqn:E; [|reflexivity].
    apply String.eqb_eq in E. contradiction.
Qed.

End FormFacts.

(** ** Values that are sent nowhere *)

Section UnsentValues.
Context `{Platform}.

Lemma keys_insert_without {V : Type} (n : string) (v : V) (o : JsObject.t V) :
  filter (fun k => negb (String.eqb k n)) (JsObject.keys (JsObject.insert n v o))
  = filter (fun k => negb (String.eqb k n)) (JsObject.keys o).
Proof.
  unfold JsObject.keys. induction o as [|[k0 v0] r IH]; simpl.
  - rewrite String.eqb_refl. reflexivity.
  - destruct (JsObject.precedes n k0); simpl.
    + rewrite String.eqb_refl. reflexivity.
    + rewrite IH. reflexivity.
Qed.

Lemma keys_define_without {V : Type} (n : string) (v : V) (o : JsObject.t V) :
  filter (fun k => negb (String.eqb k n)) (JsObject.keys (JsObject.define n v o))
  = filter (fun k => negb (String.eqb k n)) (JsObject.keys o).
Proof.
  unfold JsObject.define. destruct (JsObject.has o n).
  - rewrite keys_update. reflexivity.
  - apply keys_insert_without.
Qed.

Lemma fold_skip {A : Type} (step : A -> string -> A) (n : string)
      (ks : list string) :
  (forall a, step a n = a) ->
  forall acc,
    fold_left step ks acc
    = fold_left step (filter (fun k => negb (String.eqb k n)) ks) acc.
Proof.
  intros Hn. induction ks as [|k ks IH]; intros acc; simpl; [reflexivity|].
  destruct (String.eqb k n) eqn:E; simpl.
  - apply String.eqb_eq in E. subst k. rewrite Hn. apply IH.
  - apply IH.
Qed.

Lemma fold_ext_in {A B : Type} (f g : A -> B -> A) (l : list B) :
  (forall a x, In x l -> f a x = g a x) ->
  forall acc, fold_left f l acc = fold_left g l acc.
Proof.
  induction l as [|x l IH]; intros Hfg acc; simpl; [reflexivity|].
  rewrite (Hfg acc x (or_introl eq_refl)). apply IH.
  intros a y Hy. apply Hfg. right. exact Hy.
Qed.

Lemma bodyData_define_excluded (params : list (option json))
      (fields : list string) (data : Row) (n : string) (v : json) :
  Js.includes_key params n = true ->
  bodyData params fields (JsObject.define n v data) = bodyData params fields data.
Proof.
  intros Hn. unfold bodyData.
  rewrite (fold_skip _ n (JsObject.keys (JsObject.define n v data)));
    [|intros a; rewrite Hn; reflexivity].
  rewrite (fold_skip _ n (JsObject.keys data));
    [|intros a; rewrite Hn; reflexivity].
  rewrite keys_define_without.
  apply fold_ext_in. intros a k Hk. apply filter_In in Hk.
  destruct Hk as [_ Hk]. apply negb_true_iff in Hk.
  rewrite get_define, Hk. reflexivity.
Qed.

Lemma foldM_ext {A B : Type} (f g : B -> A -> completion B) (l : list A) :
  (forall a x, In x l -> f a x = g a x) ->
  forall a, foldM f l a = foldM g l a.
Proof.
  induction l as [|x l IH]; intros Hfg a; simpl; [reflexivity|].
  rewrite (Hfg a x (or_introl eq_refl)).
  destruct (g a x) as [b|m]; simpl; [|reflexivity].
  apply IH. intros a0 y Hy. apply Hfg. right. exact Hy.
Qed.

Lemma mapM_In {A B : Type} (f : A -> completion B) (l : list A) (ys : list B)
      (x : A) (y : B) :
  mapM f l = Normal ys -> In x l -> f x = Normal y -> In y ys.
Proof.
  revert ys. induction l as [|a l IH]; intros ys; simpl; [contradiction|].
  destruct (f a) as [b|] eqn:Ea; simpl; [|discriminate].
  destruct (mapM f l) as [bs|]; simpl; [|discriminate].
  intros [= <-] [-> | Hin] Hx.
  - left. congruence.
  - right. apply (IH bs eq_refl Hin Hx).
Qed.

Lemma value_of_define_other (data : Row) (n : string) (v : json)
      (name : option json) :
  Js.to_String_opt name <> n ->
  value_of (JsObject.define n v data) name = value_of data name.
Proof.
  intros Hne. unfold value_of. rewrite get_define.
  destruct (String.eqb (Js.to_String_opt name) n) eqn:E; [|reflexivity].
  apply String.eqb_eq in E. contradiction.
Qed.

Lemma inherited_member_define_other (data : Row) (n : string) (v : json)
      (name : option json) :
  Js.to_String_opt name <> n ->
  inherited_member (JsObject.define n v data) name = inherited_member data name.
Proof.
  intros Hne. unfold inherited_member.
  rewrite (value_of_define_other data n v name Hne). reflexivity.
Qed.

Lemma bind_path_define_other (params : list json) (n : string) (v : json)
      (data : Row) (url : string) :
  (forall q, In q params ->
             Js.to_String_opt (Js.get_opt (Some q) "name") = n ->
             Js.is_string (Js.get_opt (Some q) "in") "path" = false) ->
  bind_path (JArr params) (JsObject.define n v data) url
  = bind_path (JArr params) data url.
Proof.
  intros Hother. unfold bind_path, forEach_parameter.
  cbn -[Js.get_opt Js.get_prop JsObject.define].
  apply foldM_ext. intros a q Hq.
  destruct (Js.get_prop q "in") as [loc|] eqn:El; [|reflexivity].
  cbn -[Js.get_opt Js.get_prop JsObject.define].
  destruct (Js.is_string loc "path") eqn:Eq; [|reflexivity].
  destruct (Js.get_prop q "name") as [name|] eqn:En; [|reflexivity].
  cbn -[Js.get_opt Js.get_prop JsObject.define].
  assert (Hne : Js.to_String_opt name <> n).
  { intros E. pose proof (Hother q Hq) as Hq'.
    rewrite (get_opt_not_null q "name" name En),
            (get_opt_not_null q "in" loc El) in Hq'.
    rewrite (Hq' E) in Eq. discriminate. }
  rewrite (value_of_define_other data n v name Hne),
          (inherited_member_define_other data n v name Hne).
  reflexivity.
Qed.

Lemma query_pairs_define_other (params : list json) (n : string) (v : json)
      (data : Row) :
  (forall q, In q params ->
             Js.to_String_opt (Js.get_opt (Some q) "name") = n ->
             Js.is_string (Js.get_opt (Some q) "in") "query" = false) ->
  query_pairs (JArr params) (JsObject.define n v data)
  = query_pairs (JArr params) data.
Proof.
  intros Hother. unfold query_pairs, forEach_parameter.
  cbn -[Js.get_opt Js.get_prop JsObject.define].
  apply foldM_ext. intros a q Hq.
  destruct (Js.get_prop q "in") as [loc|] eqn:El; [|reflexivity].
  cbn -[Js.get_opt Js.get_prop JsObject.define].
  destruct (Js.is_string loc "query") eqn:Eq; [|reflexivity].
  destruct (Js.get_prop q "name") as [name|] eqn:En; [|reflexivity].
  cbn -[Js.get_opt Js.get_prop JsObject.define].
  assert (Hne : Js.to_String_opt name <> n).
  { intros E. pose proof (Hother q Hq) as Hq'.
    rewrite (get_opt_not_null q "name" name En),
            (get_opt_not_null q "in" loc El) in Hq'.
    rewrite (Hq' E) in Eq. discriminate. }
  rewrite (value_of_define_other data n v name Hne),
          (inherited_member_define_other data n v name Hne).
  reflexivity.
Qed.

(** X18.  The value entered for a parameter that is neither a path
    nor a query parameter (a header or cookie parameter, say) is sent
    nowhere: when no path or query parameter goes by the same name,
    the request is the same whatever the value under that name. *)
Theorem other_parameter_value_is_not_sent (cfg : Config) (ep : Endpoint.t)
        (params : list json) (p : json) (n : string) (v : json) (data : Row) :
  Endpoint.parameters ep = JArr params ->
  In p params ->
  Js.get_prop p "name" = Normal (Some (JStr n)) ->
  (forall q, In q params ->
             Js.to_String_opt (Js.get_opt (Some q) "name") = n ->
             Js.is_string (Js.get_opt (Some q) "in") "path" = false
             /\ Js.is_string (Js.get_opt (Some q) "in") "query" = false) ->
  prepare cfg ep (JsObject.define n v data) = prepare cfg ep data.
Proof.
  intros Hp Hin Hname Hother.
  assert (Hurl : request_url cfg ep (JsObject.define n v data)
                 = request_url cfg ep data).
  { unfold request_url. rewrite Hp.
    rewrite bind_path_define_other
      by (intros q Hq E; apply (Hother q Hq E)).
    rewrite query_pairs_define_other
      by (intros q Hq E; apply (Hother q Hq E)).
    reflexivity. }
  assert (Hbody : request_body ep (JsObject.define n v data)
                  = request_body ep data).
  { unfold request_body. destruct (sends_body ep); [|reflexivity].
    rewrite Hp. unfold pathParams.
    destruct (mapM (fun p0 => Js.get_prop p0 "name") params) as [names|] eqn:Em;
      [|reflexivity].
    cbn -[JsObject.define].
    destruct (bodyFields ep _) as [fields|]; [|reflexivity].
    cbn -[JsObject.define].
    rewrite bodyData_define_excluded; [reflexivity|].
    unfold Js.includes_key. apply existsb_exists.
    exists (Some (JStr n)). split.
    - apply (mapM_In _ params names p _ Em Hin Hname).
    - simpl. apply String.eqb_refl. }
  unfold prepare. rewrite Hurl, Hbody. reflexivity.
Qed.

End UnsentValues.

(** ** The list of endpoints under a search *)

Section SearchFacts.
Context `{Platform}.

(** X19.  When no path contains the search text, the list still
    shows the endpoints whose summary contains it, and shows them
    under the notice that no endpoint was found: the notice looks at
    the paths only. *)
Theorem summary_matches_listed_as_not_found (search : string)
        (endpoints : list Endpoint.t) :
  Forall (fun ep => lower_includes (Endpoint.path ep) search = false) endpoints ->
  Forall (fun ep => exists t, Endpoint.summary ep = JStr t) endpoints ->
  noEndpointsFound search endpoints = true
  /\ filterEndpoints search endpoints
     = Normal (filter (fun ep => match Endpoint.summary ep with
                                 | JStr t => lower_includes t search
                                 | _ => false
                                 end) endpoints).
Proof.
  intros Hpath Hsum. split.
  - unfold noEndpointsFound. rewrite (filter_none _ _ Hpath). reflexivity.
  - induction endpoints as [|ep r IH]; [reflexivity|].
    inversion Hpath as [|? ? Hp Hpr]; subst.
    inversion Hsum as [|? ? [t Ht] Hsr]; subst.
    cbn [filterEndpoints filter]. unfold search_match.
    rewrite Hp, Ht. cbn [bind]. rewrite (IH Hpr Hsr). cbn [bind].
    reflexivity.
Qed.

End SearchFacts.

(** ** Marks and progress of a batch run *)

Section BatchMarks.
Context `{Platform}.

(** X20.  A result row is marked PASS exactly when the call was
    answered with a status from 200 to 299 and the body of the
    answer could be read; a call that failed, or whose answer could
    not be read, is marked FAIL with status 0. *)
Theorem pass_mark_means_2xx (i : nat) (row : Row) (r : FetchResult) :
  (JsObject.get (resultRow i row (settle r)) "_success" = Some (JStr "PASS")
   <-> exists res elapsed v,
        r = Resolved res elapsed
        /\ read_body res = Normal v
        /\ (200 <= res_status res <= 299)%Z)
  /\ (isNetworkError (settle r) = true ->
      JsObject.get (resultRow i row (settle r)) "_success" = Some (JStr "FAIL")
      /\ JsObject.get (resultRow i row (settle r)) "_status"
         = Some (JNum (num_of_Z 0))).
Proof.
  rewrite !get_resultRow. cbn [String.eqb Ascii.eqb Bool.eqb].
  cbn -[settle num_of_Z].
  destruct r as [message | res elapsed].
  - cbn -[num_of_Z]. split.
    + split; [discriminate|]. intros [res [elapsed [v [E _]]]]. discriminate.
    + intros _. split; reflexivity.
  - unfold settle. destruct (read_body res) as [v|m] eqn:Er; cbn -[num_of_Z].
    + split; [|discriminate].
      destruct (res_ok res) eqn:Eo.
      * split; [|reflexivity]. intros _. exists res, elapsed, v.
        split; [reflexivity|]. split; [exact Er|].
        apply res_ok_range. exact Eo.
      * split; [discriminate|].
        intros [res' [elapsed' [v' [E [_ Hrange]]]]].
        injection E as <- <-. apply res_ok_range in Hrange. congruence.
    + split.
      * split; [discriminate|].
        intros [res' [elapsed' [v' [E [Hr _]]]]].
        injection E as <- <-. congruence.
      * intros _. split; reflexivity.
Qed.

Lemma progress_steady_table :
  forallb (fun n =>
             forallb (fun k =>
                        SFleb (num_of_Z 0) (progress_after k n)
                        && (SFleb (progress_after k n) (progress_after (S k) n)
                            || (n <=? S k)%nat))
                     (seq 0 n)
             && (SFeqb (progress_after (n - 1) n) (num_of_Z 100) || (n =? 0)%nat))
          (seq 0 101)
  = true.
Proof. vm_compute. reflexivity. Qed.

Lemma progress_steady (n k : nat) :
  n <= 100 -> k < n ->
  SFleb (num_of_Z 0) (progress_after k n) = true
  /\ (S k < n -> SFleb (progress_after k n) (progress_after (S k) n) = true)
  /\ SFeqb (progress_after (n - 1) n) (num_of_Z 100) = true.
Proof.
  intros Hn Hk.
  pose proof progress_steady_table as T.
  rewrite forallb_forall in T.
  assert (Hin : In n (seq 0 101)) by (apply in_seq; lia).
  pose proof (T n Hin) as Tn. apply andb_true_iff in Tn.
  destruct Tn as [Tk Tl].
  rewrite forallb_forall in Tk.
  assert (Hik : In k (seq 0 n)) by (apply in_seq; lia).
  pose proof (Tk k Hik) as Tnk. apply andb_true_iff in Tnk.
  destruct Tnk as [T0 Ts].
  split; [exact T0|]. split.
  - intros Hlt. apply orb_true_iff in Ts. destruct Ts as [Ts | Ts]; [exact Ts|].
    apply Nat.leb_le in Ts. lia.
  - apply orb_true_iff in Tl. destruct Tl as [Tl | Tl]; [exact Tl|].
    apply Nat.eqb_eq in Tl. lia.
Qed.

Lemma batch_loop_final (fetch : nat -> Network) (cfg : Config)
      (endpoint : Endpoint.t) (total : nat) :
  forall (rows : list Row) (i : nat) (results : list Row) (s : AppState),
    (forall row, In row rows -> exists req, prepare cfg endpoint row = Normal req) ->
    rows <> [] ->
    batchProgress (final (batch_loop fetch cfg endpoint total rows i results s))
    = progress_after (i + List.length rows - 1) total
    /\ batchRunning (final (batch_loop fetch cfg endpoint total rows i results s))
       = batchRunning s.
Proof.
  induction rows as [|row rest IH]; intros i results s Hprep Hne;
    [contradiction|].
  destruct (Hprep row (or_introl eq_refl)) as [req Hreq].
  assert (Hexec : executeRequest (fetch i) cfg endpoint row
                  = Normal (settle (fetch i (fst req) (snd req)))).
  { unfold executeRequest. rewrite Hreq. reflexivity. }
  set (o := settle (fetch i (fst req) (snd req))) in *.
  set (results' := results ++ [resultRow i row o]).
  set (s' := setBatchProgress (progress_after i total)
               (setBatchResults results' s)).
  cbn [batch_loop]. rewrite Hexec. fold results'. fold s'. cbn [final].
  destruct rest as [|row1 rest].
  - cbn [batch_loop final List.length].
    replace (i + 1 - 1) with i by lia. split; reflexivity.
  - destruct (IH (S i) results' s' (fun r0 Hr => Hprep r0 (or_intror Hr))
                 ltac:(discriminate)) as [Hp Hr].
    rewrite Hp, Hr. cbn [List.length].
    replace (S i + S (List.length rest) - 1) with (i + S (S (List.length rest)) - 1)
      by lia.
    split; reflexivity.
Qed.

(** X21.  A complete run over at most 100 rows moves the progress
    forward only and ends it at 100 with the run marked as finished:
    the progress values published row after row never decrease, none
    is below 0, and the state the run ends in holds 100. *)
Theorem batch_progress_ends_at_100 (fetch : nat -> Network) (s : AppState)
        (endpoint : Endpoint.t) :
  selectedEndpoint s = Some endpoint ->
  0 < List.length (batchData s) <= 100 ->
  (forall row, In row (batchData s) ->
               exists req, prepare (config s) endpoint row = Normal req) ->
  SFeqb (batchProgress (final (runBatchTest fetch s))) (num_of_Z 100) = true
  /\ batchRunning (final (runBatchTest fetch s)) = false
  /\ forall k p q,
       nth_error (map batchProgress (published (runBatchTest fetch s))) k = Some p ->
       nth_error (map batchProgress (published (runBatchTest fetch s))) (S k)
       = Some q ->
       SFleb (num_of_Z 0) p = true /\ SFleb p q = true.
Proof.
  intros Hsel Hlen Hprep.
  destruct (batch_loop_spec fetch (config s) endpoint
              (List.length (batchData s)) (batchData s) 0 []
              (setBatchResults [] (setBatchRunning true s)) Hprep)
    as [outcomes [_ [_ [Hrej [_ [Hprog _]]]]]].
  assert (Hne : batchData s <> []).
  { intros E. rewrite E in Hlen. simpl in Hlen. lia. }
  destruct (batch_loop_final fetch (config s) endpoint
              (List.length (batchData s)) (batchData s) 0 []
              (setBatchResults [] (setBatchRunning true s)) Hprep Hne)
    as [Hfp _].
  unfold runBatchTest. rewrite Hsel.
  destruct (List.length (batchData s) =? 0)%nat eqn:En;
    [apply Nat.eqb_eq in En; lia|].
  rewrite Hrej. cbn [final published]. split; [|split; [reflexivity|]].
  - change (batchProgress (setBatchRunning false ?x)) with (batchProgress x).
    rewrite Hfp. cbn [Nat.add].
    apply (progress_steady (List.length (batchData s))
             (List.length (batchData s) - 1)); lia.
  - rewrite Hprog. intros k p q Hp Hq.
    assert (Hk : S k < List.length (batchData s)).
    { assert (Hsome : nth_error
                        (map (fun k0 => progress_after (0 + k0)
                                          (List.length (batchData s)))
                             (seq 0 (List.length (batchData s)))) (S k) <> None)
        by congruence.
      apply nth_error_Some in Hsome.
      rewrite length_map, length_seq in Hsome. exact Hsome. }
    rewrite nth_error_map, nth_error_seq in Hp, Hq.
    destruct (Nat.ltb_spec k (List.length (batchData s))) as [_|]; [|lia].
    destruct (Nat.ltb_spec (S k) (List.length (batchData s))) as [_|]; [|lia].
    cbn in Hp, Hq. injection Hp as <-. injection Hq as <-.
    destruct (progress_steady (List.length (batchData s)) k) as [H0 [Hs _]];
      [lia | lia |].
    split; [exact H0 | apply Hs; exact Hk].
Qed.

End BatchMarks.

(** ** From the uploaded file to the result rows *)

Section UploadAndRun.
Context `{Platform}.

Lemma prepare_normal (cfg cfg' : Config) (endpoint : Endpoint.t)
      (data data' : Row) (req : string * RequestOptions) :
  plain_names (Endpoint.parameters endpoint) ->
  prepare cfg endpoint data = Normal req ->
  exists req', prepare cfg' endpoint data' = Normal req'.
Proof.
  intros Hplain Hp. destruct (prepare cfg' endpoint data') as [req'|m] eqn:E.
  - eexists; reflexivity.
  - rewrite (prepare_throw cfg' cfg endpoint data' data m Hplain E) in Hp.
    discriminate.
Qed.

Lemma length_parseCSV (text : string) :
  List.length (Csv.parseCSV text)
  = List.length (tl (filter (fun l => negb (Csv.blank l))
                            (Str.split Str.newline text))).
Proof.
  unfold Csv.parseCSV.
  destruct (filter (fun l => negb (Csv.blank l)) (Str.split Str.newline text));
    [reflexivity|].
  simpl. apply length_map.
Qed.

(** X22.  From the file to the results: when the parameters of the
    selected endpoint are not named like members of
    [Object.prototype] and a request can be built for it at all, a run
    started after the upload of a CSV text does not stop early and
    ends with one result row for every non-blank line after the
    header line, publishing the results once per such line; a text
    with a header line only, or without any line, leaves nothing to
    run. *)
Theorem upload_then_run (fetch : nat -> Network) (s : AppState)
        (endpoint : Endpoint.t) (name text : string)
        (req : string * RequestOptions) :
  selectedEndpoint s = Some endpoint ->
  plain_names (Endpoint.parameters endpoint) ->
  prepare (config s) endpoint [] = Normal req ->
  rejection (runBatchTest fetch (handleBatchUpload (Some (name, text)) s)) = None
  /\ List.length
       (published (runBatchTest fetch (handleBatchUpload (Some (name, text)) s)))
     = List.length (tl (filter (fun l => negb (Csv.blank l))
                               (Str.split Str.newline text)))
  /\ List.length
       (batchResults
          (final (runBatchTest fetch (handleBatchUpload (Some (name, text)) s))))
     = List.length (tl (filter (fun l => negb (Csv.blank l))
                               (Str.split Str.newline text))).
Proof.
  intros Hsel Hplain Hreq.
  rewrite <- length_parseCSV.
  set (s' := handleBatchUpload (Some (name, text)) s).
  assert (Hdata : batchData s' = Csv.parseCSV text) by reflexivity.
  assert (Hsel' : selectedEndpoint s' = Some endpoint) by exact Hsel.
  assert (Hcfg : config s' = config s) by reflexivity.
  assert (Hres0 : batchResults s' = []) by reflexivity.
  assert (Hprep : forall row, In row (batchData s') ->
                              exists req', prepare (config s') endpoint row
                                           = Normal req').
  { intros row _. rewrite Hcfg.
    apply (prepare_normal (config s) (config s) endpoint [] row req Hplain Hreq). }
  destruct (batch_loop_spec fetch (config s') endpoint
              (List.length (batchData s')) (batchData s') 0 []
              (setBatchResults [] (setBatchRunning true s')) Hprep)
    as [outcomes [Hlen [_ [Hrej [Hres [_ Hfin]]]]]].
  unfold runBatchTest. rewrite Hsel'.
  destruct (List.length (batchData s') =? 0)%nat eqn:En.
  - apply Nat.eqb_eq in En. cbn [rejection published final].
    rewrite Hres0, <- Hdata, En. repeat split.
  - rewrite Hrej. cbn [rejection published final].
    split; [reflexivity|]. split.
    + rewrite <- (length_map batchResults), Hres, length_map, length_seq.
      rewrite Hdata. reflexivity.
    + change (batchResults (setBatchRunning false ?x)) with (batchResults x).
      rewrite Hfin. apply Nat.eqb_neq in En.
      destruct (batchData s') as [|row rows] eqn:Ed; [simpl in En; lia|].
      rewrite <- Hdata. cbn [app].
      apply length_result_rows. exact Hlen.
Qed.



End UploadAndRun.

(** ** The further properties on examples *)

Lemma parsed_rows_uniform_witness :
  Csv.parseCSV People.text = People.rows
  /\ JsObject.keys [("name", JStr "Ann"); ("note", JStr "a, b")]
     = JsObject.keys [("name", JStr "Bob"); ("note", JStr "x")]
  /\ parsed_row [("name", JStr "Ann"); ("note", JStr "a, b")].
Proof.
  split; [reflexivity|].
  apply (parsed_rows_uniform People.text).
  - left. reflexivity.
  - right. left. reflexivity.
Defined.

Lemma parsed_cell_by_position_witness :
  exists row,
    nth_error (Csv.parseCSV Orders.ragged) 0 = Some row
    /\ JsObject.get row (Csv.cleanKey "b")
       = Some (JStr (nth 1 (Csv.parseLine "1") EmptyString))
    /\ (List.length (Csv.parseLine "1") <= 1 ->
        JsObject.get row (Csv.cleanKey "b") = Some (JStr EmptyString)).
Proof.
  apply (parsed_cell_by_position Orders.ragged "a,b" "1" "b" ["1"%string] 0 1).
  - reflexivity.
  - reflexivity.
  - vm_compute. repeat constructor; simpl; intuition discriminate.
  - reflexivity.
  - vm_compute. discriminate.
Defined.

Lemma unterminated_quote_takes_rest_witness :
  Csv.parseLine (String Str.dquote "a, b,c") = ["a, b,c"%string].
Proof.
  apply (unterminated_quote_takes_rest "a, b,c"). reflexivity.
Defined.

Lemma exported_line_keeps_columns_witness :
  Csv.parseLine
    (CsvExport.csvLine (H := Sample.platform) ["name"; "note"]%string
       [("name", JStr "Ann"); ("note", JStr "a, b")])
  = ["Ann"; "a, b"]%string.
Proof.
  exact (exported_line_keeps_columns (H := Sample.platform)
           ["name"; "note"]%string
           [("name", JStr "Ann"); ("note", JStr "a, b")]
           ltac:(discriminate)).
Defined.

Lemma result_rows_share_columns_witness :
  JsObject.keys
    (resultRow (H := Sample.platform) 0
       [("name", JStr "Ann"); ("note", JStr "a, b")]
       (transport_failure "Failed to fetch"))
  = JsObject.keys
      (resultRow (H := Sample.platform) 1
         [("name", JStr "Bob"); ("note", JStr "x")]
         {| success := true; status := 200; time := 5; data := JObj [];
            isNetworkError := false |}).
Proof.
  apply (result_rows_share_columns (H := Sample.platform) People.text).
  - left. reflexivity.
  - right. left. reflexivity.
Defined.

Lemma unresolved_reference_gives_no_field_witness :
  extractFieldsFromSchema (H := Sample.platform)
    (Some (JObj Orders.dangling)) (Some (JObj Orders.definitions))
  = Normal [].
Proof.
  apply (unresolved_reference_gives_no_field (H := Sample.platform)
           Orders.dangling "#/definitions/Missing").
  - reflexivity.
  - discriminate.
  - right. exists Orders.definitions. split; reflexivity.
Defined.

Lemma inline_schema_fields_witness :
  exists fields,
    extractFieldsFromSchema (H := Sample.platform)
      (Some (JObj Orders.order)) None = Normal fields
    /\ map f_name fields = ["id"; "note"]%string
    /\ map f_type fields = [JStr "integer"; JStr "string"]
    /\ map f_required fields = [true; false].
Proof.
  destruct (inline_schema_fields (H := Sample.platform) Orders.order
              [("id", JObj [("type", JStr "integer")]); ("note", JObj [])]
              (Some [JStr "id"]) None)
    as [fields [Hf [Hn Hall]]].
  - reflexivity.
  - reflexivity.
  - reflexivity.
  - repeat constructor; simpl; intuition discriminate.
  - intros k p [E | [E | []]]; injection E as <- <-; discriminate.
  - exists fields. split; [exact Hf|]. split; [exact Hn|].
    inversion Hall as [|? f1 ? r1 [_ [Ht1 Hr1]] Hall1]; subst.
    inversion Hall1 as [|? f2 ? r2 [_ [Ht2 Hr2]] Hall2]; subst.
    inversion Hall2; subst.
    simpl. rewrite Ht1, Ht2, Hr1, Hr2. split; reflexivity.
Defined.

Lemma reference_resolves_to_definition_witness :
  extractFieldsFromSchema (H := Sample.platform)
    (Some (JObj Orders.by_reference)) (Some (JObj Orders.definitions))
  = extractFieldsFromSchema (H := Sample.platform)
      (Some (JObj Orders.order)) None.
Proof.
  apply (reference_resolves_to_definition (H := Sample.platform)
           Orders.by_reference Orders.definitions Orders.order
           "#/definitions" "Order" None); reflexivity.
Defined.

Lemma accepted_catalog_descriptors_witness :
  buildCatalog (H := Sample.platform) Petstore.doc = Normal Orders.catalog
  /\ In Orders.add_a_pet (endpoints Orders.catalog)
  /\ exists paths item operation,
      Js.get_opt (H := Sample.platform) (Some Petstore.doc) "paths" = Some paths
      /\ Js.get_opt (H := Sample.platform) (Some paths) "/pets" = Some item
      /\ Js.get_opt (H := Sample.platform) (Some item) "POST" = Some operation
      /\ operation <> JNull
      /\ is_verb "POST" = true
      /\ Endpoint.id Orders.add_a_pet = "POST-/pets"%string
      /\ JStr "Add a pet"
         = Js.or_else (Js.get_opt (H := Sample.platform) (Some operation) "summary")
             (Js.or_else
                (Js.get_opt (H := Sample.platform) (Some operation) "operationId")
                (JStr "/pets"))
      /\ JArr []
         = Js.or_else
             (Js.get_opt (H := Sample.platform) (Some operation) "parameters")
             (JArr [])
      /\ None = Js.get_opt (H := Sample.platform) (Some operation) "requestBody"
      /\ None
         = if Js.truthy_opt
                (Js.get_opt (H := Sample.platform) (Some Petstore.doc) "definitions")
           then Js.get_opt (H := Sample.platform) (Some Petstore.doc) "definitions"
           else Js.get_opt (H := Sample.platform)
                  (Js.get_opt (H := Sample.platform) (Some Petstore.doc)
                     "components") "schemas".
Proof.
  split; [reflexivity|]. split; [right; left; reflexivity|].
  apply (accepted_catalog_descriptors (H := Sample.platform)
           Petstore.doc Orders.catalog Orders.add_a_pet).
  - reflexivity.
  - right. left. reflexivity.
Defined.

Lemma catalog_methods_have_a_colour_witness :
  exists c,
    badge_class "POST" = Some c
    /\ JsObject.get badge_colors (Str.toLowerCase "POST") = Some c
    /\ c <> "bg-slate-100"%string.
Proof.
  apply (catalog_methods_have_a_colour (H := Sample.platform)
           Petstore.doc Orders.catalog Orders.add_a_pet).
  - reflexivity.
  - right. left. reflexivity.
Defined.

Lemma null_path_item_rejects_document_witness :
  exists message,
    handleSpecParse (H := Orders.platform) (Sample.with_catalog Orders.broken_text)
    = setError message (Sample.with_catalog Orders.broken_text).
Proof.
  apply (null_path_item_rejects_document (H := Orders.platform)
           (Sample.with_catalog Orders.broken_text) Orders.broken_doc
           [("/orders", JObj [("get", Petstore.op "List orders")]);
            ("/drafts", JNull)]
           "/drafts" JNull).
  - reflexivity.
  - reflexivity.
  - repeat constructor; simpl; intuition discriminate.
  - right. left. reflexivity.
  - left. reflexivity.
Defined.

Lemma petstore_valid : valid_spec (H := Sample.platform) Petstore.doc Petstore.paths.
Proof.
  split; [reflexivity|]. split.
  - repeat constructor; simpl; intuition discriminate.
  - intros p item Hin. simpl in Hin.
    destruct Hin as [E | [E | []]]; injection E as <- <-;
      (eexists; split; [reflexivity|]; split;
       [repeat constructor; simpl; intuition discriminate|]);
      intros m d Hm Hr; simpl in Hm;
      repeat (destruct Hm as [Em | Hm];
              [injection Em as <- <-;
               first [eexists; reflexivity | discriminate Hr]|]);
      contradiction.
Defined.

Lemma selector_finds_the_chosen_endpoint_witness :
  selectedEndpoint (selectOption "POST-/pets" Orders.loaded) = Some Orders.add_a_pet
  /\ formData (selectOption "POST-/pets" Orders.loaded) = []
  /\ manualResponse (selectOption "POST-/pets" Orders.loaded) = None.
Proof.
  apply (selector_finds_the_chosen_endpoint (H := Sample.platform)
           Petstore.doc Petstore.paths Orders.catalog Orders.loaded
           Orders.add_a_pet petstore_valid).
  - reflexivity.
  - reflexivity.
  - right. left. reflexivity.
Defined.

Lemma request_failure_ignores_the_row_witness :
  executeRequest (H := Sample.platform) (Ping.fetch 1) Sample.cfg
    Orders.holed []
  = Throw "Cannot read properties of null (reading 'in')".
Proof.
  apply (request_failure_ignores_the_row (H := Sample.platform)
           (Ping.fetch 0) (Ping.fetch 1) Sample.cfg Sample.cfg
           Orders.holed [("id", JStr "7")] []).
  - intros params p E Hin. injection E as <-.
    destruct Hin as [<- | [<- | []]]; reflexivity.
  - reflexivity.
Defined.

Lemma batch_stops_before_the_first_result_witness :
  runBatchTest (H := Sample.platform) Ping.fetch
    (Orders.loaded_holed Ping.two_rows)
  = {| published := [];
       final := setBatchResults []
                  (setBatchRunning true (Orders.loaded_holed Ping.two_rows));
       rejection := Some "Cannot read properties of null (reading 'in')"%string |}
  /\ batchRunning
       (final (runBatchTest (H := Sample.platform) Ping.fetch
                 (Orders.loaded_holed Ping.two_rows))) = true
  /\ batchResults
       (final (runBatchTest (H := Sample.platform) Ping.fetch
                 (Orders.loaded_holed Ping.two_rows))) = [].
Proof.
  apply (batch_stops_before_the_first_result (H := Sample.platform)
           Ping.fetch (Orders.loaded_holed Ping.two_rows) Orders.holed
           [("name", JStr "Bob")]).
  - reflexivity.
  - intros params p E Hin. injection E as <-.
    destruct Hin as [<- | [<- | []]]; reflexivity.
  - right. left. reflexivity.
  - reflexivity.
Defined.

(** Without the condition on the names of the parameters these two
    properties fail: with a path parameter [valueOf], the request of
    a row is built when the URL holds no placeholder of that name
    left, and throws when a value brings the placeholder in; a row
    with a column of that name is bound to its value.  A query
    parameter [constructor] is sent with the text of the inherited
    function when the row has no such column. *)
Lemma inherited_members_reach_the_request :
  option_map fst
    (match prepare (H := Sample.platform) Sample.cfg Orders.shadowed
             [("a", JStr "1")] with
     | Normal req => Some req
     | Throw _ => None
     end)
  = Some ("https://api.example.com/x/1?constructor="
            ++ Sample.native "constructor")%string
  /\ prepare (H := Sample.platform) Sample.cfg Orders.shadowed
       [("a", JStr "{valueOf}")]
     = Throw "Cannot convert undefined or null to object"
  /\ option_map fst
       (match prepare (H := Sample.platform) Sample.cfg Orders.shadowed
                [("a", JStr "{valueOf}"); ("valueOf", JStr "7");
                 ("constructor", JStr "c")] with
        | Normal req => Some req
        | Throw _ => None
        end)
     = Some "https://api.example.com/x/7?constructor=c"%string.
Proof. repeat split. Qed.

Lemma form_inputs_of_parameters_witness :
  exists fields,
    endpointFields (H := Sample.platform) Users.create_user = Normal fields
    /\ map (fun f => (ff_name f, ff_label f))
           (filter (fun f => negb (ff_isBody f)) fields)
       = [(Some (JStr "age"), "age (Path)"%string);
          (Some (JStr "age"), "age (Query)"%string)].
Proof.
  eexists. split; [vm_compute; reflexivity|].
  apply (form_inputs_of_parameters (H := Sample.platform) Users.create_user
           [JObj [("name", JStr "age"); ("in", JStr "query")]]).
  - reflexivity.
  - vm_compute. reflexivity.
Defined.

Lemma form_body_inputs_reach_the_body_witness :
  exists fields names,
    endpointFields (H := Sample.platform) Users.create_user = Normal fields
    /\ bodyFields (H := Sample.platform) Users.create_user
         (Js.or_else (Endpoint.requestBody Users.create_user) JNull)
       = Normal names
    /\ map ff_name (filter ff_isBody fields)
       = map (fun n => Some (JStr n)) names
    /\ (In "name"%string names ->
        JsObject.get (bodyData [Some (JStr "age")] names Users.ann) "name"
        = Some (JStr "Ann")).
Proof.
  destruct (endpointFields (H := Sample.platform) Users.create_user)
    as [fields|] eqn:E; [|vm_compute in E; discriminate].
  destruct (form_body_inputs_reach_the_body (H := Sample.platform)
              Users.create_user fields eq_refl E)
    as [names [Hn [Hm Hget]]].
  exists fields, names. split; [reflexivity|]. split; [exact Hn|].
  split; [exact Hm|].
  intros Hin.
  rewrite (Hget "name"%string [Some (JStr "age")] Users.ann Hin eq_refl);
    [reflexivity | discriminate].
Defined.

Lemma other_parameter_value_is_not_sent_witness :
  prepare (H := Sample.platform) Sample.cfg Orders.traced
    (JsObject.define "X-Trace" (JStr "abc") [("id", JStr "7")])
  = prepare (H := Sample.platform) Sample.cfg Orders.traced [("id", JStr "7")].
Proof.
  apply (other_parameter_value_is_not_sent (H := Sample.platform)
           Sample.cfg Orders.traced
           [Orders.trace; JObj [("name", JStr "id"); ("in", JStr "path")]]
           Orders.trace "X-Trace" (JStr "abc") [("id", JStr "7")]).
  - reflexivity.
  - left. reflexivity.
  - reflexivity.
  - intros q [<- | [<- | []]] E.
    + split; reflexivity.
    + vm_compute in E. discriminate E.
Defined.

Lemma summary_matches_listed_as_not_found_witness :
  noEndpointsFound "ADD" (endpoints Orders.catalog) = true
  /\ filterEndpoints (H := Sample.platform) "ADD" (endpoints Orders.catalog)
     = Normal [Orders.add_a_pet].
Proof.
  destruct (summary_matches_listed_as_not_found (H := Sample.platform)
              "ADD" (endpoints Orders.catalog)) as [Hn Hf].
  - vm_compute. repeat constructor.
  - vm_compute. repeat constructor; eexists; reflexivity.
  - split; [exact Hn|]. rewrite Hf. reflexivity.
Defined.

Lemma batch_progress_ends_at_100_witness :
  SFeqb (batchProgress
           (final (runBatchTest (H := Sample.platform) Ping.fetch
                     (Ping.loaded Ping.two_rows))))
        (num_of_Z 100) = true
  /\ batchRunning
       (final (runBatchTest (H := Sample.platform) Ping.fetch
                 (Ping.loaded Ping.two_rows))) = false.
Proof.
  destruct (batch_progress_ends_at_100 (H := Sample.platform) Ping.fetch
              (Ping.loaded Ping.two_rows) Ping.endpoint eq_refl)
    as [Hp [Hr _]].
  - simpl. lia.
  - intros row _. eexists. reflexivity.
  - split; [exact Hp | exact Hr].
Defined.

Lemma upload_then_run_witness :
  rejection
    (runBatchTest (H := Sample.platform) Ping.fetch
       (handleBatchUpload (Some ("people.csv"%string, People.text))
          (Ping.loaded []))) = None
  /\ List.length
       (published
          (runBatchTest (H := Sample.platform) Ping.fetch
             (handleBatchUpload (Some ("people.csv"%string, People.text))
                (Ping.loaded [])))) = 2
  /\ List.length
       (batchResults
          (final
             (runBatchTest (H := Sample.platform) Ping.fetch
                (handleBatchUpload (Some ("people.csv"%string, People.text))
                   (Ping.loaded []))))) = 2.
Proof.
  destruct (prepare (H := Sample.platform) Sample.cfg Ping.endpoint [])
    as [req|] eqn:E; [|vm_compute in E; discriminate].
  refine (upload_then_run (H := Sample.platform) Ping.fetch (Ping.loaded [])
            Ping.endpoint "people.csv" People.text req eq_refl _ E).
  intros params p Ep Hin. injection Ep as <-. contradiction.
Defined.

